(** * PDFMerger: the merge pipeline of [pdfmerge.py] and [convert.py]

    A shallow embedding of [merge_pdfs] (pdfmerge.py) and of
    [is_supported_nonpdf], [convert_to_pdf], [_text_to_pdf], [_escape_xml]
    and [_image_to_pdf] (convert.py), over an explicit model of what the
    code runs on: Python strings and paths, exceptions, the file system,
    and the third-party libraries (pypdf, img2pdf, Pillow, reportlab,
    docx2pdf), which appear as the fields of a runtime environment.  The
    callers of [merge_pdfs] are embedded over the same model: [merge]
    (pdfmerge.py), [main] after its [parse_args] (pdfmerge_cli.py), and the
    handlers of the window (PDFMerger.py), for which Qt's list widget is a
    list of texts with a current row and the answers of the dialogs are
    arguments.

    Conventions.
    - A Python [str] used as a path or a message is a Rocq [string], one
      [ascii] per code point; the model covers code points up to U+00FF.
    - The text read from a [.txt] file is a list of code points ([N]),
      decoded from the bytes of the file.
    - [os.path] is [posixpath]; [pathlib] is that of Python 3.12.
    - The file system is a finite map from normalised absolute paths to
      nodes, without symbolic links.  What looks a path up
      ([os.path.exists], [isfile], [isdir], opening a file to read it)
      walks its components from the root as the kernel does ([namei]): a
      component is taken only out of a directory, so that [a.pdf/] and
      [nodir/../a.pdf] name nothing where [a.pdf] is a file and [nodir] is
      missing.  What makes an entry ([os.mkdir], opening a file to write
      it) places it at the absolute, normalised form of the path.  A path
      with exactly two leading slashes keeps them, as [normpath] does, and
      names a root of its own, as POSIX allows; Linux takes it for [/].
    - A file holds a well-formed PDF, given by its pages, or any other
      bytes.  What pypdf makes of other bytes is the [PdfReader] of the
      environment: it raises when the file is appended, or takes the file
      and fails when the document is written, which leaves the output
      partly written. *)

From Stdlib Require Import Strings.String Strings.Ascii Strings.Byte.
From Stdlib Require Import NArith ZArith QArith Lia Bool.
From stdpp Require Import base option list gmap strings pretty.

(** ** Python strings *)

Module Py.

Definition slash : ascii := "/"%char.
Definition dot : ascii := "."%char.

(** [str.isspace] on one character (code points up to U+00FF). *)
Definition isspace (a : ascii) : bool :=
  let n := nat_of_ascii a in
  ((9 <=? n) && (n <=? 13)) || ((28 <=? n) && (n <=? 32))
  || (n =? 133) || (n =? 160).

(** [str.lower] on one character (code points up to U+00FF). *)
Definition lower_char (a : ascii) : ascii :=
  let n := nat_of_ascii a in
  if ((65 <=? n) && (n <=? 90))
     || ((192 <=? n) && (n <=? 222) && negb (n =? 215))
  then ascii_of_nat (n + 32) else a.

Fixpoint lower (s : string) : string :=
  match s with
  | EmptyString => EmptyString
  | String a r => String (lower_char a) (lower r)
  end.

Fixpoint lstrip (s : string) : string :=
  match s with
  | EmptyString => EmptyString
  | String a r => if isspace a then lstrip r else s
  end.

Fixpoint rstrip (s : string) : string :=
  match s with
  | EmptyString => EmptyString
  | String a r =>
      match rstrip r with
      | EmptyString => if isspace a then EmptyString else String a EmptyString
      | r' => String a r'
      end
  end.

(** [s.strip()] *)
Definition strip (s : string) : string := rstrip (lstrip s).

(** [s.rstrip(c)] for a one-character [c]. *)
Fixpoint rstrip_char (c : ascii) (s : string) : string :=
  match s with
  | EmptyString => EmptyString
  | String a r =>
      match rstrip_char c r with
      | EmptyString => if Ascii.eqb a c then EmptyString else String a EmptyString
      | r' => String a r'
      end
  end.

(** [s.startswith(p)] *)
Definition startswith (p s : string) : bool := String.prefix p s.

(** [s.endswith(c)] for a one-character [c]. *)
Fixpoint endswith_char (c : ascii) (s : string) : bool :=
  match s with
  | EmptyString => false
  | String a EmptyString => Ascii.eqb a c
  | String _ r => endswith_char c r
  end.

(** [needle in hay] *)
Fixpoint contains (needle hay : string) : bool :=
  String.prefix needle hay
  || match hay with
     | EmptyString => false
     | String _ r => contains needle r
     end.

(** [c in s] for a character. *)
Fixpoint has_char (c : ascii) (s : string) : bool :=
  match s with
  | EmptyString => false
  | String a r => Ascii.eqb a c || has_char c r
  end.

(** [s.split(sep)] for a one-character separator: never the empty list. *)
Fixpoint split_on (sep : ascii) (s : string) : list string :=
  match s with
  | EmptyString => [EmptyString]
  | String a r =>
      if Ascii.eqb a sep then EmptyString :: split_on sep r
      else match split_on sep r with
           | h :: t => String a h :: t
           | [] => [String a EmptyString]
           end
  end.

(** [sep.join(l)] *)
Fixpoint join_with (sep : string) (l : list string) : string :=
  match l with
  | [] => EmptyString
  | x :: rest =>
      match rest with
      | [] => x
      | _ => x +:+ sep +:+ join_with sep rest
      end
  end.

(** [s.rpartition(".")] when [s] has a dot: the text before the last dot,
    and the text from the last dot on (the dot included). *)
Fixpoint rsplit_dot (s : string) : option (string * string) :=
  match s with
  | EmptyString => None
  | String a r =>
      match rsplit_dot r with
      | Some (pre, suf) => Some (String a pre, suf)
      | None => if Ascii.eqb a dot then Some (EmptyString, s) else None
      end
  end.

Fixpoint all_char (c : ascii) (s : string) : bool :=
  match s with
  | EmptyString => true
  | String a r => Ascii.eqb a c && all_char c r
  end.

End Py.

(** ** [posixpath] and [pathlib] *)

Module Path.

Definition sep : string := "/".

(** [posixpath.isabs] *)
Definition isabs (p : string) : bool := Py.startswith sep p.

(** [posixpath.join(a, b)] *)
Definition join (a b : string) : string :=
  if Py.startswith sep b then b
  else if String.eqb a "" || Py.endswith_char Py.slash a then a +:+ b
  else a +:+ sep +:+ b.

(** [p[:p.rfind("/") + 1]]: the text up to the last slash, included. *)
Definition head_slash (p : string) : string :=
  match removelast (Py.split_on Py.slash p) with
  | [] => EmptyString
  | cs => Py.join_with sep cs +:+ sep
  end.

(** [p[p.rfind("/") + 1:]]: the text after the last slash. *)
Definition basename (p : string) : string :=
  List.last (Py.split_on Py.slash p) EmptyString.

(** [posixpath.dirname] *)
Definition dirname (p : string) : string :=
  let head := head_slash p in
  if negb (String.eqb head "") && negb (Py.all_char Py.slash head)
  then Py.rstrip_char Py.slash head else head.

(** [posixpath.splitext]: the extension starts at the last dot of the last
    component, unless only dots stand before it there. *)
Definition splitext (p : string) : string * string :=
  match Py.rsplit_dot (basename p) with
  | Some (pre, suf) =>
      if Py.all_char Py.dot pre then (p, EmptyString)
      else (head_slash p +:+ pre, suf)
  | None => (p, EmptyString)
  end.

(** One step of the loop of [posixpath.normpath] over the components; the
    stack [new_comps] is kept with its last element first. *)
Definition norm_step (initial_slashes : nat) (new_comps : list string)
    (comp : string) : list string :=
  if String.eqb comp "" || String.eqb comp "." then new_comps
  else if negb (String.eqb comp "..")
          || (Nat.eqb initial_slashes 0 && bool_decide (new_comps = []))
          || (match new_comps with top :: _ => String.eqb top ".." | [] => false end)
  then comp :: new_comps
  else tl new_comps.

Fixpoint slashes (n : nat) : string :=
  match n with
  | O => EmptyString
  | S n' => String Py.slash (slashes n')
  end.

(** [posixpath.normpath] *)
Definition normpath (path : string) : string :=
  if String.eqb path "" then "."
  else
    let initial_slashes :=
      if Py.startswith sep path
      then if Py.startswith "//" path && negb (Py.startswith "///" path)
           then 2 else 1
      else 0 in
    let comps := Py.split_on Py.slash path in
    let new_comps := rev (fold_left (norm_step initial_slashes) comps []) in
    let path' := slashes initial_slashes +:+ Py.join_with sep new_comps in
    if String.eqb path' "" then "." else path'.

(** [posixpath.abspath] in the working directory [cwd]. *)
Definition abspath (cwd p : string) : string :=
  if isabs p then normpath p else normpath (join cwd p).

(** [PurePosixPath(p).name]: the last component, the empty and [.]
    components dropped. *)
Definition name (p : string) : string :=
  List.last
    (List.filter (fun c => negb (String.eqb c "" || String.eqb c "."))
       (Py.split_on Py.slash p))
    EmptyString.

(** [PurePosixPath(p).suffix] *)
Definition suffix (p : string) : string :=
  match Py.rsplit_dot (name p) with
  | Some (pre, suf) =>
      if negb (String.eqb pre "") && (1 <? String.length suf)
      then suf else EmptyString
  | None => EmptyString
  end.

(** [PurePosixPath(p).stem] *)
Definition stem (p : string) : string :=
  match Py.rsplit_dot (name p) with
  | Some (pre, suf) =>
      if negb (String.eqb pre "") && (1 <? String.length suf)
      then pre else name p
  | None => name p
  end.

End Path.

(** ** Exceptions *)

Inductive exn_class : Type :=
| ValueError
| FileExistsError
| FileNotFoundError
| IsADirectoryError
| NotADirectoryError
| RecursionError
| UnicodeDecodeError
| PdfReadError
| MergeError
| LibraryError (name : string).

(** An exception: its class, [str(e)], and [e.__cause__].  Every class of
    the model derives from [Exception]. *)
Inductive exn : Type :=
| Exn (cls : exn_class) (msg : string) (cause : option exn).

Definition exn_cls (e : exn) : exn_class := let 'Exn c _ _ := e in c.
Definition exn_msg (e : exn) : string := let 'Exn _ m _ := e in m.
Definition exn_cause (e : exn) : option exn := let 'Exn _ _ c := e in c.

Definition is_FileExistsError (e : exn) : bool :=
  match exn_cls e with FileExistsError => true | _ => false end.

(** [isinstance(e, OSError)] *)
Definition is_OSError (e : exn) : bool :=
  match exn_cls e with
  | FileExistsError | FileNotFoundError | IsADirectoryError
  | NotADirectoryError => true
  | _ => false
  end.

(** [str(OSError(errno, strerror, filename))] *)
Definition os_error (c : exn_class) (errno strerror filename : string) : exn :=
  Exn c ("[Errno " +:+ errno +:+ "] " +:+ strerror +:+ ": '" +:+ filename +:+ "'") None.

Definition EEXIST (p : string) : exn := os_error FileExistsError "17" "File exists" p.
Definition ENOENT (p : string) : exn :=
  os_error FileNotFoundError "2" "No such file or directory" p.
Definition ENOTDIR (p : string) : exn :=
  os_error NotADirectoryError "20" "Not a directory" p.
Definition EISDIR (p : string) : exn :=
  os_error IsADirectoryError "21" "Is a directory" p.

(** ** Files, documents and the file system *)

(** A page of a PDF document and a decoded image are opaque values. *)
Inductive page : Type := Page (id : N).
Inductive image : Type := Image (id : N).

(** What a regular file holds: a well-formed PDF document, given by its
    pages in order, or any other bytes. *)
Inductive data : Type :=
| Pdf (pages : list page)
| Raw (bytes : list byte).

Inductive node : Type :=
| Dir
| File (d : data).

Global Instance page_eq_dec : EqDecision page.
Proof. solve_decision. Defined.
Global Instance byte_eq_dec : EqDecision byte := Byte.byte_eq_dec.
Global Instance data_eq_dec : EqDecision data.
Proof. solve_decision. Defined.
Global Instance node_eq_dec : EqDecision node.
Proof. solve_decision. Defined.

(** The file system: normalised absolute path to node. *)
Abbreviation fsmap := (gmap string node).

(** The keyword arguments of [img2pdf.convert]. *)
Inductive rotation_mode : Type := IfValid.
Record img_opts : Type := ImgOpts {
  auto_orient : option bool;
  rotation : option rotation_mode
}.

(** The flowables of reportlab's platypus that [_text_to_pdf] builds. *)
Inductive flowable : Type :=
| Paragraph (text : list N) (style : string)
| Spacer (width height : Q).

(** The calls into the conversion libraries. *)
Inductive call : Type :=
| Img2pdfConvert (src : string) (opts : img_opts)
| ImageOpen (src : string)
| ExifTranspose
| ImageSave (dst : string)
| Docx2pdfConvert (src dst : string)
| DocBuild (dst : string).

(** The world: the file system, and two records kept for the statements,
    the library calls made and the contents written through [f.write], both
    oldest first. *)
Record world : Type := World {
  fs : fsmap;
  calls : list call;
  written : list (string * data)
}.

(** ** The runtime environment

    The process state the code reads and the behaviour of the libraries it
    calls.  A library function is any function of what it is given; the
    ones that read files are given the file system. *)
Record Env : Type := {
  cwd : string;                      (* os.getcwd() *)
  tempdir : string;                  (* tempfile.gettempdir() *)
  temp_names : list string;          (* the names mkdtemp draws, in order *)
  has_PdfMerger : bool;              (* _PdfMerger is not None *)
  _HAS_DOCX2PDF : bool;
  has_Rotation_ifvalid : bool;       (* img2pdf.Rotation.ifvalid exists *)
  pdf_bytes : list page -> list byte;  (* the bytes of a PDF file *)
  (* pypdf on a file that is no well-formed PDF: it raises when the file
     is appended, or takes pages from it; the pages may hold a failure
     that waits for the document to be written, with the bytes written
     before it *)
  PdfReader : list byte -> exn + (list page * option (exn * list byte));
  img2pdf_convert : fsmap -> string -> img_opts -> exn + list page;
  Image_open : fsmap -> string -> exn + image;
  exif_transpose : image -> exn + image;
  png_encode : image -> exn + list byte;
  docx2pdf_convert : fsmap -> string -> exn + data;
  platypus_build : string -> list flowable -> exn + list page
}.

(** ** The monad of the embedding: state and exceptions

    A computation takes the world and returns the world it leaves and
    either a value or the exception raised; the effects made before an
    exception stay. *)

Inductive outcome (A : Type) : Type :=
| Ok (a : A)
| Raise (e : exn).
Arguments Ok {A} a.
Arguments Raise {A} e.

Definition M (A : Type) : Type := world -> world * outcome A.

Definition ret {A} (a : A) : M A := fun w => (w, Ok a).
Definition raise {A} (e : exn) : M A := fun w => (w, Raise e).
Definition bind {A B} (m : M A) (k : A -> M B) : M B :=
  fun w => match m w with
           | (w', Ok a) => k a w'
           | (w', Raise e) => (w', Raise e)
           end.

Declare Scope py_scope.
Delimit Scope py_scope with py.
Notation "x <- m ;; k" := (bind m (fun x => k))
  (at level 100, m at next level, right associativity) : py_scope.
Notation "m ;; k" := (bind m (fun _ => k))
  (at level 100, right associativity) : py_scope.
Open Scope py_scope.

(** [try: m  except Exception as e: h e] *)
Definition try_except {A} (m : M A) (h : exn -> M A) : M A :=
  fun w => match m w with
           | (w', Ok a) => (w', Ok a)
           | (w', Raise e) => h e w'
           end.

(** [try: m  finally: c] *)
Definition try_finally {A} (m : M A) (c : M unit) : M A :=
  fun w => match m w with
           | (w', r) =>
               match c w' with
               | (w'', Ok _) => (w'', r)
               | (w'', Raise e) => (w'', Raise e)
               end
           end.

Definition get_fs : M fsmap := fun w => (w, Ok (fs w)).
Definition put_fs (m : fsmap) : M unit :=
  fun w => (World m (calls w) (written w), Ok tt).
Definition log (c : call) : M unit :=
  fun w => (World (fs w) (calls w ++ [c]) (written w), Ok tt).
Definition log_write (k : string) (d : data) : M unit :=
  fun w => (World (fs w) (calls w) (written w ++ [(k, d)]), Ok tt).
Definition lift {A} (r : exn + A) : M A :=
  match r with inl e => raise e | inr a => ret a end.

(** ** Text: decoding, lines, blank lines *)

Module Text.

(** The [errors] argument of [open]. *)
Inductive errors_mode : Type := Strict | Ignore.

Definition is_cont (b : byte) : bool :=
  let n := Byte.to_N b in ((128 <=? n) && (n <=? 191))%N.

Definition cont_bits (b : byte) : N := (Byte.to_N b - 128)%N.

(** The second byte of a three or four byte sequence is further limited by
    the first: no overlong form, no surrogate, nothing above U+10FFFF. *)
Definition second_ok (lead : N) (b : byte) : bool :=
  let n := Byte.to_N b in
  (if lead =? 224 then (160 <=? n) && (n <=? 191)
   else if lead =? 237 then (128 <=? n) && (n <=? 159)
   else if lead =? 240 then (144 <=? n) && (n <=? 191)
   else if lead =? 244 then (128 <=? n) && (n <=? 143)
   else (128 <=? n) && (n <=? 191))%N.

Definition undecodable : exn :=
  Exn UnicodeDecodeError "'utf-8' codec can't decode bytes" None.

(** [bytes.decode("utf-8", errors)]: on a malformed sequence the strict
    decoder raises, the ignoring one drops the bytes in error and goes on.
    The bytes in error are the lead byte and the continuation bytes read
    so far; those are no lead bytes themselves, so dropping the lead byte
    and resuming right after it drops the same bytes. *)
Fixpoint decode (errors : errors_mode) (bs : list byte) : exn + list N :=
  match bs with
  | [] => inr []
  | b0 :: r0 =>
      let bad :=
        match errors with
        | Strict => inl undecodable
        | Ignore => decode errors r0
        end in
      let emit (c : N) (r : exn + list N) : exn + list N :=
        match r with inl e => inl e | inr t => inr (c :: t) end in
      let n0 := Byte.to_N b0 in
      if (n0 <? 128)%N then emit n0 (decode errors r0)
      else if ((194 <=? n0) && (n0 <=? 223))%N then
        match r0 with
        | b1 :: r1 =>
            if is_cont b1
            then emit ((n0 - 192) * 64 + cont_bits b1)%N (decode errors r1)
            else bad
        | [] => bad
        end
      else if ((224 <=? n0) && (n0 <=? 239))%N then
        match r0 with
        | b1 :: (b2 :: r2) =>
            if second_ok n0 b1 && is_cont b2
            then emit ((n0 - 224) * 4096 + cont_bits b1 * 64 + cont_bits b2)%N
                      (decode errors r2)
            else bad
        | _ => bad
        end
      else if ((240 <=? n0) && (n0 <=? 244))%N then
        match r0 with
        | b1 :: (b2 :: (b3 :: r3)) =>
            if second_ok n0 b1 && is_cont b2 && is_cont b3
            then emit ((n0 - 240) * 262144 + cont_bits b1 * 4096
                       + cont_bits b2 * 64 + cont_bits b3)%N
                      (decode errors r3)
            else bad
        | _ => bad
        end
      else bad
  end.

(** Universal newlines of a file opened in text mode: CR LF and a lone CR
    are read as LF. *)
Fixpoint translate_newlines (t : list N) : list N :=
  match t with
  | [] => []
  | c :: r =>
      if (c =? 13)%N then
        match r with
        | c' :: r' =>
            if (c' =? 10)%N then 10%N :: translate_newlines r'
            else 10%N :: translate_newlines r
        | [] => [10%N]
        end
      else c :: translate_newlines r
  end.

(** The line boundaries of [str.splitlines]. *)
Definition is_linebreak (c : N) : bool :=
  ((10 <=? c) && (c <=? 13) || (28 <=? c) && (c <=? 30)
   || (c =? 133) || (c =? 8232) || (c =? 8233))%N.

(** [str.splitlines()]: the line boundaries are dropped, CR LF is one
    boundary, and a boundary at the very end opens no empty last line. *)
Fixpoint splitlines (t : list N) : list (list N) :=
  match t with
  | [] => []
  | c :: r =>
      if is_linebreak c then
        match r with
        | c' :: r' =>
            if ((c =? 13) && (c' =? 10))%N then [] :: splitlines r'
            else [] :: splitlines r
        | [] => [[]]
        end
      else
        match splitlines r with
        | [] => [[c]]
        | l :: ls => (c :: l) :: ls
        end
  end.

(** [str.isspace] on one code point. *)
Definition isspace (c : N) : bool :=
  ((9 <=? c) && (c <=? 13) || (28 <=? c) && (c <=? 32)
   || (c =? 133) || (c =? 160) || (c =? 5760)
   || (8192 <=? c) && (c <=? 8202) || (c =? 8232) || (c =? 8233)
   || (c =? 8239) || (c =? 8287) || (c =? 12288))%N.

Fixpoint lstrip (t : list N) : list N :=
  match t with
  | [] => []
  | c :: r => if isspace c then lstrip r else t
  end.

Fixpoint rstrip (t : list N) : list N :=
  match t with
  | [] => []
  | c :: r =>
      match rstrip r with
      | [] => if isspace c then [] else [c]
      | r' => c :: r'
      end
  end.

(** [s.strip()] *)
Definition strip (t : list N) : list N := rstrip (lstrip t).

(** The code points of a string literal. *)
Fixpoint of_string (s : string) : list N :=
  match s with
  | EmptyString => []
  | String a r => N_of_ascii a :: of_string r
  end.

(** [t.replace(old, new)] for a one-character [old]. *)
Fixpoint replace (old : N) (new : list N) (t : list N) : list N :=
  match t with
  | [] => []
  | c :: r => if (c =? old)%N then new ++ replace old new r
              else c :: replace old new r
  end.

End Text.

(** [posixpath.split] *)
Definition path_split (p : string) : string * string :=
  (Path.dirname p, Path.basename p).

(** [k] is [d] or lies below it: [d] is reached from [k] by going to the
    parent directory. *)
Fixpoint is_under_fuel (n : nat) (d k : string) : bool :=
  String.eqb k d
  || match n with
     | O => false
     | S n' =>
         let p := Path.dirname k in
         negb (String.eqb p k) && is_under_fuel n' d p
     end.

Definition is_under (d k : string) : bool :=
  is_under_fuel (String.length k) d k.

(** Line 78 of [merge_pdfs]: the inputs kept are those that are not
    blank. *)
Definition kept_inputs (input_files : list string) : list string :=
  List.filter (fun p => negb (String.eqb (Py.strip p) "")) input_files.

Definition file_is_pdf (n : option node) : option (list page) :=
  match n with
  | Some (File (Pdf ps)) => Some ps
  | _ => None
  end.

(** The number of leading slashes [posixpath.normpath] keeps. *)
Definition initial_slashes (path : string) : nat :=
  if Py.startswith Path.sep path
  then if Py.startswith "//" path && negb (Py.startswith "///" path)
       then 2 else 1
  else 0.

(** ** The operating system and the libraries *)

(** The kernel's walk along the components of a path, from the place [d],
    without symbolic links.  A component is taken only out of a directory:
    the empty one and [.] stay there, [..] goes to the parent, a name goes
    to the entry of that name, which need not exist.  The walk gives the
    place it ends at, or the error of the place it could not leave. *)
Fixpoint walk (m : fsmap) (d : string) (comps : list string)
    : (string -> exn) + string :=
  match comps with
  | [] => inr d
  | c :: rest =>
      match m !! d with
      | Some Dir =>
          walk m
            (if String.eqb c "" || String.eqb c "." then d
             else if String.eqb c ".." then Path.dirname d
             else Path.join d c)
            rest
      | Some (File _) => inl ENOTDIR
      | None => inl ENOENT
      end
  end.

Section Model.

Variable E : Env.

(** The absolute, normalised form of a path: the name under which the
    file system holds what the path names, when the kernel can walk it. *)
Definition key (p : string) : string := Path.abspath (cwd E) p.

(** Where the kernel ends when it looks [p] up: it walks from the root
    for an absolute path and from the working directory for any other,
    which is the walk from the root along [join cwd p]; the empty path
    leads nowhere.  A path that goes through a directory that is not
    there, or through a file, is not found, whatever its normalised form
    names. *)
Definition namei (m : fsmap) (p : string) : (string -> exn) + string :=
  if String.eqb p "" then inl ENOENT
  else
    let q := Path.join (cwd E) p in
    walk m (Path.slashes (initial_slashes q)) (Py.split_on Py.slash q).

(** [os.stat(p)]: the node the path leads to. *)
Definition stat (m : fsmap) (p : string) : option node :=
  match namei m p with
  | inr k => m !! k
  | inl _ => None
  end.

Definition os_path_exists (m : fsmap) (p : string) : bool :=
  match stat m p with Some _ => true | None => false end.

Definition os_path_isfile (m : fsmap) (p : string) : bool :=
  match stat m p with Some (File _) => true | _ => false end.

Definition os_path_isdir (m : fsmap) (p : string) : bool :=
  match stat m p with Some Dir => true | _ => false end.

(** [os.mkdir(p)] *)
Definition os_mkdir (p : string) : M unit :=
  m <- get_fs ;;
  let k := key p in
  match m !! k with
  | Some _ => raise (EEXIST p)
  | None =>
      match m !! Path.dirname k with
      | Some Dir => put_fs (<[k := Dir]> m)
      | Some (File _) => raise (ENOTDIR p)
      | None => raise (ENOENT p)
      end
  end.

(** The end of [os.makedirs(name, exist_ok=True)]: [mkdir(name)], whose
    [OSError] is passed over when [name] is a directory. *)
Definition mkdir_exist_ok (name : string) : M unit :=
  try_except (os_mkdir name)
    (fun e =>
       if negb (is_OSError e) then raise e
       else
         m' <- get_fs ;;
         if os_path_isdir m' name then ret tt else raise e).

(** [os.makedirs(name, exist_ok=True)]; [fuel] bounds the recursion on the
    parent, which is shorter than [name]. *)
Fixpoint os_makedirs (fuel : nat) (name : string) : M unit :=
  match fuel with
  | O => raise (Exn RecursionError "maximum recursion depth exceeded" None)
  | S fuel' =>
      let '(head, tail) := path_split name in
      let '(head, tail) :=
        if String.eqb tail "" then path_split head else (head, tail) in
      m <- get_fs ;;
      finished <-
        (if negb (String.eqb head "") && negb (String.eqb tail "")
            && negb (os_path_exists m head)
         then
           try_except (os_makedirs fuel' head)
             (fun e => if is_FileExistsError e then ret tt else raise e) ;;
           ret (String.eqb tail ".")
         else ret false) ;;
      if finished : bool then ret tt else mkdir_exist_ok name
  end.

(** [open(p, "wb")]: the file is created, or emptied when it exists.  The
    paths the program makes or writes are the absolute output path, its
    parents, and names joined to a directory it was given or has made;
    [os.mkdir] and [open] for writing take the place of such a path to be
    its [key]. *)
Definition open_wb (p : string) : M unit :=
  m <- get_fs ;;
  let k := key p in
  match m !! k with
  | Some Dir => raise (EISDIR p)
  | _ =>
      match m !! Path.dirname k with
      | Some Dir => put_fs (<[k := File (Raw [])]> m)
      | Some (File _) => raise (ENOTDIR p)
      | None => raise (ENOENT p)
      end
  end.

(** [f.write(d)] on the file opened at [p]. *)
Definition f_write (p : string) (d : data) : M unit :=
  m <- get_fs ;;
  put_fs (<[key p := File d]> m) ;;
  log_write (key p) d.

(** [with open(p, "wb") as f: f.write(payload)]: the file is opened
    first, then the payload is computed, then it is written. *)
Definition with_open_wb (p : string) (payload : M data) : M unit :=
  open_wb p ;;
  d <- payload ;;
  f_write p d.

(** [tempfile.mkdtemp()] over the names still to draw: a name that exists
    is passed over; when none is left, [FileExistsError]. *)
Fixpoint mkdtemp (names : list string) : M string :=
  match names with
  | [] =>
      raise (Exn FileExistsError
               "[Errno 17] No usable temporary directory name found" None)
  | name :: rest =>
      let file := Path.join (tempdir E) ("tmp" +:+ name) in
      try_except (os_mkdir file ;; ret (key file))
        (fun e => if is_FileExistsError e then mkdtemp rest else raise e)
  end.

(** [tempfile.TemporaryDirectory()] and its [__enter__]: the name of the
    directory created. *)
Definition TemporaryDirectory : M string := mkdtemp (temp_names E).

(** [shutil.rmtree(d)], as [TemporaryDirectory.__exit__] runs it. *)
Definition rmtree (d : string) : M unit :=
  m <- get_fs ;;
  put_fs (filter (fun kv => is_under (key d) kv.1 = false) m).

(** A [PdfMerger]: the pages appended so far and, when a file was taken
    that is no well-formed PDF, the failure that waits for the write. *)
Record PdfMerger : Type := {
  merger_pages : list page;
  merger_defect : option (exn * list byte)
}.

(** [_PdfMerger(strict=False)] *)
Definition new_merger : PdfMerger :=
  {| merger_pages := []; merger_defect := None |}.

(** [merger.append(pdf)]: the file is opened and its pages are appended.
    A well-formed PDF gives its pages; of any other file pypdf makes what
    [PdfReader] says. *)
Definition merger_append (merger : PdfMerger) (pdf : string) : M PdfMerger :=
  m <- get_fs ;;
  match namei m pdf with
  | inl errno => raise (errno pdf)
  | inr k =>
      match m !! k with
      | Some (File (Pdf ps)) =>
          ret {| merger_pages := merger_pages merger ++ ps;
                 merger_defect := merger_defect merger |}
      | Some (File (Raw bs)) =>
          r <- lift (PdfReader E bs) ;;
          ret {| merger_pages := merger_pages merger ++ r.1;
                 merger_defect :=
                   match merger_defect merger with
                   | Some d => Some d
                   | None => r.2
                   end |}
      | Some Dir => raise (EISDIR pdf)
      | None => raise (ENOENT pdf)
      end
  end.

(** [with open(out_path, "wb") as fh: merger.write(fh)]: the file is
    opened, then the document is written; a failure that waited for the
    write leaves the file with what was written before it. *)
Definition merger_write (out_path : string) (merger : PdfMerger) : M unit :=
  open_wb out_path ;;
  match merger_defect merger with
  | None => f_write out_path (Pdf (merger_pages merger))
  | Some (e, partial) => f_write out_path (Raw partial) ;; raise e
  end.

Definition file_bytes (d : data) : list byte :=
  match d with
  | Pdf ps => pdf_bytes E ps
  | Raw bs => bs
  end.

(** [open(p, "r", encoding="utf-8", errors=errors).read()] *)
Definition read_text (errors : Text.errors_mode) (p : string) : M (list N) :=
  m <- get_fs ;;
  match namei m p with
  | inl errno => raise (errno p)
  | inr k =>
      match m !! k with
      | Some (File d) =>
          t <- lift (Text.decode errors (file_bytes d)) ;;
          ret (Text.translate_newlines t)
      | Some Dir => raise (EISDIR p)
      | None => raise (ENOENT p)
      end
  end.

(** [img2pdf.convert(src, **opts)] *)
Definition img2pdf_call (src : string) (opts : img_opts) : M data :=
  log (Img2pdfConvert src opts) ;;
  m <- get_fs ;;
  pages <- lift (img2pdf_convert E m src opts) ;;
  ret (Pdf pages).

(** [SimpleDocTemplate(out_pdf, ..., title=title).build(story)]: the
    story is laid out, then the document is saved. *)
Definition doc_build (out_pdf title : string) (story : list flowable) : M unit :=
  log (DocBuild out_pdf) ;;
  pages <- lift (platypus_build E title story) ;;
  with_open_wb out_pdf (ret (Pdf pages)).

(** [docx2pdf.convert(in_path, out)] *)
Definition docx2pdf_call (in_path out : string) : M unit :=
  log (Docx2pdfConvert in_path out) ;;
  m <- get_fs ;;
  d <- lift (docx2pdf_convert E m in_path) ;;
  with_open_wb out (ret d).

(** ** convert.py *)

Definition IMAGE_EXTS : list string :=
  [".png"; ".jpg"; ".jpeg"; ".bmp"; ".tif"; ".tiff"; ".gif"].
Definition TEXT_EXTS : list string := [".txt"].
Definition DOCX_EXTS : list string := [".docx"].

Definition is_supported_nonpdf (path : string) : bool :=
  let ext := Py.lower (Path.suffix path) in
  bool_decide (ext ∈ IMAGE_EXTS) || bool_decide (ext ∈ TEXT_EXTS)
  || (bool_decide (ext ∈ DOCX_EXTS) && _HAS_DOCX2PDF E).

Definition _escape_xml (text : list N) : list N :=
  Text.replace (N_of_ascii "'") (Text.of_string "&#39;")
    (Text.replace (N_of_ascii "034") (Text.of_string "&quot;")
       (Text.replace (N_of_ascii ">") (Text.of_string "&gt;")
          (Text.replace (N_of_ascii "<") (Text.of_string "&lt;")
             (Text.replace (N_of_ascii "&") (Text.of_string "&amp;") text)))).

Definition inch : Q := 72.

(** The body of the loop of [_text_to_pdf]: what one line adds to the
    story. *)
Definition story_append (story : list flowable) (line : list N) : list flowable :=
  if negb (bool_decide (Text.strip line = []))
  then story ++ [Paragraph (_escape_xml line) "BodyText"]
  else story ++ [Spacer 1 (0.2 * inch)].

Definition _text_to_pdf (txt_path out_pdf : string) : M unit :=
  content <- read_text Text.Ignore txt_path ;;
  let story := fold_left story_append (Text.splitlines content) [] in
  doc_build out_pdf (Path.name txt_path) story.

(** The first attempt of [_image_to_pdf] and its keyword arguments. *)
Definition primary_opts : img_opts :=
  {| auto_orient := Some true;
     rotation := if has_Rotation_ifvalid E then Some IfValid else None |}.

Definition fixed_opts : img_opts :=
  {| auto_orient := Some false; rotation := None |}.

Definition no_opts : img_opts :=
  {| auto_orient := None; rotation := None |}.

(** The test of [except Exception as e] after the first attempt: the
    failure is raised again when this holds. *)
Definition some_other_error (e : exn) : bool :=
  let msg := Py.lower (exn_msg e) in
  negb (Py.contains "invalid rotation" msg) && negb (Py.contains "rotation" msg).

(** The fallback of [_image_to_pdf]: orientation fixed with Pillow, the
    image saved as PNG, that file encoded as it is. *)
Definition image_fallback (img_path out_pdf tmp_dir : string) : M unit :=
  log (ImageOpen img_path) ;;
  m <- get_fs ;;
  im <- lift (Image_open E m img_path) ;;
  log ExifTranspose ;;
  fixed <- lift (exif_transpose E im) ;;
  let tmp_fixed := Path.join tmp_dir ("fixed_" +:+ Path.stem img_path +:+ ".png") in
  log (ImageSave tmp_fixed) ;;
  png <- lift (png_encode E fixed) ;;
  with_open_wb tmp_fixed (ret (Raw png)) ;;
  with_open_wb out_pdf (img2pdf_call tmp_fixed fixed_opts).

Definition _image_to_pdf (img_path out_pdf tmp_dir : string) : M unit :=
  try_except (with_open_wb out_pdf (img2pdf_call img_path primary_opts))
    (fun e =>
       if some_other_error e then raise e
       else
         try_except (image_fallback img_path out_pdf tmp_dir)
           (fun _ => with_open_wb out_pdf (img2pdf_call img_path no_opts))).

Definition convert_to_pdf (input_path : string) (tmp_dir : option string) : M string :=
  let in_path := key input_path in
  m <- get_fs ;;
  if negb (os_path_isfile m in_path)
  then raise (Exn ValueError ("Input not found: " +:+ in_path) None)
  else
    let ext := Py.lower (Path.suffix in_path) in
    let tmp_dir := default (tempdir E) tmp_dir in
    if bool_decide (ext ∈ IMAGE_EXTS) then
      let out := Path.join tmp_dir ("img_" +:+ Path.stem in_path +:+ ".pdf") in
      _image_to_pdf in_path out tmp_dir ;;
      ret out
    else if bool_decide (ext ∈ TEXT_EXTS) then
      let out := Path.join tmp_dir ("txt_" +:+ Path.stem in_path +:+ ".pdf") in
      _text_to_pdf in_path out ;;
      ret out
    else if bool_decide (ext ∈ DOCX_EXTS) then
      if negb (_HAS_DOCX2PDF E)
      then raise (Exn ValueError
                    ".docx support requires 'docx2pdf' and Microsoft Word on Windows."
                    None)
      else
        let out := Path.join tmp_dir ("docx_" +:+ Path.stem in_path +:+ ".pdf") in
        docx2pdf_call in_path out ;;
        ret out
    else
      raise (Exn ValueError ("Unsupported file type for conversion: " +:+ ext) None).

(** ** pdfmerge.py *)

(** Lines 83-85: every input must be a file. *)
Fixpoint check_inputs (files : list string) : M unit :=
  match files with
  | [] => ret tt
  | f :: rest =>
      m <- get_fs ;;
      if negb (os_path_isfile m f)
      then raise (Exn ValueError ("Input file not found: " +:+ f) None)
      else check_inputs rest
  end.

(** Lines 75-95 of [merge_pdfs]: the request is validated; the inputs kept
    and the absolute output path are what the rest works on. *)
Definition validate_request (input_files : list string) (output_path : string)
    (overwrite : bool) : M (list string * string) :=
  if negb (has_PdfMerger E)
  then raise (Exn MergeError
                "No PDF merger backend available. Install 'pypdf' or 'PyPDF2'."
                None)
  else
    let files := kept_inputs input_files in
    if bool_decide (files = [])
    then raise (Exn ValueError "No input PDF files provided." None)
    else
      check_inputs files ;;
      let out_path := Path.abspath (cwd E) output_path in
      let out_dir :=
        if String.eqb (Path.dirname out_path) "" then cwd E
        else Path.dirname out_path in
      os_makedirs (S (String.length out_dir)) out_dir ;;
      m <- get_fs ;;
      if os_path_isdir m out_path
      then raise (Exn ValueError
                    "Output path points to a directory, not a file." None)
      else if os_path_exists m out_path && negb overwrite
      then raise (Exn FileExistsError
                    ("Output file already exists: " +:+ out_path) None)
      else ret (files, out_path).

(** Lines 111-120: the PDF to merge for each input, in order. *)
Fixpoint collect_pdf_paths (tmpdir : string) (files : list string) : M (list string) :=
  match files with
  | [] => ret []
  | f :: rest =>
      pdf <-
        (if String.eqb (Py.lower (Path.suffix f)) ".pdf" then ret f
         else if is_supported_nonpdf f
         then convert_to_pdf f (Some tmpdir)
         else raise (Exn ValueError ("Unsupported input type: " +:+ f) None)) ;;
      pdf_paths <- collect_pdf_paths tmpdir rest ;;
      ret (pdf :: pdf_paths)
  end.

(** Lines 128-130: every PDF is appended to the merger. *)
Fixpoint append_all (merger : PdfMerger) (pdf_paths : list string) : M PdfMerger :=
  match pdf_paths with
  | [] => ret merger
  | pdf :: rest =>
      merger' <- merger_append merger pdf ;;
      append_all merger' rest
  end.

(** Lines 132-135: the path written. *)
Definition final_path (out_path : string) : string :=
  let '(root, ext) := Path.splitext out_path in
  if String.eqb ext "" then root +:+ ".pdf" else out_path.

(** Lines 109-138, the body of the [try]; its value is [out_path] as the
    [return] after the statement finds it. *)
Definition merge_try (files : list string) (out_path tmpdir : string) : M string :=
  pdf_paths <- collect_pdf_paths tmpdir files ;;
  merger <- append_all new_merger pdf_paths ;;
  let out_path := final_path out_path in
  merger_write out_path merger ;;
  ret out_path.

(** Lines 139-143, the [except] clauses. *)
Definition merge_except (e : exn) : M string :=
  if is_FileExistsError e then raise e
  else raise (Exn MergeError ("Failed to merge PDFs: " +:+ exn_msg e) (Some e)).

(** Lines 105-156: the temporary directory is made, the [try] statement
    runs, and its [finally] removes the directory.  [merger.close()] has no
    effect on the world and what it raises is passed over. *)
Definition run_merge (files : list string) (out_path : string) : M string :=
  tmpdir <- TemporaryDirectory ;;
  try_finally (try_except (merge_try files out_path tmpdir) merge_except)
    (rmtree tmpdir).

Definition merge_pdfs (input_files : list string) (output_path : string)
    (overwrite : bool) : M string :=
  request <- validate_request input_files output_path overwrite ;;
  run_merge request.1 request.2.

End Model.

(** ** pathlib, as [pdfmerge_cli.py] uses it *)

Module Pathlib.

(** The parts of [PurePosixPath(p)] after its root: the components of [p],
    the empty ones and [.] left out. *)
Definition parts (p : string) : list string :=
  List.filter (fun c => negb (String.eqb c "" || String.eqb c "."))
    (Py.split_on Py.slash p).

(** The root of [PurePosixPath(p)]: two leading slashes are kept, one and
    three or more are one. *)
Definition root (p : string) : string :=
  if Py.startswith "/" p
  then if Py.startswith "//" p && negb (Py.startswith "///" p) then "//" else "/"
  else "".

(** [str(PurePosixPath(p))] *)
Definition str (p : string) : string :=
  let s := root p +:+ Py.join_with Path.sep (parts p) in
  if String.eqb s "" then "." else s.

End Pathlib.

(** ** pdfmerge.py: the wrapper of the legacy GUI *)

Module Pdfmerge.

(** [merge(self, readFileList, _translate)]: [outputFile_text] is
    [self.outputFile.text()], [outputfolder] the attribute of that name
    when [self] has it. *)
Definition merge (E : Env) (outputFile_text : string) (outputfolder : option string)
    (readFileList : list string) : M unit :=
  let output_name := Py.strip outputFile_text in
  let output_dir := Py.strip (default "" outputfolder) in
  if String.eqb output_name ""
  then raise (Exn ValueError "Output filename is empty." None)
  else if String.eqb output_dir ""
  then raise (Exn ValueError "Output directory is not selected." None)
  else
    let mergedfile := Path.join output_dir (output_name +:+ ".pdf") in
    merge_pdfs E readFileList mergedfile true ;;
    ret tt.

End Pdfmerge.

(** ** pdfmerge_cli.py *)

Module Cli.

(** What a run of the command leaves besides the files: the lines printed
    and the exit status. *)
Record result : Type := Result {
  stdout : list string;
  stderr : list string;
  status : Z
}.

(** [main(argv)] after [parse_args]: [input], [output] and [force] are the
    fields of [args]. *)
Definition main (E : Env) (input : list string) (output : string) (force : bool)
    (w : world) : world * result :=
  let out_path := Pathlib.str output in
  match merge_pdfs E input out_path force w with
  | (w', Raise e) =>
      if is_FileExistsError e
      then (w', {| stdout := []; stderr := ["Error: " +:+ exn_msg e]; status := 2 |})
      else (w', {| stdout := []; stderr := ["Error: " +:+ exn_msg e]; status := 1 |})
  | (w', Ok _) =>
      (w', {| stdout := ["Merged " +:+ pretty (length input) +:+ " files -> "
                         +:+ out_path];
              stderr := []; status := 0 |})
  end.

End Cli.

(** ** PDFMerger.py *)

Module Gui.

(** A [QListWidget]: the texts of its items, and its current row, [-1]
    when there is none. *)
Record QListWidget : Type := {
  items : list string;
  current : Z
}.

(** What Qt decides and the source does not say: the current row after an
    item is taken out of the list or put into it (from the items and the
    current row before, and the row of the change), and the translation of
    a text in a context. *)
Record Qt : Type := {
  current_after_take : list string -> Z -> Z -> Z;
  current_after_insert : list string -> Z -> Z -> Z;
  translate : string -> string -> string
}.

(** The state of a [UiPDFMerger]: its widgets, the attributes its handlers
    set, and the texts of the warnings [showdialog] has shown. *)
Record UiPDFMerger : Type := {
  listWidget : QListWidget;
  lineEdit : string;
  outputFile : string;
  label : string * string;
  outputfolder : option string;
  currentRow : Z;
  currentItem : option string;
  shown : list string
}.

Definition count (lw : QListWidget) : Z := Z.of_nat (length (items lw)).

(** [lw.takeItem(row)] *)
Definition takeItem (qt : Qt) (row : Z) (lw : QListWidget)
    : option string * QListWidget :=
  if (0 <=? row)%Z then
    match items lw !! Z.to_nat row with
    | Some x =>
        (Some x,
         {| items := delete (Z.to_nat row) (items lw);
            current := current_after_take qt (items lw) (current lw) row |})
    | None => (None, lw)
    end
  else (None, lw).

(** [lw.insertItem(row, item)]: a row out of range is brought into it; no
    item, nothing done. *)
Definition insertItem (qt : Qt) (row : Z) (item : option string) (lw : QListWidget)
    : QListWidget :=
  match item with
  | None => lw
  | Some x =>
      let r := Z.to_nat (Z.min (Z.max row 0) (count lw)) in
      {| items := take r (items lw) ++ x :: drop r (items lw);
         current := current_after_insert qt (items lw) (current lw) row |}
  end.

(** [lw.addItem(text)] *)
Definition addItem (qt : Qt) (text : string) (lw : QListWidget) : QListWidget :=
  insertItem qt (count lw) (Some text) lw.

(** [lw.setCurrentRow(row)] *)
Definition setCurrentRow (row : Z) (lw : QListWidget) : QListWidget :=
  {| items := items lw;
     current := if (0 <=? row)%Z && (row <? count lw)%Z then row else (-1)%Z |}.

Definition set_listWidget (lw : QListWidget) (self : UiPDFMerger) : UiPDFMerger :=
  {| listWidget := lw; lineEdit := lineEdit self; outputFile := outputFile self;
     label := label self; outputfolder := outputfolder self;
     currentRow := currentRow self; currentItem := currentItem self;
     shown := shown self |}.

Definition set_currentRow (row : Z) (self : UiPDFMerger) : UiPDFMerger :=
  {| listWidget := listWidget self; lineEdit := lineEdit self;
     outputFile := outputFile self; label := label self;
     outputfolder := outputfolder self;
     currentRow := row; currentItem := currentItem self; shown := shown self |}.

Definition set_currentItem (item : option string) (self : UiPDFMerger) : UiPDFMerger :=
  {| listWidget := listWidget self; lineEdit := lineEdit self;
     outputFile := outputFile self; label := label self;
     outputfolder := outputfolder self;
     currentRow := currentRow self; currentItem := item; shown := shown self |}.

Definition set_label (text style : string) (self : UiPDFMerger) : UiPDFMerger :=
  {| listWidget := listWidget self; lineEdit := lineEdit self;
     outputFile := outputFile self; label := (text, style);
     outputfolder := outputfolder self;
     currentRow := currentRow self; currentItem := currentItem self;
     shown := shown self |}.

Definition set_outputfolder (folder text : string) (self : UiPDFMerger) : UiPDFMerger :=
  {| listWidget := listWidget self; lineEdit := text;
     outputFile := outputFile self; label := label self;
     outputfolder := Some folder;
     currentRow := currentRow self; currentItem := currentItem self;
     shown := shown self |}.

(** [self.showdialog(displaytext)]: the warning is shown until it is
    closed. *)
Definition showdialog (displaytext : string) (self : UiPDFMerger) : UiPDFMerger :=
  {| listWidget := listWidget self; lineEdit := lineEdit self;
     outputFile := outputFile self; label := label self;
     outputfolder := outputfolder self;
     currentRow := currentRow self; currentItem := currentItem self;
     shown := shown self ++ [displaytext] |}.

(** [addButtonClicked]: [paths] is the list of files the dialog returns. *)
Definition addButtonClicked (qt : Qt) (paths : list string) (self : UiPDFMerger)
    : UiPDFMerger :=
  fold_left
    (fun self p =>
       if negb (String.eqb p "")
       then set_listWidget (addItem qt p (listWidget self)) self
       else self)
    paths self.

Definition moveUpButtonClicked (qt : Qt) (self : UiPDFMerger) : UiPDFMerger :=
  let self := set_currentRow (current (listWidget self)) self in
  if (currentRow self =? -1)%Z then showdialog "Select an item to move" self
  else if (currentRow self =? 0)%Z then self
  else
    let '(item, lw) := takeItem qt (currentRow self) (listWidget self) in
    let self := set_currentItem item (set_listWidget lw self) in
    let self :=
      set_listWidget
        (insertItem qt (currentRow self - 1) (currentItem self) (listWidget self))
        self in
    let self := set_currentRow (currentRow self - 1) self in
    set_listWidget (setCurrentRow (currentRow self) (listWidget self)) self.

Definition moveDownButtonClicked (qt : Qt) (self : UiPDFMerger) : UiPDFMerger :=
  let self := set_currentRow (current (listWidget self)) self in
  if (currentRow self =? -1)%Z then showdialog "Select an item to move" self
  else if (currentRow self >=? count (listWidget self) - 1)%Z then self
  else
    let '(item, lw) := takeItem qt (currentRow self) (listWidget self) in
    let self := set_currentItem item (set_listWidget lw self) in
    let self :=
      set_listWidget
        (insertItem qt (currentRow self + 1) (currentItem self) (listWidget self))
        self in
    let self := set_currentRow (currentRow self + 1) self in
    set_listWidget (setCurrentRow (currentRow self) (listWidget self)) self.

Definition deleteButtonClicked (qt : Qt) (self : UiPDFMerger) : UiPDFMerger :=
  let self := set_currentRow (current (listWidget self)) self in
  if negb (currentRow self =? -1)%Z
  then set_listWidget (takeItem qt (currentRow self) (listWidget self)).2 self
  else self.

(** [outDirButtonClicked]: [folder] is the directory the dialog returns. *)
Definition outDirButtonClicked (qt : Qt) (folder : string) (self : UiPDFMerger)
    : UiPDFMerger :=
  set_outputfolder folder (translate qt "PDFMerger" folder) self.

(** [mergeButtonClicked]: [reply_yes] tells whether the answer to the
    question about overwriting, when it is asked, is Yes. *)
Definition mergeButtonClicked (E : Env) (qt : Qt) (reply_yes : bool)
    (self : UiPDFMerger) (w : world) : world * UiPDFMerger :=
  if String.eqb (Py.strip (lineEdit self)) ""
  then (w, showdialog "Select Output Directory" self)
  else if String.eqb (Py.strip (outputFile self)) ""
  then (w, showdialog "Enter an output filename" self)
  else if (count (listWidget self) =? 0)%Z
  then (w, showdialog "Add PDFs to merge" self)
  else
    let readFileList := items (listWidget self) in
    let out_dir := Py.strip (lineEdit self) in
    let out_name := Py.strip (outputFile self) in
    let out_path := Path.join out_dir (out_name +:+ ".pdf") in
    if os_path_exists E (fs w) out_path && negb reply_yes then (w, self)
    else
      let self :=
        set_label (translate qt "PDF Merger" "Merging... Please wait...")
          "color:white" self in
      match merge_pdfs E readFileList out_path true w with
      | (w', Ok _) =>
          (w', set_label (translate qt "PDF Merger" "Merged Successfully!")
                 "color:green" self)
      | (w', Raise e) => (w', showdialog ("Merge failed: " +:+ exn_msg e) self)
      end.

End Gui.

(** ** Notions the statements use *)

(** A component of a normalised path. *)
Definition plain (c : string) : Prop :=
  c <> "" /\ c <> "." /\ c <> ".." /\ Py.has_char Py.slash c = false.

(** The path of [k] leading slashes and the components [cs]. *)
Definition render (k : nat) (cs : list string) : string :=
  Path.slashes k +:+ Py.join_with Path.sep cs.

(** The absolute paths [normpath] returns: one or two leading slashes, then
    plain components. *)
Definition normalised (p : string) : Prop :=
  exists k cs, (k = 1 \/ k = 2) /\ Forall plain cs /\ p = render k cs.

(** The way from the root to the path of the components [cs] is open:
    every place above it is a directory. *)
Definition way_open (m : fsmap) (k : nat) (cs : list string) : Prop :=
  m !! render k [] = Some Dir
  /\ forall l, l `prefix_of` cs -> l <> cs -> m !! render k l = Some Dir.

(** A file system is well formed when every entry has its parent
    directory. *)
Definition wf (m : fsmap) : Prop :=
  map_Forall (fun k _ => m !! Path.dirname k = Some Dir) m.

(** What a computation does to the file system, as a relation between the
    file system before and after. *)
Definition preserves {A} (R : relation fsmap) (c : M A) : Prop :=
  forall w w' r, c w = (w', r) -> R (fs w) (fs w').

(** Only entries at or below [d] change, and no directory is lost. *)
Definition confined (d : string) (m m' : fsmap) : Prop :=
  (forall k, is_under d k = false -> m' !! k = m !! k)
  /\ (forall k, m !! k = Some Dir -> m' !! k = Some Dir).

(** A computation that writes no file. *)
Definition reads_only {A} (c : M A) : Prop :=
  forall w w' r, c w = (w', r) -> fs w' = fs w /\ written w' = written w.

(** What [os.makedirs name] leaves when it returns: the directory is there,
    and what is new is [name] or a parent of it, made a directory. *)
Definition made_dirs (name : string) (m m' : fsmap) : Prop :=
  wf m' /\ m' !! name = Some Dir
  /\ (m !! name = Some Dir -> m' = m)
  /\ forall j, m' !! j <> m !! j ->
       m !! j = None /\ m' !! j = Some Dir /\ Path.dirname j <> j
       /\ String.length j <= String.length name /\ is_under j name = true.

(** The pages of the PDF file at path [f]. *)
Definition pages_of (E : Env) (m : fsmap) (f : string) : list page :=
  default [] (file_is_pdf (m !! key E f)).

(** An existing PDF input: the extension is [.pdf] in any case, and the
    file is a PDF document. *)
Definition pdf_input (E : Env) (m : fsmap) (f : string) : Prop :=
  Py.lower (Path.suffix f) = ".pdf" /\ is_Some (file_is_pdf (m !! key E f)).

(** The text converter as its description has it, to compare with
    [_escape_xml] and the loop of [_text_to_pdf]: each of the five reserved
    characters is written as its entity, a line of nothing but white space
    is vertical space, any other line is a paragraph. *)
Definition escape_char (c : N) : list N :=
  if (c =? 38)%N then Text.of_string "&amp;"
  else if (c =? 60)%N then Text.of_string "&lt;"
  else if (c =? 62)%N then Text.of_string "&gt;"
  else if (c =? 34)%N then Text.of_string "&quot;"
  else if (c =? 39)%N then Text.of_string "&#39;"
  else [c].

Definition escaped (line : list N) : list N := flat_map escape_char line.

Definition is_blank (line : list N) : bool := forallb Text.isspace line.

Definition block_of_line (line : list N) : flowable :=
  if is_blank line then Spacer 1 (0.2 * inch)
  else Paragraph (escaped line) "BodyText".

(** The image converter as its description has it, to compare with
    [_image_to_pdf].  What keeps a file from being opened for writing at
    the path [p]: a directory at its place, or a parent that is missing or
    is no directory. *)
Definition open_failure (E : Env) (m : fsmap) (p : string) : option exn :=
  match m !! key E p with
  | Some Dir => Some (EISDIR p)
  | _ =>
      match m !! Path.dirname (key E p) with
      | Some Dir => None
      | Some (File _) => Some (ENOTDIR p)
      | None => Some (ENOENT p)
      end
  end.

(** One attempt to encode the image [src] into [out].  When the output
    cannot be opened nothing happens.  Otherwise the output is emptied and
    img2pdf is called with the options [opts]; what it gives is written,
    and when it fails the output stays empty. *)
Definition spec_encode_attempt (E : Env) (out src : string) (opts : img_opts)
    (w : world) : world * outcome unit :=
  match open_failure E (fs w) out with
  | Some e => (w, Raise e)
  | None =>
      let emptied := <[key E out := File (Raw [])]> (fs w) in
      let called := calls w ++ [Img2pdfConvert src opts] in
      match img2pdf_convert E emptied src opts with
      | inr pages =>
          (World (<[key E out := File (Pdf pages)]> (fs w)) called
             (written w ++ [(key E out, Pdf pages)]),
           Ok tt)
      | inl e => (World emptied called (written w), Raise e)
      end
  end.

(** The chain of attempts.  The first one asks img2pdf to orient the image
    and, when img2pdf has the option, to validate its rotation.  A failure
    whose message does not speak of the rotation is the outcome.  Otherwise
    the image is decoded and transposed with Pillow and saved as PNG in the
    temporary directory, and that file is encoded with
    [auto_orient=False]; whatever step of this fails, the original image is
    encoded once more, with no option, and that is the outcome. *)
Definition spec_image_chain (E : Env) (img_path out_pdf tmp_dir : string)
    (w : world) : world * outcome unit :=
  match spec_encode_attempt E out_pdf img_path
          {| auto_orient := Some true;
             rotation := if has_Rotation_ifvalid E then Some IfValid else None |}
          w with
  | (w1, Ok _) => (w1, Ok tt)
  | (w1, Raise e) =>
      if negb (Py.contains "rotation" (Py.lower (exn_msg e))) then (w1, Raise e)
      else
        let fixed := Path.join tmp_dir ("fixed_" +:+ Path.stem img_path +:+ ".png") in
        let after cs := World (fs w1) (calls w1 ++ cs) (written w1) in
        let last_resort :=
          spec_encode_attempt E out_pdf img_path
            {| auto_orient := None; rotation := None |} in
        match Image_open E (fs w1) img_path with
        | inl _ => last_resort (after [ImageOpen img_path])
        | inr im =>
            match exif_transpose E im with
            | inl _ => last_resort (after [ImageOpen img_path; ExifTranspose])
            | inr upright =>
                let w2 := after [ImageOpen img_path; ExifTranspose; ImageSave fixed] in
                match png_encode E upright, open_failure E (fs w1) fixed with
                | inr png, None =>
                    let saved :=
                      World (<[key E fixed := File (Raw png)]> (fs w1)) (calls w2)
                        (written w1 ++ [(key E fixed, Raw png)]) in
                    match spec_encode_attempt E out_pdf fixed
                            {| auto_orient := Some false; rotation := None |}
                            saved with
                    | (w3, Ok _) => (w3, Ok tt)
                    | (w3, Raise _) => last_resort w3
                    end
                | _, _ => last_resort w2
                end
            end
        end
  end.

(** UTF-8 as the Unicode standard defines it, to compare with
    [Text.decode]: the characters are the code points up to U+10FFFF that
    are no surrogates, and a character is written as one to four bytes. *)
Definition is_scalar (c : N) : bool :=
  ((c <? 55296) || (57343 <? c) && (c <? 1114112))%N.

Definition utf8 (c : N) : list N :=
  (if c <? 128 then [c]
   else if c <? 2048 then [192 + c / 64; 128 + c mod 64]
   else if c <? 65536
   then [224 + c / 4096; 128 + (c / 64) mod 64; 128 + c mod 64]
   else [240 + c / 262144; 128 + (c / 4096) mod 64; 128 + (c / 64) mod 64;
         128 + c mod 64])%N.

(** The bytes [enc] are the UTF-8 form of the character [c]. *)
Definition encodes (enc : list byte) (c : N) : Prop :=
  is_scalar c = true /\ map Byte.to_N enc = utf8 c.

(** The text of a byte string read with its undecodable bytes skipped:
    where the UTF-8 form of a character stands, that character is read;
    a byte at which none stands is passed over, and nothing else is. *)
Inductive decodes_skipping : list byte -> list N -> Prop :=
| decodes_nil : decodes_skipping [] []
| decodes_char c enc rest t :
    encodes enc c -> decodes_skipping rest t ->
    decodes_skipping (enc ++ rest) (c :: t)
| decodes_skip b rest t :
    (forall c enc, encodes enc c -> ~ enc `prefix_of` b :: rest) ->
    decodes_skipping rest t ->
    decodes_skipping (b :: rest) t.

(** The first character of a byte string and the bytes after it, when a
    character stands at its start: one step of [Text.decode]. *)
Definition decode_step (bs : list byte) : option (N * list byte) :=
  match bs with
  | [] => None
  | b0 :: r0 =>
      let n0 := Byte.to_N b0 in
      if (n0 <? 128)%N then Some (n0, r0)
      else if ((194 <=? n0) && (n0 <=? 223))%N then
        match r0 with
        | b1 :: r1 =>
            if Text.is_cont b1
            then Some (((n0 - 192) * 64 + Text.cont_bits b1)%N, r1)
            else None
        | [] => None
        end
      else if ((224 <=? n0) && (n0 <=? 239))%N then
        match r0 with
        | b1 :: (b2 :: r2) =>
            if Text.second_ok n0 b1 && Text.is_cont b2
            then Some (((n0 - 224) * 4096 + Text.cont_bits b1 * 64
                        + Text.cont_bits b2)%N, r2)
            else None
        | _ => None
        end
      else if ((240 <=? n0) && (n0 <=? 244))%N then
        match r0 with
        | b1 :: (b2 :: (b3 :: r3)) =>
            if Text.second_ok n0 b1 && Text.is_cont b2 && Text.is_cont b3
            then Some (((n0 - 240) * 262144 + Text.cont_bits b1 * 4096
                        + Text.cont_bits b2 * 64 + Text.cont_bits b3)%N, r3)
            else None
        | _ => None
        end
      else None
  end.

(** The characters at which a line ends: line feed, vertical tab, form
    feed, carriage return, the file, group and record separators, next
    line, and the line and paragraph separators. *)
Definition line_boundaries : list N :=
  [10; 11; 12; 13; 28; 29; 30; 133; 8232; 8233]%N.

(** [sep] ends a line before [rest]: it is one boundary character, or
    carriage return and line feed together, which are never two ends. *)
Definition ends_line (sep rest : list N) : Prop :=
  sep = [13; 10]%N
  \/ exists c, sep = [c] /\ c ∈ line_boundaries
               /\ ~ (c = 13%N /\ head rest = Some 10%N).

(** The lines of a text: the text is its lines, each but possibly the last
    followed by the end of a line, and no line has a boundary character in
    it; a text that ends with the end of a line has no empty line after
    it. *)
Inductive lines_of : list N -> list (list N) -> Prop :=
| lines_none : lines_of [] []
| lines_last line :
    line <> [] -> Forall (fun c => c ∉ line_boundaries) line ->
    lines_of line [line]
| lines_more line sep rest lines :
    Forall (fun c => c ∉ line_boundaries) line ->
    ends_line sep rest -> lines_of rest lines ->
    lines_of (line ++ sep ++ rest) (line :: lines).

(** The prefix [convert_to_pdf] gives the name of its output, by the
    class of the extension. *)
Definition type_tag (ext : string) : option string :=
  if bool_decide (ext ∈ IMAGE_EXTS) then Some "img_"
  else if bool_decide (ext ∈ TEXT_EXTS) then Some "txt_"
  else if bool_decide (ext ∈ DOCX_EXTS) then Some "docx_"
  else None.

(** The name of the output, from the prefix, the stem and the directory. *)
Definition temp_output (tmp_dir tag stem : string) : string :=
  Path.join tmp_dir (tag +:+ stem +:+ ".pdf").

(** The file at [p] holds what was written last. *)
Definition wrote_last (E : Env) (p : string) (w : world) : Prop :=
  exists dt, fs w !! key E p = Some (File dt)
             /\ last (written w) = Some (key E p, dt).

(** ** A runtime environment and a file system for the examples *)

(** The first byte of the file at [src], a path taken in [cwd]. *)
Definition first_byte (cwd : string) (m : fsmap) (src : string) : N :=
  match m !! Path.abspath cwd src with
  | Some (File (Raw (b :: _))) => Byte.to_N b
  | _ => 0%N
  end.

(** img2pdf refuses the rotation of every image when asked to validate it,
    as it does for a bad EXIF orientation, and encodes one page otherwise;
    a page and an image are named by the first byte of the file they come
    from. *)
Definition example_env : Env := {|
  cwd := "/w";
  tempdir := "/tmp";
  temp_names := ["a"; "b"];
  has_PdfMerger := true;
  _HAS_DOCX2PDF := false;
  has_Rotation_ifvalid := true;
  pdf_bytes := fun _ => [];
  PdfReader := fun _ => inl (Exn PdfReadError "EOF marker not found" None);
  img2pdf_convert := fun m src opts =>
    match rotation opts with
    | Some IfValid =>
        inl (Exn (LibraryError "ExifOrientationError") "Invalid rotation (0)" None)
    | None => inr [Page (first_byte "/w" m src)]
    end;
  Image_open := fun m src => inr (Image (first_byte "/w" m src));
  exif_transpose := fun im => inr im;
  png_encode := fun im =>
    let 'Image n := im in inr [default x00 (Byte.of_N n)];
  docx2pdf_convert := fun _ _ => inr (Pdf [Page 300]);
  platypus_build := fun _ story => inr [Page 200]
|}.

(** The same, with a docx2pdf that finds its output in the way. *)
Definition example_env_docx : Env := {|
  cwd := "/w";
  tempdir := "/tmp";
  temp_names := ["a"; "b"];
  has_PdfMerger := true;
  _HAS_DOCX2PDF := true;
  has_Rotation_ifvalid := true;
  pdf_bytes := fun _ => [];
  PdfReader := fun _ => inl (Exn PdfReadError "EOF marker not found" None);
  img2pdf_convert := img2pdf_convert example_env;
  Image_open := Image_open example_env;
  exif_transpose := exif_transpose example_env;
  png_encode := png_encode example_env;
  docx2pdf_convert := fun _ _ =>
    inl (Exn FileExistsError "[Errno 17] File exists: 'r.pdf'" None);
  platypus_build := platypus_build example_env
|}.

Definition example_fs : fsmap :=
  list_to_map
    [("/", Dir); ("/w", Dir); ("/tmp", Dir); ("/tmp/tmpa", Dir);
     ("/w/a.pdf", File (Pdf [Page 1; Page 2]));
     ("/w/b.pdf", File (Pdf [Page 3; Page 4; Page 5]));
     ("/w/c.txt", File (Raw [x68; xff; x69; x0a; x0a; x3c]));
     ("/w/p.png", File (Raw [x89]));
     ("/w/old", Dir);
     ("/w/old/p.jpg", File (Raw [xff]));
     ("/w/d.xyz", File (Raw []));
     ("/w/r.docx", File (Raw [x50; x4b]));
     ("/w/report.pdf", File (Pdf [Page 9]));
     ("/w/torn.pdf", File (Raw [x25; x50; x44; x46]))].

Definition example_world : world := World example_fs [] [].

(** The same as [example_env], with an img2pdf that cannot read any
    image. *)
Definition example_env_unreadable : Env := {|
  cwd := "/w";
  tempdir := "/tmp";
  temp_names := ["a"; "b"];
  has_PdfMerger := true;
  _HAS_DOCX2PDF := false;
  has_Rotation_ifvalid := true;
  pdf_bytes := fun _ => [];
  PdfReader := fun _ => inl (Exn PdfReadError "EOF marker not found" None);
  img2pdf_convert := fun _ _ _ =>
    inl (Exn (LibraryError "ImageOpenError") "cannot read input image" None);
  Image_open := Image_open example_env;
  exif_transpose := exif_transpose example_env;
  png_encode := png_encode example_env;
  docx2pdf_convert := docx2pdf_convert example_env;
  platypus_build := platypus_build example_env
|}.

(** The same as [example_env], with a pypdf that takes one page from a
    file that is no well-formed PDF and fails when it writes it, after the
    five bytes of the header. *)
Definition example_env_lazy : Env := {|
  cwd := "/w";
  tempdir := "/tmp";
  temp_names := ["a"; "b"];
  has_PdfMerger := true;
  _HAS_DOCX2PDF := false;
  has_Rotation_ifvalid := true;
  pdf_bytes := fun _ => [];
  PdfReader := fun _ =>
    inr ([Page 7],
         Some (Exn PdfReadError "Could not read object" None,
               [x25; x50; x44; x46; x2d]));
  img2pdf_convert := img2pdf_convert example_env;
  Image_open := Image_open example_env;
  exif_transpose := exif_transpose example_env;
  png_encode := png_encode example_env;
  docx2pdf_convert := docx2pdf_convert example_env;
  platypus_build := platypus_build example_env
|}.

(** A file system with a file at [/w/report] beside the one at
    [/w/report.pdf]. *)
Definition example_fs_report : fsmap :=
  <["/w/report" := File (Pdf [Page 8])]> example_fs.

(** A Qt that keeps the current item current when another is taken out or
    put in, and goes to the next item, or the last, when the current one
    is taken out; texts are not translated. *)
Definition example_qt : Gui.Qt := {|
  Gui.current_after_take := fun items cur row =>
    if (row <? cur)%Z then (cur - 1)%Z
    else if (row =? cur)%Z
         then Z.min cur (Z.of_nat (length items) - 2)%Z
         else cur;
  Gui.current_after_insert := fun items cur row =>
    if (0 <=? cur)%Z && (row <=? cur)%Z then (cur + 1)%Z else cur;
  Gui.translate := fun _ text => text
|}.

(** A window with three files in the list, the second one current, and the
    output [new] in [/w]. *)
Definition example_ui : Gui.UiPDFMerger := {|
  Gui.listWidget := {| Gui.items := ["a.pdf"; "b.pdf"; "c.txt"]; Gui.current := 1 |};
  Gui.lineEdit := "/w";
  Gui.outputFile := " new ";
  Gui.label := ("", "");
  Gui.outputfolder := Some "/w";
  Gui.currentRow := (-1)%Z;
  Gui.currentItem := None;
  Gui.shown := []
|}.

(** * Facts *)

(** * Strings *)

Section StringFacts.

Implicit Types (s t u : string) (a c : ascii) (l cs : list string).

Lemma sapp_nil_l s : "" +:+ s = s.
Proof. reflexivity. Qed.

Lemma sapp_cons a s t : String a s +:+ t = String a (s +:+ t).
Proof. reflexivity. Qed.

Lemma sapp_nil_r s : s +:+ "" = s.
Proof. induction s as [|a s IH]; [done|]. by rewrite sapp_cons, IH. Qed.

Lemma sapp_assoc s t u : (s +:+ t) +:+ u = s +:+ t +:+ u.
Proof. induction s as [|a s IH]; [done|]. by rewrite !sapp_cons, IH. Qed.

Lemma slength_app s t : String.length (s +:+ t) = String.length s + String.length t.
Proof. induction s as [|a s IH]; [done|]. rewrite sapp_cons. simpl. by rewrite IH. Qed.

Lemma sapp_eq_nil s t : s +:+ t = "" -> s = "" /\ t = "".
Proof. destruct s; [done|]. by rewrite sapp_cons. Qed.

Lemma ascii_eqb_true a c : Ascii.eqb a c = true <-> a = c.
Proof. apply Ascii.eqb_eq. Qed.

Lemma has_char_app c s t :
  Py.has_char c (s +:+ t) = Py.has_char c s || Py.has_char c t.
Proof.
  induction s as [|a s IH]; [done|].
  rewrite sapp_cons. simpl. rewrite IH. by rewrite orb_assoc.
Qed.

(** ** [split_on] and [join_with] *)

Lemma split_on_not_nil c s : Py.split_on c s <> [].
Proof.
  destruct s as [|a s]; [done|]. simpl.
  destruct (Ascii.eqb a c); [done|]. by destruct (Py.split_on c s).
Qed.

Lemma split_on_cons_ne c a s :
  Ascii.eqb a c = false ->
  Py.split_on c (String a s)
  = String a (hd "" (Py.split_on c s)) :: tl (Py.split_on c s).
Proof.
  intros H. simpl. rewrite H.
  pose proof (split_on_not_nil c s). by destruct (Py.split_on c s).
Qed.

Lemma split_on_no_sep c s : Py.has_char c s = false -> Py.split_on c s = [s].
Proof.
  induction s as [|a s IH]; [done|]. simpl.
  intros [Ha Hs]%orb_false_iff. rewrite Ha, (IH Hs). done.
Qed.

Lemma split_on_app_sep c s t :
  Py.split_on c (s +:+ String c t) = Py.split_on c s ++ Py.split_on c t.
Proof.
  induction s as [|a s IH].
  - rewrite sapp_nil_l. simpl. by rewrite Ascii.eqb_refl.
  - rewrite sapp_cons. destruct (Ascii.eqb a c) eqn:Hac.
    + simpl. rewrite Hac, IH. done.
    + rewrite !split_on_cons_ne, IH by done.
      pose proof (split_on_not_nil c s). by destruct (Py.split_on c s).
Qed.

Lemma split_on_app_no_sep c s t :
  Py.has_char c t = false ->
  Py.split_on c (s +:+ t)
  = removelast (Py.split_on c s) ++ [List.last (Py.split_on c s) "" +:+ t].
Proof.
  intros Ht. induction s as [|a s IH].
  - rewrite sapp_nil_l. by rewrite split_on_no_sep.
  - rewrite sapp_cons. destruct (Ascii.eqb a c) eqn:Hac.
    + simpl. rewrite Hac, IH.
      pose proof (split_on_not_nil c s). by destruct (Py.split_on c s).
    + rewrite !split_on_cons_ne, IH by done.
      pose proof (split_on_not_nil c s).
      destruct (Py.split_on c s) as [|h [|h' r]]; done.
Qed.

Lemma split_on_elem_no_sep c s x :
  x ∈ Py.split_on c s -> Py.has_char c x = false.
Proof.
  revert x. induction s as [|a s IH]; intros x.
  - simpl. by intros ->%list_elem_of_singleton.
  - destruct (Ascii.eqb a c) eqn:Hac.
    + simpl. rewrite Hac. intros [->|?]%elem_of_cons; [done|auto].
    + rewrite split_on_cons_ne by done.
      pose proof (split_on_not_nil c s).
      destruct (Py.split_on c s) as [|h r]; [done|]. simpl.
      intros [->|?]%elem_of_cons.
      * simpl. rewrite Hac. apply IH. by left.
      * apply IH. by right.
Qed.

Lemma split_on_elem_has_char c d s x :
  x ∈ Py.split_on c s -> Py.has_char d x = true -> Py.has_char d s = true.
Proof.
  revert x. induction s as [|a s IH]; intros x.
  - simpl. by intros ->%list_elem_of_singleton.
  - destruct (Ascii.eqb a c) eqn:Hac.
    + simpl. rewrite Hac. intros [->|Hx]%elem_of_cons; [done|].
      intros Hd. rewrite (IH _ Hx Hd). by rewrite orb_true_r.
    + rewrite split_on_cons_ne by done.
      pose proof (split_on_not_nil c s).
      destruct (Py.split_on c s) as [|h r]; [done|]. simpl.
      intros [->|Hx]%elem_of_cons.
      * simpl. intros [->|Hd]%orb_true_iff; [done|].
        rewrite (IH h); [by rewrite orb_true_r|by left|done].
      * intros Hd. rewrite (IH x); [by rewrite orb_true_r|by right|done].
Qed.

Lemma join_with_cons2 sep x y l :
  Py.join_with sep (x :: y :: l) = x +:+ sep +:+ Py.join_with sep (y :: l).
Proof. reflexivity. Qed.

Lemma join_with_snoc sep cs (z : string) :
  cs <> [] -> Py.join_with sep (cs ++ [z]) = Py.join_with sep cs +:+ sep +:+ z.
Proof.
  induction cs as [|x [|y cs] IH]; [done|done|]. intros _.
  change ((x :: y :: cs) ++ [z]) with (x :: y :: (cs ++ [z])).
  rewrite !join_with_cons2. change (y :: cs ++ [z]) with ((y :: cs) ++ [z]).
  rewrite IH by done. by rewrite !sapp_assoc.
Qed.

Lemma split_join c cs :
  cs <> [] -> Forall (fun x => Py.has_char c x = false) cs ->
  Py.split_on c (Py.join_with (String c "") cs) = cs.
Proof.
  induction cs as [|x [|y cs] IH]; [done| |].
  - intros _ [Hx _]%Forall_cons. simpl. by apply split_on_no_sep.
  - intros _ [Hx Hr]%Forall_cons. rewrite join_with_cons2.
    rewrite sapp_cons, sapp_nil_l, split_on_app_sep, IH by done.
    by rewrite split_on_no_sep.
Qed.

End StringFacts.

Section NormalForms.

Implicit Types (s t u p : string) (a c : ascii) (l cs : list string) (k : nat).

Lemma prefix_nil s : String.prefix "" s = true.
Proof. by destruct s. Qed.

Lemma prefix_cons a b s t :
  String.prefix (String a s) (String b t) = Ascii.eqb a b && String.prefix s t.
Proof.
  simpl. destruct (ascii_dec a b) as [->|Hne].
  - by rewrite Ascii.eqb_refl.
  - apply Ascii.eqb_neq in Hne. by rewrite Hne.
Qed.

Lemma isabs_inv p : Path.isabs p = true -> exists r, p = String Py.slash r.
Proof.
  unfold Path.isabs, Py.startswith, Path.sep. destruct p as [|a r]; [done|].
  rewrite prefix_cons. intros [Ha _]%andb_true_iff.
  apply Ascii.eqb_eq in Ha. subst. by eexists.
Qed.

Lemma plain_no_slash x : plain x -> Py.has_char Py.slash x = false.
Proof. by intros (_ & _ & _ & ?). Qed.

Lemma plain_not_abs x : plain x -> String.prefix "/" x = false.
Proof.
  intros (Hne & _ & _ & Hs). destruct x as [|a x]; [done|].
  rewrite prefix_cons. simpl in Hs. apply orb_false_iff in Hs as [Ha _].
  rewrite Ascii.eqb_sym. unfold Py.slash in Ha. by rewrite Ha.
Qed.

Lemma prefix_slash_app x t :
  x <> "" -> String.prefix "/" (x +:+ t) = String.prefix "/" x.
Proof. destruct x as [|a x]; [done|]. intros _. by rewrite sapp_cons, !prefix_cons, !prefix_nil. Qed.

Lemma join_plain_not_abs cs :
  Forall plain cs -> String.prefix "/" (Py.join_with Path.sep cs) = false.
Proof.
  destruct cs as [|x [|y cs]]; [done| |].
  - intros [Hx _]%Forall_cons. by apply plain_not_abs.
  - intros [Hx _]%Forall_cons. rewrite join_with_cons2.
    rewrite prefix_slash_app; [by apply plain_not_abs|by destruct Hx].
Qed.

Lemma split_slashes k s :
  Py.split_on Py.slash (Path.slashes k +:+ s)
  = replicate k "" ++ Py.split_on Py.slash s.
Proof.
  induction k as [|k IH]; [done|].
  simpl Path.slashes. rewrite sapp_cons. simpl. by rewrite IH.
Qed.

Lemma split_render k cs :
  Forall plain cs ->
  Py.split_on Py.slash (render k cs)
  = replicate k "" ++ (if decide (cs = []) then [""] else cs).
Proof.
  intros Hcs. unfold render. rewrite split_slashes. f_equal.
  case_decide as Hnil; [by subst|].
  apply (split_join Py.slash); [done|].
  eapply Forall_impl; [exact Hcs|]. intros x. apply plain_no_slash.
Qed.

Lemma norm_step_empty i acc : Path.norm_step i acc "" = acc.
Proof. reflexivity. Qed.

Lemma norm_step_plain i acc x : plain x -> Path.norm_step i acc x = x :: acc.
Proof.
  intros (H1 & H2 & H3 & _). unfold Path.norm_step.
  apply String.eqb_neq in H1, H2, H3. by rewrite H1, H2, H3.
Qed.

Lemma fold_norm_empties i acc k l :
  fold_left (Path.norm_step i) (replicate k "" ++ l) acc
  = fold_left (Path.norm_step i) l acc.
Proof. induction k as [|k IH]; [done|]. simpl. by rewrite norm_step_empty. Qed.

Lemma fold_norm_plain i cs acc :
  Forall plain cs -> fold_left (Path.norm_step i) cs acc = rev cs ++ acc.
Proof.
  revert acc. induction cs as [|x cs IH]; intros acc; [done|].
  intros [Hx Hcs]%Forall_cons. simpl. rewrite norm_step_plain, IH by done.
  by rewrite <- app_assoc.
Qed.

Lemma norm_step_keeps_plain i acc x :
  i <> 0 -> Forall plain acc -> Py.has_char Py.slash x = false ->
  Forall plain (Path.norm_step i acc x).
Proof.
  intros Hi Hacc Hx. unfold Path.norm_step.
  destruct (String.eqb_spec x ""); [done|].
  destruct (String.eqb_spec x "."); [done|]. simpl.
  destruct (String.eqb_spec x "..") as [->|Hdd]; simpl.
  - destruct i; [done|]. simpl.
    destruct acc as [|top acc]; [done|].
    apply Forall_cons in Hacc as [Htop Hacc].
    destruct (String.eqb_spec top "..") as [->|_]; [|done].
    by destruct Htop as (_ & _ & ? & _).
  - apply Forall_cons. by repeat split.
Qed.

Lemma fold_norm_keeps_plain i l acc :
  i <> 0 -> Forall plain acc ->
  Forall (fun x => Py.has_char Py.slash x = false) l ->
  Forall plain (fold_left (Path.norm_step i) l acc).
Proof.
  intros Hi. revert acc. induction l as [|x l IH]; intros acc Hacc; [done|].
  intros [Hx Hl]%Forall_cons. simpl. apply IH; [|done].
  by apply norm_step_keeps_plain.
Qed.

Lemma render_1 cs : render 1 cs = String Py.slash (Py.join_with Path.sep cs).
Proof. reflexivity. Qed.

Lemma render_2 cs :
  render 2 cs = String Py.slash (String Py.slash (Py.join_with Path.sep cs)).
Proof. reflexivity. Qed.

(** A normal form is a fixed point of [normpath]. *)
Lemma normpath_render k cs :
  k = 1 \/ k = 2 -> Forall plain cs -> Path.normpath (render k cs) = render k cs.
Proof.
  intros Hk Hcs. unfold Path.normpath.
  assert (String.eqb (render k cs) "" = false) as ->.
  { destruct Hk as [-> | ->]; reflexivity. }
  pose proof (join_plain_not_abs cs Hcs) as Hj.
  assert ((if Py.startswith Path.sep (render k cs)
           then if Py.startswith "//" (render k cs)
                   && negb (Py.startswith "///" (render k cs))
                then 2 else 1
           else 0) = k) as ->.
  { unfold Py.startswith, Path.sep.
    destruct Hk as [-> | ->].
    - rewrite render_1. rewrite !prefix_cons, prefix_nil.
      rewrite Hj. reflexivity.
    - rewrite render_2. rewrite !prefix_cons, !prefix_nil.
      rewrite Hj. reflexivity. }
  rewrite split_render by done. rewrite fold_norm_empties.
  assert (fold_left (Path.norm_step k) (if decide (cs = []) then [""] else cs) []
          = rev cs) as ->.
  { case_decide as Hnil; [by subst|].
    rewrite fold_norm_plain by done. by rewrite app_nil_r. }
  rewrite rev_involutive. fold (render k cs).
  destruct Hk as [-> | ->]; reflexivity.
Qed.

Lemma nf_normpath p : normalised p -> Path.normpath p = p.
Proof. intros (k & cs & Hk & Hcs & ->). by apply normpath_render. Qed.

Lemma nf_isabs p : normalised p -> Path.isabs p = true.
Proof.
  intros (k & cs & [-> | ->] & _ & ->); unfold Path.isabs, Py.startswith, Path.sep;
    [rewrite render_1 | rewrite render_2]; by rewrite prefix_cons, prefix_nil.
Qed.

(** [normpath] of an absolute path is a normal form. *)
Lemma normpath_nf p : Path.isabs p = true -> normalised (Path.normpath p).
Proof.
  intros Habs. destruct (isabs_inv _ Habs) as [r ->].
  unfold Path.normpath.
  change (String.eqb (String Py.slash r) "") with false. cbv beta iota zeta.
  set (i := if Py.startswith Path.sep (String Py.slash r) then _ else 0).
  assert (i = 1 \/ i = 2) as Hi.
  { unfold i. unfold Path.isabs in Habs. rewrite Habs. destruct (_ && _); auto. }
  clearbody i.
  set (st := fold_left _ _ _).
  assert (Forall plain st) as Hst.
  { apply fold_norm_keeps_plain; [lia|done|].
    apply Forall_forall. intros x Hx. eapply split_on_elem_no_sep. exact Hx. }
  assert (String.eqb (Path.slashes i +:+ Py.join_with Path.sep (rev st)) "" = false)
    as ->.
  { destruct Hi as [-> | ->]; reflexivity. }
  exists i, (rev st). split; [done|]. split; [|done].
  apply Forall_forall. intros x Hx. apply list_elem_of_In, in_rev in Hx.
  apply list_elem_of_In in Hx. revert x Hx. by apply Forall_forall.
Qed.

Lemma join_abs p t : Path.isabs p = true -> Path.isabs (Path.join p t) = true.
Proof.
  intros Ha. unfold Path.join.
  destruct (Py.startswith Path.sep t) eqn:Hb; [done|].
  destruct (isabs_inv _ Ha) as [r ->].
  destruct (_ || _); rewrite sapp_cons; unfold Path.isabs, Py.startswith, Path.sep;
    by rewrite prefix_cons, prefix_nil.
Qed.

Lemma abspath_nf cwd p : Path.isabs cwd = true -> normalised (Path.abspath cwd p).
Proof.
  intros Hc. unfold Path.abspath. destruct (Path.isabs p) eqn:Hp.
  - by apply normpath_nf.
  - apply normpath_nf. by apply join_abs.
Qed.

Lemma abspath_of_nf cwd p : normalised p -> Path.abspath cwd p = p.
Proof.
  intros Hp. unfold Path.abspath. rewrite (nf_isabs _ Hp). by apply nf_normpath.
Qed.

End NormalForms.

Section PathFacts.

Implicit Types (s t u p x : string) (a c : ascii) (l cs : list string) (k : nat).

Lemma all_char_slashes k : Py.all_char Py.slash (Path.slashes k) = true.
Proof. induction k as [|k IH]; [done|]. simpl. by rewrite IH. Qed.

Lemma all_char_app c s t :
  Py.all_char c (s +:+ t) = Py.all_char c s && Py.all_char c t.
Proof.
  induction s as [|a s IH]; [done|]. rewrite sapp_cons. simpl.
  by rewrite IH, andb_assoc.
Qed.

Lemma all_char_has_other c x :
  x <> "" -> Py.has_char c x = false -> Py.all_char c x = false.
Proof.
  destruct x as [|a x]; [done|]. intros _. simpl.
  intros [-> _]%orb_false_iff. done.
Qed.

Lemma rstrip_char_keep c x :
  x <> "" -> Py.has_char c x = false -> forall s, Py.rstrip_char c (s +:+ x) = s +:+ x.
Proof.
  intros Hne Hx.
  assert (Py.rstrip_char c x = x) as Hbase.
  { clear Hne. induction x as [|a x IH]; [done|]. simpl in *.
    apply orb_false_iff in Hx as [Ha Hx]. rewrite (IH Hx), Ha.
    by destruct x. }
  intros s. induction s as [|a s IH]; [done|].
  rewrite sapp_cons. simpl. rewrite IH.
  destruct (s +:+ x) eqn:Heq; [|done].
  apply sapp_eq_nil in Heq as [_ ?]. done.
Qed.

Lemma rstrip_char_sep c s :
  Py.rstrip_char c (s +:+ String c "") = Py.rstrip_char c s.
Proof.
  induction s as [|a s IH].
  - simpl. by rewrite Ascii.eqb_refl.
  - rewrite sapp_cons. simpl. by rewrite IH.
Qed.

Lemma join_slashes k l :
  l <> [] ->
  Py.join_with Path.sep (replicate k "" ++ l) = Path.slashes k +:+ Py.join_with Path.sep l.
Proof.
  intros Hl. induction k as [|k IH]; [done|].
  simpl replicate. simpl app.
  destruct (replicate k "" ++ l) as [|y r] eqn:Heq.
  { apply app_eq_nil in Heq as [_ ?]. done. }
  rewrite join_with_cons2, IH. reflexivity.
Qed.

Lemma render_snoc k cs x :
  render k (cs ++ [x])
  = render k cs +:+ (if decide (cs = []) then "" else Path.sep) +:+ x.
Proof.
  unfold render. case_decide as Hnil.
  - subst. simpl app. simpl Py.join_with. by rewrite sapp_nil_r.
  - rewrite join_with_snoc by done. by rewrite !sapp_assoc.
Qed.

Lemma removelast_snoc {A} (l : list A) y : removelast (l ++ [y]) = l.
Proof. by rewrite removelast_app, app_nil_r. Qed.

Lemma join_empties k :
  Py.join_with Path.sep (replicate (S k) "") = Path.slashes k.
Proof.
  induction k as [|k IH]; [done|].
  change (replicate (S (S k)) "") with ("" :: "" :: replicate k "").
  rewrite join_with_cons2. change ("" :: replicate k "") with (replicate (S k) "").
  rewrite IH. reflexivity.
Qed.

Lemma slashes_snoc k : Path.slashes k +:+ Path.sep = Path.slashes (S k).
Proof.
  induction k as [|k IH]; [done|].
  simpl Path.slashes in *. rewrite sapp_cons. by rewrite IH.
Qed.

Lemma replicate_snoc {A} k (y : A) : replicate k y ++ [y] = replicate (S k) y.
Proof. induction k as [|k IH]; [done|]. simpl. by rewrite IH. Qed.

Lemma head_slash_render_snoc k cs x :
  k <> 0 -> Forall plain cs -> plain x ->
  Path.head_slash (render k (cs ++ [x]))
  = render k cs +:+ (if decide (cs = []) then "" else Path.sep).
Proof.
  intros Hk Hcs Hx. unfold Path.head_slash.
  rewrite split_render by (apply Forall_app; split; [done|by apply Forall_singleton]).
  case_decide as Hnil; [by apply app_eq_nil in Hnil as [_ ?]|].
  rewrite app_assoc, removelast_snoc.
  destruct (replicate k "" ++ cs) as [|y r] eqn:Heq.
  { apply app_eq_nil in Heq as [Hr _]. destruct k; done. }
  rewrite <- Heq. clear Heq y r Hnil.
  case_decide as Hnil.
  - subst. rewrite app_nil_r, sapp_nil_r. unfold render. simpl Py.join_with.
    rewrite sapp_nil_r.
    destruct k as [|k]; [done|]. by rewrite join_empties, slashes_snoc.
  - rewrite join_slashes by done. unfold render. by rewrite sapp_assoc.
Qed.

Lemma head_slash_render_nil k :
  k <> 0 -> Path.head_slash (render k []) = render k [].
Proof.
  intros Hk. unfold Path.head_slash. rewrite split_render by done.
  rewrite decide_True by done. rewrite replicate_snoc.
  destruct k as [|k]; [done|].
  rewrite <- (replicate_snoc (S k)), removelast_snoc.
  destruct (replicate (S k) "") as [|y r] eqn:Heq; [done|]. rewrite <- Heq.
  rewrite join_empties, slashes_snoc. unfold render. simpl Py.join_with.
  by rewrite sapp_nil_r.
Qed.

Lemma render_not_all_slash k cs :
  cs <> [] -> Forall plain cs -> Py.all_char Py.slash (render k cs) = false.
Proof.
  intros Hne Hcs. unfold render. rewrite all_char_app, all_char_slashes. simpl.
  destruct cs as [|x [|y cs]]; [done| |].
  - apply Forall_cons in Hcs as [(? & _ & _ & ?) _]. by apply all_char_has_other.
  - apply Forall_cons in Hcs as [(? & _ & _ & ?) _]. rewrite join_with_cons2.
    rewrite all_char_app. by rewrite all_char_has_other.
Qed.

Lemma render_rstrip k cs :
  cs <> [] -> Forall plain cs ->
  Py.rstrip_char Py.slash (render k cs) = render k cs.
Proof.
  intros Hne Hcs.
  destruct (exists_last Hne) as (cs' & x & ->).
  apply Forall_app in Hcs as [_ [(? & _ & _ & ?) _]%Forall_cons].
  rewrite render_snoc, <- sapp_assoc. by apply rstrip_char_keep.
Qed.

Lemma render_ne_nil k cs : k <> 0 -> render k cs <> "".
Proof. destruct k; done. Qed.

Lemma dirname_render_snoc k cs x :
  k <> 0 -> Forall plain cs -> plain x ->
  Path.dirname (render k (cs ++ [x])) = render k cs.
Proof.
  intros Hk Hcs Hx. unfold Path.dirname.
  rewrite head_slash_render_snoc by done.
  case_decide as Hnil.
  - subst. rewrite sapp_nil_r. unfold render at 2. simpl Py.join_with.
    rewrite sapp_nil_r, all_char_slashes, andb_false_r. done.
  - rewrite all_char_app, render_not_all_slash by done. simpl.
    assert (String.eqb (render k cs +:+ Path.sep) "" = false) as ->.
    { apply String.eqb_neq. intros [? _]%sapp_eq_nil. by eapply render_ne_nil. }
    simpl. unfold Path.sep. rewrite rstrip_char_sep. by apply render_rstrip.
Qed.

Lemma dirname_render_nil k : k <> 0 -> Path.dirname (render k []) = render k [].
Proof.
  intros Hk. unfold Path.dirname. rewrite head_slash_render_nil by done.
  unfold render. simpl Py.join_with. rewrite sapp_nil_r, all_char_slashes.
  by rewrite andb_false_r.
Qed.

Lemma basename_render_snoc k cs x :
  Forall plain cs -> plain x -> Path.basename (render k (cs ++ [x])) = x.
Proof.
  intros Hcs Hx. unfold Path.basename.
  rewrite split_render by (apply Forall_app; split; [done|by apply Forall_singleton]).
  case_decide as Hnil; [by apply app_eq_nil in Hnil as [_ ?]|].
  by rewrite app_assoc, last_last.
Qed.

Lemma endswith_char_app_ne c s x :
  x <> "" -> Py.endswith_char c (s +:+ x) = Py.endswith_char c x.
Proof.
  intros Hx. induction s as [|a s IH]; [done|].
  rewrite sapp_cons. simpl. rewrite IH.
  destruct (s +:+ x) eqn:Heq; [|done]. by apply sapp_eq_nil in Heq as [_ ?].
Qed.

Lemma endswith_no_char c x : Py.has_char c x = false -> Py.endswith_char c x = false.
Proof.
  induction x as [|a x IH]; [done|]. simpl.
  intros [Ha Hx]%orb_false_iff. destruct x; [done|]. by apply IH.
Qed.

Lemma endswith_slashes k : k <> 0 -> Py.endswith_char Py.slash (Path.slashes k) = true.
Proof.
  destruct k as [|k]; [done|]. intros _. induction k as [|k IH]; [done|].
  simpl in *. exact IH.
Qed.

Lemma join_render k cs x :
  k <> 0 -> Forall plain cs -> plain x ->
  Path.join (render k cs) x = render k (cs ++ [x]).
Proof.
  intros Hk Hcs Hx. unfold Path.join, Py.startswith, Path.sep.
  rewrite (plain_not_abs _ Hx). rewrite render_snoc.
  assert (String.eqb (render k cs) "" = false) as ->.
  { apply String.eqb_neq. by apply render_ne_nil. }
  simpl. case_decide as Hnil.
  - subst. unfold render. simpl Py.join_with. rewrite sapp_nil_r.
    by rewrite endswith_slashes.
  - destruct (exists_last Hnil) as (cs' & y & ->).
    apply Forall_app in Hcs as [_ [(? & _ & _ & ?) _]%Forall_cons].
    rewrite (render_snoc k cs' y), <- sapp_assoc.
    rewrite endswith_char_app_ne by done. rewrite endswith_no_char by done.
    by rewrite !sapp_assoc.
Qed.

Lemma render_snoc_longer k cs x :
  x <> "" -> String.length (render k cs) < String.length (render k (cs ++ [x])).
Proof.
  intros Hx. rewrite render_snoc, !slength_app.
  destruct x; [done|]. simpl. lia.
Qed.

(** The parent of a normal form is a normal form, and it is shorter unless
    the path is the root. *)
Lemma nf_dirname p :
  normalised p ->
  normalised (Path.dirname p)
  /\ (Path.dirname p = p \/ String.length (Path.dirname p) < String.length p).
Proof.
  intros (k & cs & Hk & Hcs & ->).
  assert (k <> 0) as Hk0 by (destruct Hk; lia).
  destruct (decide (cs = [])) as [->|Hne].
  - rewrite dirname_render_nil by done. split; [|by left]. by exists k, [].
  - destruct (exists_last Hne) as (cs' & x & ->).
    apply Forall_app in Hcs as [Hcs' [Hx _]%Forall_cons].
    rewrite dirname_render_snoc by done. split; [by exists k, cs'|].
    right. apply render_snoc_longer. by destruct Hx.
Qed.

(** A plain name joined to a normal form: a normal form, whose parent is
    the directory. *)
Lemma nf_join d x :
  normalised d -> plain x ->
  normalised (Path.join d x) /\ Path.dirname (Path.join d x) = d
  /\ Path.join d x <> d.
Proof.
  intros (k & cs & Hk & Hcs & ->) Hx.
  assert (k <> 0) as Hk0 by (destruct Hk; lia).
  rewrite join_render by done. split; [|split].
  - exists k, (cs ++ [x]). split; [done|]. split; [|done].
    apply Forall_app. split; [done|by apply Forall_singleton].
  - by apply dirname_render_snoc.
  - intros Heq. pose proof (render_snoc_longer k cs x) as Hlt.
    rewrite Heq in Hlt. destruct Hx as [? _]. specialize (Hlt ltac:(done)). lia.
Qed.

End PathFacts.

Section MorePathFacts.

Implicit Types (s t u p x : string) (a c : ascii) (l cs : list string) (k : nat).

Lemma rsplit_dot_app s pre suf :
  Py.rsplit_dot s = Some (pre, suf) ->
  s = pre +:+ suf /\ exists r, suf = String Py.dot r.
Proof.
  revert pre suf. induction s as [|a s IH]; intros pre suf; [done|]. simpl.
  destruct (Py.rsplit_dot s) as [[pre' suf']|].
  - intros [= <- <-]. destruct (IH _ _ eq_refl) as [-> Hr]. done.
  - destruct (Ascii.eqb a Py.dot) eqn:Ha; [|done].
    apply Ascii.eqb_eq in Ha as ->. intros [= <- <-]. split; [done|by eexists].
Qed.

Lemma final_path_cases p : final_path p = p \/ final_path p = p +:+ ".pdf".
Proof.
  unfold final_path, Path.splitext.
  destruct (Py.rsplit_dot (Path.basename p)) as [[pre suf]|] eqn:Hd; [|by right].
  destruct (Py.all_char Py.dot pre); [by right|].
  destruct (rsplit_dot_app _ _ _ Hd) as [_ [r ->]]. by left.
Qed.

Lemma final_path_noext p : (Path.splitext p).2 = "" -> final_path p = p +:+ ".pdf".
Proof.
  unfold final_path. destruct (Path.splitext p) as [root ext] eqn:Hs. simpl.
  intros ->. simpl. f_equal. revert Hs. unfold Path.splitext.
  destruct (Py.rsplit_dot (Path.basename p)) as [[pre suf]|] eqn:Hd; [|congruence].
  destruct (Py.all_char Py.dot pre); [congruence|].
  destruct (rsplit_dot_app _ _ _ Hd) as [_ [r ->]]. congruence.
Qed.

Lemma final_path_ext p : (Path.splitext p).2 <> "" -> final_path p = p.
Proof.
  unfold final_path. destruct (Path.splitext p) as [root ext]. simpl.
  intros Hne. apply String.eqb_neq in Hne. by rewrite Hne.
Qed.

Lemma head_slash_app p s :
  Py.has_char Py.slash s = false -> Path.head_slash (p +:+ s) = Path.head_slash p.
Proof.
  intros Hs. unfold Path.head_slash.
  by rewrite split_on_app_no_sep, removelast_snoc.
Qed.

Lemma dirname_app p s :
  Py.has_char Py.slash s = false -> Path.dirname (p +:+ s) = Path.dirname p.
Proof. intros Hs. unfold Path.dirname. by rewrite head_slash_app. Qed.

Lemma plain_app_pdf x : Py.has_char Py.slash x = false -> plain (x +:+ ".pdf").
Proof.
  intros Hx. repeat split.
  - intros [_ ?]%sapp_eq_nil. done.
  - intros Heq. apply (f_equal String.length) in Heq.
    rewrite slength_app in Heq. simpl in Heq. lia.
  - intros Heq. apply (f_equal String.length) in Heq.
    rewrite slength_app in Heq. simpl in Heq. lia.
  - by rewrite has_char_app, Hx.
Qed.

Lemma nf_app_pdf p : normalised p -> normalised (p +:+ ".pdf").
Proof.
  intros (k & cs & Hk & Hcs & ->). exists k.
  destruct (decide (cs = [])) as [->|Hne].
  - exists [".pdf"]. split; [done|]. split.
    + apply Forall_singleton. by apply (plain_app_pdf "").
    + unfold render. simpl Py.join_with. by rewrite sapp_nil_r.
  - destruct (exists_last Hne) as (cs' & x & ->).
    apply Forall_app in Hcs as [Hcs' [Hx _]%Forall_cons].
    exists (cs' ++ [x +:+ ".pdf"]). split; [done|]. split.
    + apply Forall_app. split; [done|]. apply Forall_singleton.
      apply plain_app_pdf. by apply plain_no_slash.
    + rewrite !render_snoc. by rewrite !sapp_assoc.
Qed.

Lemma nf_final_path p : normalised p -> normalised (final_path p).
Proof.
  intros Hp. destruct (final_path_cases p) as [-> | ->]; [done|by apply nf_app_pdf].
Qed.

Lemma dirname_final_path p : Path.dirname (final_path p) = Path.dirname p.
Proof.
  destruct (final_path_cases p) as [-> | ->]; [done|]. by apply dirname_app.
Qed.

(** ** [is_under] *)

Lemma is_under_refl (d : string) : is_under d d = true.
Proof. unfold is_under. destruct (String.length d); simpl; by rewrite String.eqb_refl. Qed.

Lemma is_under_child (d p : string) :
  Path.dirname p = d -> p <> d -> is_under d p = true.
Proof.
  intros Hd Hne. unfold is_under.
  destruct p as [|a p].
  { exfalso. apply Hne. by rewrite <- Hd. }
  simpl String.length. cbn [is_under_fuel]. rewrite Hd.
  assert (String.eqb d (String a p) = false) as ->.
  { apply String.eqb_neq. congruence. }
  assert (String.eqb (String a p) d = false) as ->.
  { apply String.eqb_neq. congruence. }
  simpl. destruct (String.length p); simpl; by rewrite String.eqb_refl.
Qed.

Lemma is_under_join (d : string) x : normalised d -> plain x -> is_under d (Path.join d x) = true.
Proof.
  intros Hd Hx. destruct (nf_join d x Hd Hx) as (_ & Hdir & Hne).
  by apply is_under_child.
Qed.

(** ** Names, stems and suffixes *)

Lemma name_elem p : Path.name p = "" \/ Path.name p ∈ Py.split_on Py.slash p.
Proof.
  unfold Path.name.
  set (l := List.filter _ _).
  destruct (decide (l = [])) as [->|Hne]; [by left|]. right.
  destruct (exists_last Hne) as (l' & y & Hl). rewrite Hl, last_last.
  assert (In y l) as Hin by (rewrite Hl; apply in_or_app; right; by left).
  apply filter_In in Hin as [Hin _]. by apply list_elem_of_In.
Qed.

Lemma name_no_slash p : Py.has_char Py.slash (Path.name p) = false.
Proof.
  destruct (name_elem p) as [-> | Hin]; [done|].
  by eapply split_on_elem_no_sep.
Qed.

Lemma stem_no_slash p : Py.has_char Py.slash (Path.stem p) = false.
Proof.
  unfold Path.stem. pose proof (name_no_slash p) as Hn.
  destruct (Py.rsplit_dot (Path.name p)) as [[pre suf]|] eqn:Hd; [|done].
  destruct (_ && _); [|done].
  destruct (rsplit_dot_app _ _ _ Hd) as [Heq _]. rewrite Heq, has_char_app in Hn.
  by apply orb_false_iff in Hn as [? _].
Qed.

(** The names [convert_to_pdf] and [_image_to_pdf] give their files. *)
Lemma plain_tagged (tag : string) a tag' p ext :
  tag = String a tag' -> a <> Py.dot ->
  Py.has_char Py.slash tag = false -> Py.has_char Py.slash ext = false ->
  plain (tag +:+ Path.stem p +:+ ext).
Proof.
  intros -> Ha Htag Hext. repeat split; try by rewrite sapp_cons.
  - rewrite sapp_cons. intros [= Heq _]. done.
  - rewrite sapp_cons. intros [= Heq _]. done.
  - by rewrite !has_char_app, Htag, stem_no_slash, Hext.
Qed.

Lemma has_char_lstrip c s :
  Py.isspace c = false -> Py.has_char c s = true -> Py.has_char c (Py.lstrip s) = true.
Proof.
  intros Hc. induction s as [|a s IH]; [done|]. simpl.
  destruct (Py.isspace a) eqn:Ha.
  - intros [Heq|Hs]%orb_true_iff; [|by apply IH].
    apply Ascii.eqb_eq in Heq. congruence.
  - done.
Qed.

Lemma has_char_rstrip c s :
  Py.isspace c = false -> Py.has_char c s = true -> Py.has_char c (Py.rstrip s) = true.
Proof.
  intros Hc. induction s as [|a s IH]; [done|]. simpl.
  intros [Heq|Hs]%orb_true_iff.
  - apply Ascii.eqb_eq in Heq as ->. rewrite Hc.
    destruct (Py.rstrip s); simpl; by rewrite Ascii.eqb_refl.
  - specialize (IH Hs). destruct (Py.rstrip s) eqn:Hr; [done|].
    simpl in *. by rewrite IH, orb_true_r.
Qed.

(** A path with a suffix is not blank. *)
Lemma suffix_not_blank p : Path.suffix p <> "" -> Py.strip p <> "".
Proof.
  unfold Path.suffix.
  destruct (Py.rsplit_dot (Path.name p)) as [[pre suf]|] eqn:Hd; [|done].
  intros _. destruct (rsplit_dot_app _ _ _ Hd) as [Heq [r ->]].
  assert (Py.has_char Py.dot (Path.name p) = true) as Hdot.
  { rewrite Heq, has_char_app. simpl. by rewrite orb_true_r. }
  assert (Py.has_char Py.dot p = true) as Hp.
  { destruct (name_elem p) as [Hn | Hin]; [by rewrite Hn in Hdot|].
    by eapply split_on_elem_has_char. }
  unfold Py.strip. intros Hempty.
  pose proof (has_char_rstrip Py.dot _ eq_refl (has_char_lstrip Py.dot _ eq_refl Hp)) as H.
  by rewrite Hempty in H.
Qed.

Lemma pdf_suffix_not_blank p :
  Py.lower (Path.suffix p) = ".pdf" -> Py.strip p <> "".
Proof.
  intros Hs. apply suffix_not_blank. intros Heq. by rewrite Heq in Hs.
Qed.

End MorePathFacts.

Section Monad.

Context {A B : Type}.
Implicit Types (m : M A) (k : A -> M B) (w : world).

Lemma bind_Ok m k w w1 a : m w = (w1, Ok a) -> bind m k w = k a w1.
Proof. unfold bind. by intros ->. Qed.

Lemma bind_Raise m k w w1 e : m w = (w1, Raise e) -> bind m k w = (w1, Raise e).
Proof. unfold bind. by intros ->. Qed.

Lemma bind_inv m k w w' (r : outcome B) :
  bind m k w = (w', r) ->
  (exists e, m w = (w', Raise e) /\ r = Raise e)
  \/ (exists w1 a, m w = (w1, Ok a) /\ k a w1 = (w', r)).
Proof.
  unfold bind. destruct (m w) as [w1 [a|e]].
  - intros H. right. by exists w1, a.
  - intros [= <- <-]. left. by exists e.
Qed.

End Monad.

Lemma try_except_inv {A} (m : M A) h w w' r :
  try_except m h w = (w', r) ->
  (exists a, m w = (w', Ok a) /\ r = Ok a)
  \/ (exists w1 e, m w = (w1, Raise e) /\ h e w1 = (w', r)).
Proof.
  unfold try_except. destruct (m w) as [w1 [a|e]].
  - intros [= <- <-]. left. by exists a.
  - intros H. right. by exists w1, e.
Qed.

Lemma confined_refl d m : confined d m m.
Proof. by split. Qed.

Lemma confined_trans d m1 m2 m3 :
  confined d m1 m2 -> confined d m2 m3 -> confined d m1 m3.
Proof.
  intros [H1 H1'] [H2 H2']. split.
  - intros k Hk. by rewrite H2, H1.
  - intros k Hk. by apply H2', H1'.
Qed.

Section Preserves.

Variable d : string.

Lemma preserves_ret {A} (a : A) : preserves (confined d) (ret a).
Proof. intros w w' r [= <- _]. apply confined_refl. Qed.

Lemma preserves_raise {A} e : preserves (confined d) (@raise A e).
Proof. intros w w' r [= <- _]. apply confined_refl. Qed.

Lemma preserves_lift {A} (x : exn + A) : preserves (confined d) (lift x).
Proof. destruct x; [apply preserves_raise|apply preserves_ret]. Qed.

Lemma preserves_get_fs : preserves (confined d) get_fs.
Proof. intros w w' r [= <- _]. apply confined_refl. Qed.

Lemma preserves_log c : preserves (confined d) (log c).
Proof. intros w w' r [= <- _]. apply confined_refl. Qed.

Lemma preserves_bind {A B} (m : M A) (k : A -> M B) :
  preserves (confined d) m -> (forall a, preserves (confined d) (k a)) ->
  preserves (confined d) (bind m k).
Proof.
  intros Hm Hk w w' r [(e & H1 & _)|(w1 & a & H1 & H2)]%bind_inv.
  - by eapply Hm.
  - eapply confined_trans; [by eapply Hm|by eapply Hk].
Qed.

Lemma preserves_try_except {A} (m : M A) h :
  preserves (confined d) m -> (forall e, preserves (confined d) (h e)) ->
  preserves (confined d) (try_except m h).
Proof.
  intros Hm Hh w w' r [(a & H1 & _)|(w1 & e & H1 & H2)]%try_except_inv.
  - by eapply Hm.
  - eapply confined_trans; [by eapply Hm|by eapply Hh].
Qed.

Lemma preserves_if {A} (b : bool) (c1 c2 : M A) :
  preserves (confined d) c1 -> preserves (confined d) c2 ->
  preserves (confined d) (if b then c1 else c2).
Proof. by destruct b. Qed.

End Preserves.

Section ReadsOnly.

Lemma reads_only_ret {A} (a : A) : reads_only (ret a).
Proof. by intros w w' r [= <- _]. Qed.

Lemma reads_only_raise {A} e : reads_only (@raise A e).
Proof. by intros w w' r [= <- _]. Qed.

Lemma reads_only_lift {A} (x : exn + A) : reads_only (lift x).
Proof. destruct x; [apply reads_only_raise|apply reads_only_ret]. Qed.

Lemma reads_only_get_fs : reads_only get_fs.
Proof. by intros w w' r [= <- _]. Qed.

Lemma reads_only_log c : reads_only (log c).
Proof. by intros w w' r [= <- _]. Qed.

Lemma reads_only_bind {A B} (m : M A) (k : A -> M B) :
  reads_only m -> (forall a, reads_only (k a)) -> reads_only (bind m k).
Proof.
  intros Hm Hk w w' r [(e & H1 & _)|(w1 & a & H1 & H2)]%bind_inv.
  - by eapply Hm.
  - destruct (Hm _ _ _ H1) as [<- <-]. by eapply Hk.
Qed.

End ReadsOnly.

(** ** Paths by their components *)

Section Components.

Implicit Types (s t u p x cwd : string) (a c : ascii) (l cs : list string) (k i : nat).

Lemma norm_step_dot i acc : Path.norm_step i acc "." = acc.
Proof. reflexivity. Qed.

(** [normpath] looks at the parts only. *)
Lemma fold_norm_parts i l acc :
  fold_left (Path.norm_step i) l acc
  = fold_left (Path.norm_step i)
      (List.filter (fun x => negb (String.eqb x "" || String.eqb x ".")) l) acc.
Proof.
  revert acc. induction l as [|x l IH]; intros acc; [done|]. simpl.
  destruct (String.eqb_spec x "") as [->|H1]; simpl; [by rewrite norm_step_empty|].
  destruct (String.eqb_spec x ".") as [->|H2]; simpl; [by rewrite norm_step_dot|].
  apply IH.
Qed.

Lemma initial_slashes_abs p :
  Path.isabs p = true -> initial_slashes p = 1 \/ initial_slashes p = 2.
Proof.
  unfold Path.isabs, initial_slashes. intros ->. destruct (_ && _); auto.
Qed.

Lemma normpath_parts p :
  Path.isabs p = true ->
  Path.normpath p
  = render (initial_slashes p)
      (rev (fold_left (Path.norm_step (initial_slashes p)) (Pathlib.parts p) [])).
Proof.
  intros Habs. destruct (initial_slashes_abs p Habs) as [Hi|Hi].
  all: destruct (isabs_inv _ Habs) as [r ->].
  all: unfold Pathlib.parts; rewrite <- fold_norm_parts.
  all: unfold Path.normpath; fold (initial_slashes (String Py.slash r)).
  all: change (String.eqb (String Py.slash r) "") with false; cbv beta iota zeta.
  all: rewrite Hi; unfold render; reflexivity.
Qed.

Lemma endswith_char_inv c s :
  Py.endswith_char c s = true -> exists s', s = s' +:+ String c "".
Proof.
  induction s as [|a [|b s] IH]; [done| |].
  - simpl. intros ->%Ascii.eqb_eq. by exists "".
  - intros H. destruct IH as [s' Hs']; [exact H|]. exists (String a s').
    by rewrite sapp_cons, <- Hs'.
Qed.

Lemma parts_app l1 l2 :
  List.filter (fun x => negb (String.eqb x "" || String.eqb x ".")) (l1 ++ l2)
  = List.filter (fun x => negb (String.eqb x "" || String.eqb x ".")) l1
    ++ List.filter (fun x => negb (String.eqb x "" || String.eqb x ".")) l2.
Proof. apply List.filter_app. Qed.

(** The parts of a joined path. *)
Lemma parts_join cwd p :
  cwd <> "" -> Py.startswith Path.sep p = false ->
  Pathlib.parts (Path.join cwd p) = Pathlib.parts cwd ++ Pathlib.parts p.
Proof.
  intros Hne Hp. unfold Path.join. rewrite Hp.
  apply String.eqb_neq in Hne. rewrite Hne. simpl.
  unfold Pathlib.parts.
  destruct (Py.endswith_char Py.slash cwd) eqn:He.
  - destruct (endswith_char_inv _ _ He) as [c' ->].
    rewrite sapp_assoc, sapp_cons, sapp_nil_l.
    rewrite !split_on_app_sep, !parts_app. simpl. by rewrite app_nil_r.
  - unfold Path.sep. rewrite sapp_cons, sapp_nil_l.
    by rewrite split_on_app_sep, parts_app.
Qed.

Lemma initial_slashes_join cwd p :
  Path.isabs cwd = true -> Py.startswith Path.sep p = false ->
  initial_slashes (Path.join cwd p) = initial_slashes cwd.
Proof.
  intros Hc Hp. destruct (isabs_inv _ Hc) as [r ->].
  unfold Path.join. rewrite Hp.
  change (String.eqb (String Py.slash r) "") with false. simpl orb.
  assert (forall t, String.prefix "/" t = false ->
            String.prefix "/" (t +:+ "") = false) as _ by (intros; by rewrite sapp_nil_r).
  unfold Py.startswith, Path.sep in Hp.
  unfold initial_slashes, Py.startswith, Path.sep.
  destruct r as [|b [|c r]].
  - (* the working directory is the root *)
    rewrite !sapp_cons, !sapp_nil_l.
    destruct p as [|a p]; [done|].
    rewrite prefix_cons in Hp. rewrite prefix_nil, andb_true_r in Hp.
    rewrite !prefix_cons, !prefix_nil, Hp. reflexivity.
  - change (Py.endswith_char Py.slash (String b "")) with (Ascii.eqb b Py.slash).
    destruct (Ascii.eqb b Py.slash) eqn:Hb.
    + apply Ascii.eqb_eq in Hb as ->.
      rewrite !sapp_cons, !sapp_nil_l.
      destruct p as [|a p]; [done|].
      rewrite prefix_cons in Hp. rewrite prefix_nil, andb_true_r in Hp.
      rewrite !prefix_cons, !prefix_nil, Hp. reflexivity.
    + rewrite !sapp_cons, !sapp_nil_l.
      assert (Ascii.eqb "/" b = false) as Hb'
        by (rewrite Ascii.eqb_sym; exact Hb).
      rewrite !prefix_cons, !prefix_nil, !Hb'. reflexivity.
  - destruct (Py.endswith_char Py.slash _); rewrite !sapp_cons;
      rewrite !prefix_cons, !prefix_nil; reflexivity.
Qed.

(** The absolute form of a path, from its parts and those of the working
    directory. *)
Lemma abspath_parts cwd p :
  Path.isabs cwd = true ->
  Path.abspath cwd p
  = if Path.isabs p
    then render (initial_slashes p)
           (rev (fold_left (Path.norm_step (initial_slashes p)) (Pathlib.parts p) []))
    else render (initial_slashes cwd)
           (rev (fold_left (Path.norm_step (initial_slashes cwd))
                   (Pathlib.parts cwd ++ Pathlib.parts p) [])).
Proof.
  intros Hc. unfold Path.abspath. destruct (Path.isabs p) eqn:Hp.
  - by apply normpath_parts.
  - rewrite normpath_parts by (by apply join_abs).
    rewrite initial_slashes_join, parts_join; try done.
    intros ->. done.
Qed.

End Components.

Section Parts.

Implicit Types (s t u p x cwd : string) (a c : ascii) (l cs : list string) (k i : nat).

Lemma parts_elem p x :
  x ∈ Pathlib.parts p -> x <> "" /\ x <> "." /\ Py.has_char Py.slash x = false.
Proof.
  unfold Pathlib.parts. intros [Hf Hx]%list_elem_of_In%filter_In.
  apply list_elem_of_In in Hf.
  apply negb_true_iff, orb_false_iff in Hx as [H1 H2].
  apply String.eqb_neq in H1, H2. split_and!; [done..|].
  by eapply split_on_elem_no_sep.
Qed.

Lemma parts_no_slash p :
  Forall (fun x => Py.has_char Py.slash x = false) (Pathlib.parts p).
Proof. apply Forall_forall. intros x Hx. by apply parts_elem in Hx as (_ & _ & ?). Qed.

Lemma parts_name p : Path.name p = List.last (Pathlib.parts p) "".
Proof. reflexivity. Qed.

(** The parts of a path written from parts. *)
Lemma filter_parts_id l :
  Forall (fun x => x <> "" /\ x <> "." /\ Py.has_char Py.slash x = false) l ->
  List.filter (fun x => negb (String.eqb x "" || String.eqb x ".")) l = l.
Proof.
  induction 1 as [|x l (H1 & H2 & _) _ IH]; [done|]. simpl.
  apply String.eqb_neq in H1, H2. by rewrite H1, H2, IH.
Qed.

Lemma filter_parts_empties k :
  List.filter (fun x => negb (String.eqb x "" || String.eqb x ".")) (replicate k "")
  = [].
Proof. induction k as [|k IH]; [done|]. simpl. exact IH. Qed.

Lemma parts_slashes_join k l :
  Forall (fun x => x <> "" /\ x <> "." /\ Py.has_char Py.slash x = false) l ->
  Pathlib.parts (Path.slashes k +:+ Py.join_with Path.sep l) = l.
Proof.
  intros Hl. unfold Pathlib.parts. rewrite split_slashes, List.filter_app.
  rewrite filter_parts_empties. simpl.
  destruct (decide (l = [])) as [->|Hne]; [done|].
  rewrite (split_join Py.slash) by
    first [done | eapply Forall_impl; [exact Hl|]; by intros x (_ & _ & ?)].
  by apply filter_parts_id.
Qed.

Lemma join_parts_not_abs l :
  Forall (fun x => x <> "" /\ x <> "." /\ Py.has_char Py.slash x = false) l ->
  String.prefix "/" (Py.join_with Path.sep l) = false.
Proof.
  assert (forall x, x <> "" -> Py.has_char Py.slash x = false ->
                    String.prefix "/" x = false) as Hone.
  { intros [|a x] Hne Hs; [done|]. rewrite prefix_cons. simpl in Hs.
    apply orb_false_iff in Hs as [Ha _]. rewrite Ascii.eqb_sym.
    unfold Py.slash in Ha. by rewrite Ha. }
  destruct l as [|x [|y l]]; [done| |].
  - intros [(? & _ & ?) _]%Forall_cons. by apply Hone.
  - intros [(? & _ & ?) _]%Forall_cons. rewrite join_with_cons2.
    rewrite prefix_slash_app by done. by apply Hone.
Qed.

Lemma root_slashes p :
  Pathlib.root p = Path.slashes (initial_slashes p).
Proof.
  unfold Pathlib.root, initial_slashes. change Path.sep with "/".
  destruct (Py.startswith "/" p); [|done]. by destruct (_ && _).
Qed.

Lemma parts_Forall p :
  Forall (fun x => x <> "" /\ x <> "." /\ Py.has_char Py.slash x = false)
    (Pathlib.parts p).
Proof. apply Forall_forall. intros x. apply parts_elem. Qed.

Lemma initial_slashes_render k l :
  k <= 2 ->
  Forall (fun x => x <> "" /\ x <> "." /\ Py.has_char Py.slash x = false) l ->
  initial_slashes (Path.slashes k +:+ Py.join_with Path.sep l) = k.
Proof.
  intros Hk Hl. pose proof (join_parts_not_abs l Hl) as Hj.
  unfold initial_slashes, Py.startswith, Path.sep in *.
  destruct k as [|[|[|k]]]; [| | |lia]; simpl Path.slashes.
  - rewrite sapp_nil_l, Hj. done.
  - rewrite sapp_cons, sapp_nil_l, !prefix_cons, !prefix_nil, Hj. reflexivity.
  - rewrite !sapp_cons, sapp_nil_l, !prefix_cons, !prefix_nil, Hj. reflexivity.
Qed.

Lemma initial_slashes_le p : initial_slashes p <= 2.
Proof. unfold initial_slashes. destruct (Py.startswith _ _); [destruct (_ && _)|]; lia. Qed.

Lemma str_parts p : Pathlib.parts (Pathlib.str p) = Pathlib.parts p.
Proof.
  unfold Pathlib.str. rewrite root_slashes. cbv zeta.
  destruct (String.eqb_spec
              (Path.slashes (initial_slashes p)
               +:+ Py.join_with Path.sep (Pathlib.parts p)) "") as [He|_].
  - apply sapp_eq_nil in He as [_ He].
    destruct (Pathlib.parts p) as [|x [|y l]] eqn:Hp; [done| |].
    + simpl in He. subst x.
      pose proof (parts_elem p "") as H. rewrite Hp in H.
      destruct H as (? & _); [by left|done].
    + rewrite join_with_cons2 in He. apply sapp_eq_nil in He as [-> _].
      pose proof (parts_elem p "") as H. rewrite Hp in H.
      destruct H as (? & _); [by left|done].
  - apply parts_slashes_join, parts_Forall.
Qed.

Lemma str_initial_slashes p : initial_slashes (Pathlib.str p) = initial_slashes p.
Proof.
  unfold Pathlib.str. rewrite root_slashes. cbv zeta.
  destruct (String.eqb_spec
              (Path.slashes (initial_slashes p)
               +:+ Py.join_with Path.sep (Pathlib.parts p)) "") as [He|_].
  - apply sapp_eq_nil in He as [He _].
    destruct (initial_slashes p) as [|k]; [done|done].
  - apply initial_slashes_render; [apply initial_slashes_le|apply parts_Forall].
Qed.

Lemma isabs_initial_slashes p : Path.isabs p = negb (Nat.eqb (initial_slashes p) 0).
Proof.
  unfold Path.isabs, initial_slashes. destruct (Py.startswith _ _); [|done].
  by destruct (_ && _).
Qed.

(** [str(Path(p))] names the file [p] names. *)
Lemma abspath_str cwd p :
  Path.isabs cwd = true -> Path.abspath cwd (Pathlib.str p) = Path.abspath cwd p.
Proof.
  intros Hc. rewrite !abspath_parts by done.
  rewrite !isabs_initial_slashes, str_initial_slashes, str_parts. done.
Qed.

(** The last part of a path is the last component of its absolute form,
    unless it is [..]. *)
Lemma abspath_last cwd p x :
  Path.isabs cwd = true ->
  Path.name p = x -> x <> "" -> x <> ".." ->
  exists k cs, (k = 1 \/ k = 2) /\ Forall plain cs /\ plain x
               /\ Path.abspath cwd p = render k (cs ++ [x]).
Proof.
  intros Hc Hname Hne Hdd. rewrite parts_name in Hname.
  assert (exists l, Pathlib.parts p = l ++ [x]) as [l Hl].
  { destruct (Pathlib.parts p) as [|y l'] eqn:Hp using rev_ind.
    - simpl in Hname. congruence.
    - rewrite last_last in Hname. subst. by eexists. }
  assert (plain x) as Hx.
  { destruct (parts_elem p x) as (? & ? & ?).
    - rewrite Hl. apply elem_of_app. right. by left.
    - by repeat split. }
  assert (forall i (pre : list string),
            i = 1 \/ i = 2 ->
            Forall (fun y => Py.has_char Py.slash y = false) pre ->
            exists cs, Forall plain cs
                       /\ rev (fold_left (Path.norm_step i) (pre ++ l ++ [x]) [])
                          = cs ++ [x]) as Hfold.
  { intros i pre Hi Hpre. rewrite app_assoc, fold_left_app. simpl.
    rewrite norm_step_plain by done. simpl.
    eexists. split; [|done].
    apply Forall_forall. intros y Hy. apply list_elem_of_In, in_rev in Hy.
    apply list_elem_of_In in Hy. revert y Hy. apply Forall_forall.
    apply fold_norm_keeps_plain; [lia|done|].
    apply Forall_app. split; [done|].
    pose proof (parts_no_slash p) as Hp. rewrite Hl in Hp.
    by apply Forall_app in Hp as [? _]. }
  rewrite abspath_parts by done. rewrite Hl.
  destruct (Path.isabs p) eqn:Hp.
  - destruct (initial_slashes_abs p Hp) as [Hi|Hi]; rewrite Hi.
    + destruct (Hfold 1 [] ltac:(auto) ltac:(done)) as (cs & Hcs & Hr).
      change ([] ++ l ++ [x]) with (l ++ [x]) in Hr. rewrite Hr.
      exists 1, cs. auto.
    + destruct (Hfold 2 [] ltac:(auto) ltac:(done)) as (cs & Hcs & Hr).
      change ([] ++ l ++ [x]) with (l ++ [x]) in Hr. rewrite Hr.
      exists 2, cs. auto.
  - destruct (initial_slashes_abs cwd Hc) as [Hi|Hi]; rewrite Hi.
    + destruct (Hfold 1 (Pathlib.parts cwd) ltac:(auto) (parts_no_slash cwd))
        as (cs & Hcs & ->).
      exists 1, cs. auto.
    + destruct (Hfold 2 (Pathlib.parts cwd) ltac:(auto) (parts_no_slash cwd))
        as (cs & Hcs & ->).
      exists 2, cs. auto.
Qed.

Lemma name_render_snoc k cs x :
  Forall plain cs -> plain x -> Path.name (render k (cs ++ [x])) = x.
Proof.
  intros Hcs Hx. rewrite parts_name. unfold render.
  rewrite parts_slashes_join.
  - by rewrite last_last.
  - apply Forall_app. split.
    + eapply Forall_impl; [exact Hcs|]. by intros y (? & ? & _ & ?).
    + apply Forall_singleton. by destruct Hx as (? & ? & _ & ?).
Qed.

(** The name of a path is the name of its absolute form. *)
Lemma abspath_name cwd p :
  Path.isabs cwd = true ->
  Path.name p <> "" -> Path.name p <> ".." ->
  Path.name (Path.abspath cwd p) = Path.name p
  /\ Path.basename (Path.abspath cwd p) = Path.name p.
Proof.
  intros Hc H1 H2.
  destruct (abspath_last cwd p _ Hc eq_refl H1 H2) as (k & cs & Hk & Hcs & Hx & ->).
  split; [by apply name_render_snoc|by apply basename_render_snoc].
Qed.

Lemma suffix_of_name p q : Path.name p = Path.name q -> Path.suffix p = Path.suffix q.
Proof. unfold Path.suffix. by intros ->. Qed.

Lemma stem_of_name p q : Path.name p = Path.name q -> Path.stem p = Path.stem q.
Proof. unfold Path.stem. by intros ->. Qed.

Lemma rsplit_dot_None s : Py.rsplit_dot s = None -> Py.has_char Py.dot s = false.
Proof.
  induction s as [|a s IH]; [done|]. simpl.
  destruct (Py.rsplit_dot s) as [[pre suf]|]; [done|].
  destruct (Ascii.eqb a Py.dot); [done|]. intros _. by apply IH.
Qed.

(** A path with a suffix has a name, and it is not [..]. *)
Lemma suffix_name p : Path.suffix p <> "" -> Path.name p <> "" /\ Path.name p <> "..".
Proof.
  unfold Path.suffix. intros H. split; intros Hn; rewrite Hn in H; by apply H.
Qed.

End Parts.

(** ** The kernel's walk *)

Section Walk.

Implicit Types (m : fsmap) (p d x c : string) (cs st l : list string) (i : nat).

Lemma render_nil i : render i [] = Path.slashes i.
Proof. unfold render. simpl. apply sapp_nil_r. Qed.

Lemma way_open_nil m i : m !! render i [] = Some Dir -> way_open m i [].
Proof.
  intros Hroot. split; [done|]. intros l Hl Hne. by apply prefix_nil_inv in Hl.
Qed.

Lemma prefix_snoc_inv {A} (l1 l2 : list A) (a : A) :
  l1 `prefix_of` l2 ++ [a] -> l1 <> l2 ++ [a] -> l1 `prefix_of` l2.
Proof.
  intros [t Ht] Hne. revert Ht. destruct t as [|b t _] using rev_ind; intros Ht.
  { rewrite app_nil_r in Ht. congruence. }
  rewrite app_assoc in Ht. apply app_inj_tail in Ht as [-> _]. by exists t.
Qed.

Lemma way_open_snoc m i cs x :
  way_open m i cs -> m !! render i cs = Some Dir -> way_open m i (cs ++ [x]).
Proof.
  intros [Hroot Hway] Hdir. split; [done|]. intros l Hl Hne.
  apply prefix_snoc_inv in Hl; [|done].
  destruct (decide (l = cs)) as [->|Hlc]; [done|]. by apply Hway.
Qed.

Lemma way_open_prefix m i cs x : way_open m i (cs ++ [x]) -> way_open m i cs.
Proof.
  intros [Hroot Hway]. split; [done|]. intros l [t Ht] Hne. apply Hway.
  - exists (t ++ [x]). by rewrite Ht, app_assoc.
  - intros Heq. rewrite Ht, <- app_assoc in Heq.
    apply (f_equal length) in Heq. rewrite !length_app in Heq. simpl in Heq. lia.
Qed.

Lemma way_open_last m i cs x : way_open m i (cs ++ [x]) -> m !! render i cs = Some Dir.
Proof.
  intros [_ Hway]. apply Hway; [by exists [x]|].
  intros Heq. apply (f_equal length) in Heq. rewrite length_app in Heq.
  simpl in Heq. lia.
Qed.

(** The walk follows [normpath]: where it ends is the normalised path, and
    the way to it is open. *)
Lemma walk_norm m i cs : i = 1 \/ i = 2 ->
  Forall (fun x => Py.has_char Py.slash x = false) cs ->
  forall st r,
    Forall plain st -> way_open m i (rev st) ->
    walk m (render i (rev st)) cs = inr r ->
    r = render i (rev (fold_left (Path.norm_step i) cs st))
    /\ Forall plain (fold_left (Path.norm_step i) cs st)
    /\ way_open m i (rev (fold_left (Path.norm_step i) cs st)).
Proof.
  intros Hi. assert (i <> 0) as Hi0 by (destruct Hi; lia).
  induction 1 as [|c cs Hc _ IH]; intros st r Hst Hway; simpl.
  { intros [= <-]. done. }
  destruct (m !! render i (rev st)) as [[|?]|] eqn:Hd; [|done..].
  destruct (String.eqb_spec c "") as [->|H1]; simpl.
  { rewrite norm_step_empty. by apply IH. }
  destruct (String.eqb_spec c ".") as [->|H2]; simpl.
  { rewrite norm_step_dot. by apply IH. }
  destruct (String.eqb_spec c "..") as [->|H3].
  - destruct st as [|x st].
    + simpl rev. rewrite dirname_render_nil by done.
      replace (Path.norm_step i [] "..") with (@nil string).
      2:{ unfold Path.norm_step. simpl. destruct i; [done|]. simpl. done. }
      by apply (IH []).
    + apply Forall_cons in Hst as [Hx Hst]. simpl rev in *.
      rewrite dirname_render_snoc; [|done|by apply Forall_rev|done].
      replace (Path.norm_step i (x :: st) "..") with st.
      2:{ unfold Path.norm_step. simpl.
          assert (String.eqb x ".." = false) as ->
            by (apply String.eqb_neq; by destruct Hx as (_ & _ & ? & _)).
          destruct i; [done|]. simpl. done. }
      apply (IH st); [done|]. by eapply way_open_prefix.
  - assert (plain c) as Hp by done.
    rewrite join_render; [|done|by apply Forall_rev|done].
    rewrite norm_step_plain by done.
    change (rev st ++ [c]) with (rev (c :: st)).
    apply (IH (c :: st)); [by apply Forall_cons|]. simpl. by apply way_open_snoc.
Qed.

Lemma walk_plain m i rest : i = 1 \/ i = 2 ->
  forall front,
    Forall plain (front ++ rest) -> way_open m i (front ++ rest) ->
    walk m (render i front) rest = inr (render i (front ++ rest)).
Proof.
  intros Hi. assert (i <> 0) as Hi0 by (destruct Hi; lia).
  induction rest as [|c rest IH]; intros front Hpl Hway; simpl.
  { by rewrite app_nil_r. }
  assert (m !! render i front = Some Dir) as ->.
  { destruct Hway as [_ Hway]. apply Hway; [by eexists|].
    intros Heq. apply (f_equal length) in Heq. rewrite length_app in Heq.
    simpl in Heq. lia. }
  apply Forall_app in Hpl as Hpl'. destruct Hpl' as [Hfront [Hc _]%Forall_cons].
  assert (String.eqb c "" = false /\ String.eqb c "." = false
          /\ String.eqb c ".." = false) as (-> & -> & ->).
  { destruct Hc as (? & ? & ? & _). by rewrite !String.eqb_neq. }
  simpl. rewrite join_render by done.
  rewrite (IH (front ++ [c])); rewrite <- ?app_assoc; done.
Qed.

(** The walk to a normalised path whose way is open. *)
Lemma walk_render m i cs : i = 1 \/ i = 2 ->
  Forall plain cs -> way_open m i cs ->
  walk m (render i []) (Py.split_on Py.slash (render i cs)) = inr (render i cs).
Proof.
  intros Hi Hcs Hway. rewrite split_render by done.
  assert (forall n l, walk m (render i []) (replicate n "" ++ l)
                      = walk m (render i []) l) as Hempties.
  { intros n l. induction n as [|n IH]; [done|]. simpl.
    destruct Hway as [-> _]. done. }
  rewrite Hempties. case_decide as Hnil.
  - subst cs. simpl. by destruct Hway as [-> _].
  - by apply (walk_plain m i cs Hi []).
Qed.

(** A walk needs the directories only. *)
Lemma walk_mono m m' cs d r :
  (forall k, m !! k = Some Dir -> m' !! k = Some Dir) ->
  walk m d cs = inr r -> walk m' d cs = inr r.
Proof.
  intros Hsub. revert d. induction cs as [|c cs IH]; intros d; simpl; [done|].
  destruct (m !! d) as [[|?]|] eqn:Hd; [|done..]. rewrite (Hsub _ Hd). apply IH.
Qed.

(** In a well-formed file system the way to what exists is open. *)
Lemma wf_way_open m i cs n : i = 1 \/ i = 2 ->
  wf m -> Forall plain cs -> m !! render i cs = Some n -> way_open m i cs.
Proof.
  intros Hi Hwf. assert (i <> 0) as Hi0 by (destruct Hi; lia). revert n.
  induction cs as [|x cs IH] using rev_ind; intros n Hcs Hn.
  - apply way_open_nil. pose proof (Hwf _ _ Hn) as Hp. simpl in Hp.
    by rewrite dirname_render_nil in Hp.
  - apply Forall_app in Hcs as [Hcs [Hx _]%Forall_cons].
    pose proof (Hwf _ _ Hn) as Hp. simpl in Hp.
    rewrite dirname_render_snoc in Hp by done.
    apply way_open_snoc; [|done]. by eapply IH.
Qed.

End Walk.

Section Kernel.

Variable E : Env.
Hypothesis cwd_abs : Path.isabs (cwd E) = true.

Implicit Types (m : fsmap) (w : world) (p d : string).

Lemma join_cwd_abs p : Path.isabs (Path.join (cwd E) p) = true.
Proof using cwd_abs. by apply join_abs. Qed.

Lemma key_join p : key E p = Path.normpath (Path.join (cwd E) p).
Proof.
  unfold key, Path.abspath, Path.join, Path.isabs.
  by destruct (Py.startswith Path.sep p).
Qed.

(** Where the kernel ends is the absolute, normalised form of the path,
    and the way to it is open. *)
Lemma namei_inv m p k :
  namei E m p = inr k ->
  k = key E p
  /\ exists i cs, (i = 1 \/ i = 2) /\ Forall plain cs
                  /\ k = render i cs /\ way_open m i cs.
Proof using cwd_abs.
  unfold namei. destruct (String.eqb p ""); [done|]. cbv zeta.
  rewrite key_join. set (q := Path.join (cwd E) p).
  pose proof (join_cwd_abs p) as Hq. fold q in Hq.
  rewrite normpath_parts by done. unfold Pathlib.parts.
  rewrite <- fold_norm_parts.
  pose proof (initial_slashes_abs q Hq) as Hi.
  set (i := initial_slashes q) in *. rewrite <- render_nil. intros Hwalk.
  assert (m !! render i [] = Some Dir) as Hroot.
  { destruct (Py.split_on Py.slash q) as [|c cs] eqn:Hs;
      [by apply split_on_not_nil in Hs|].
    simpl in Hwalk. by destruct (m !! render i []) as [[|?]|]. }
  apply (walk_norm m i _ Hi) with (st := []) in Hwalk as (-> & Hpl & Hway).
  - split; [done|]. eexists i, _. split_and!; [done| |done|done].
    by apply Forall_rev.
  - apply Forall_forall. intros x Hx. by eapply split_on_elem_no_sep.
  - done.
  - by apply way_open_nil.
Qed.

Lemma namei_key m p k : namei E m p = inr k -> k = key E p.
Proof using cwd_abs. by intros [-> _]%namei_inv. Qed.

(** The walk to a normalised path. *)
Lemma namei_render m i cs : i = 1 \/ i = 2 ->
  Forall plain cs -> way_open m i cs -> namei E m (render i cs) = inr (render i cs).
Proof.
  intros Hi Hcs Hway. assert (i <> 0) as Hi0 by (destruct Hi; lia).
  unfold namei.
  assert (String.eqb (render i cs) "" = false) as ->
    by (apply String.eqb_neq; by apply render_ne_nil).
  cbv zeta.
  assert (Path.join (cwd E) (render i cs) = render i cs) as ->.
  { unfold Path.join.
    assert (Path.isabs (render i cs) = true) as Habs
      by (apply nf_isabs; by exists i, cs).
    unfold Path.isabs in Habs. by rewrite Habs. }
  assert (initial_slashes (render i cs) = i) as ->.
  { apply initial_slashes_render; [destruct Hi; lia|].
    eapply Forall_impl; [exact Hcs|]. by intros x (? & ? & _ & ?). }
  rewrite <- render_nil. by apply walk_render.
Qed.

Lemma namei_mono m m' p k :
  (forall j, m !! j = Some Dir -> m' !! j = Some Dir) ->
  namei E m p = inr k -> namei E m' p = inr k.
Proof.
  intros Hsub. unfold namei. destruct (String.eqb p ""); [done|].
  by apply walk_mono.
Qed.

(** [stat]: what is found is at the key of the path. *)
Lemma stat_Some m p n :
  stat E m p = Some n -> namei E m p = inr (key E p) /\ m !! key E p = Some n.
Proof using cwd_abs.
  unfold stat. destruct (namei E m p) as [|k] eqn:Hk; [done|].
  apply namei_key in Hk as Hkey. subst k. done.
Qed.

(** What the kernel finds at a path it finds at its absolute form. *)
Lemma stat_key m p n : stat E m p = Some n -> stat E m (key E p) = Some n.
Proof using cwd_abs.
  unfold stat at 1. destruct (namei E m p) as [|k] eqn:Hk; [done|].
  apply namei_inv in Hk as (-> & i & cs & Hi & Hcs & Heq & Hway). intros Hn.
  unfold stat. rewrite Heq, namei_render by done. by rewrite <- Heq.
Qed.

(** On a normalised path of a well-formed file system, [stat] is the
    look-up. *)
Lemma stat_nf m p : wf m -> normalised p -> stat E m p = m !! p.
Proof using cwd_abs.
  intros Hwf (i & cs & Hi & Hcs & ->).
  destruct (m !! render i cs) as [n|] eqn:Hn.
  - unfold stat. rewrite namei_render; [done..|]. by eapply wf_way_open.
  - unfold stat. destruct (namei E m (render i cs)) as [|k] eqn:Hk; [done|].
    apply namei_key in Hk. rewrite Hk. unfold key.
    rewrite abspath_of_nf; [done|]. by exists i, cs.
Qed.

Lemma stat_mono m m' p n :
  (forall j x, m !! j = Some x -> m' !! j = Some x) ->
  stat E m p = Some n -> stat E m' p = Some n.
Proof.
  intros Hsub. unfold stat. destruct (namei E m p) as [|k] eqn:Hk; [done|].
  rewrite (namei_mono m m' p k); [apply Hsub|by intros j; apply Hsub|done].
Qed.

Lemma os_path_isfile_stat m p :
  os_path_isfile E m p = true <-> exists dt, stat E m p = Some (File dt).
Proof.
  unfold os_path_isfile. destruct (stat E m p) as [[|dt]|]; split;
    try done; try (by intros [? ?]). intros _. by exists dt.
Qed.

Lemma os_path_isfile_key m p :
  os_path_isfile E m p = true ->
  namei E m p = inr (key E p) /\ exists dt, m !! key E p = Some (File dt).
Proof using cwd_abs.
  intros [dt Hs]%os_path_isfile_stat. apply stat_Some in Hs as [? ?]. eauto.
Qed.

Lemma os_path_isfile_nf m p :
  wf m -> normalised p ->
  os_path_isfile E m p = match m !! p with Some (File _) => true | _ => false end.
Proof using cwd_abs. intros. unfold os_path_isfile. by rewrite stat_nf. Qed.

Lemma os_path_isdir_nf m p :
  wf m -> normalised p ->
  os_path_isdir E m p = match m !! p with Some Dir => true | _ => false end.
Proof using cwd_abs. intros. unfold os_path_isdir. by rewrite stat_nf. Qed.

Lemma os_path_exists_nf m p :
  wf m -> normalised p ->
  os_path_exists E m p = match m !! p with Some _ => true | None => false end.
Proof using cwd_abs. intros. unfold os_path_exists. by rewrite stat_nf. Qed.

End Kernel.

Section FileSystem.

Variable E : Env.
Hypothesis cwd_abs : Path.isabs (cwd E) = true.

Implicit Types (m : fsmap) (w : world) (p d : string).

Lemma key_nf p : normalised (key E p).
Proof using cwd_abs. by apply abspath_nf. Qed.

Lemma key_of_nf p : normalised p -> key E p = p.
Proof. apply abspath_of_nf. Qed.

Lemma key_key p : key E (key E p) = key E p.
Proof using cwd_abs. apply key_of_nf, key_nf. Qed.

Lemma wf_lookup m k n : wf m -> m !! k = Some n -> m !! Path.dirname k = Some Dir.
Proof. intros Hwf Hk. exact (Hwf k n Hk). Qed.

Lemma wf_insert m k n :
  wf m -> m !! k = None -> m !! Path.dirname k = Some Dir -> wf (<[k := n]> m).
Proof.
  intros Hwf Hk Hpar j x Hj.
  destruct (decide (j = k)) as [->|Hne].
  - rewrite lookup_insert_ne; [done|]. intros Heq. congruence.
  - rewrite lookup_insert_ne in Hj by done.
    pose proof (Hwf j x Hj) as Hp. simpl in Hp.
    rewrite lookup_insert_ne; [done|]. intros Heq. congruence.
Qed.

Lemma wf_insert_file m k (dt dt' : data) :
  wf m -> m !! k = Some (File dt) -> wf (<[k := File dt']> m).
Proof.
  intros Hwf Hk j x Hj.
  assert (m !! Path.dirname j = Some Dir) as Hp.
  { destruct (decide (j = k)) as [->|Hne]; [by eapply Hwf|].
    rewrite lookup_insert_ne in Hj by done. by eapply Hwf. }
  rewrite lookup_insert_ne; [done|]. intros Heq. congruence.
Qed.

(** In a well-formed file system nothing lies below a path that does not
    exist. *)
Lemma under_absent m d n k :
  wf m -> m !! d = None -> is_under_fuel n d k = true -> m !! k = None.
Proof.
  intros Hwf Hd. revert k. induction n as [|n IH]; intros k; simpl.
  - rewrite orb_false_r. by intros ->%String.eqb_eq.
  - intros [->%String.eqb_eq|[_ Hu]%andb_true_iff]%orb_true_iff; [done|].
    specialize (IH _ Hu). destruct (m !! k) as [x|] eqn:Hk; [|done].
    pose proof (Hwf k x Hk) as Hp. simpl in Hp. congruence.
Qed.

Lemma is_under_inv d k :
  is_under d k = true ->
  k = d \/ exists n, is_under_fuel n d (Path.dirname k) = true.
Proof.
  unfold is_under. destruct (String.length k) as [|n]; simpl.
  - rewrite orb_false_r. intros ->%String.eqb_eq. by left.
  - intros [->%String.eqb_eq|[_ Hu]%andb_true_iff]%orb_true_iff; [by left|].
    right. by exists n.
Qed.

(** ** The system calls *)

Lemma os_mkdir_eq p w :
  os_mkdir E p w =
  match fs w !! key E p with
  | Some _ => (w, Raise (EEXIST p))
  | None =>
      match fs w !! Path.dirname (key E p) with
      | Some Dir => (World (<[key E p := Dir]> (fs w)) (calls w) (written w), Ok tt)
      | Some (File _) => (w, Raise (ENOTDIR p))
      | None => (w, Raise (ENOENT p))
      end
  end.
Proof.
  unfold os_mkdir, bind, get_fs. destruct (fs w !! key E p); [done|].
  by destruct (fs w !! Path.dirname (key E p)) as [[|?]|].
Qed.

Lemma open_wb_eq p w :
  open_wb E p w =
  match fs w !! key E p with
  | Some Dir => (w, Raise (EISDIR p))
  | _ =>
      match fs w !! Path.dirname (key E p) with
      | Some Dir =>
          (World (<[key E p := File (Raw [])]> (fs w)) (calls w) (written w), Ok tt)
      | Some (File _) => (w, Raise (ENOTDIR p))
      | None => (w, Raise (ENOENT p))
      end
  end.
Proof.
  unfold open_wb, bind, get_fs.
  destruct (fs w !! key E p) as [[|?]|]; [done| |];
    by destruct (fs w !! Path.dirname (key E p)) as [[|?]|].
Qed.

Lemma f_write_eq p dt w :
  f_write E p dt w =
  (World (<[key E p := File dt]> (fs w)) (calls w) (written w ++ [(key E p, dt)]), Ok tt).
Proof. reflexivity. Qed.

Lemma os_mkdir_raises_OSError p w w' e :
  os_mkdir E p w = (w', Raise e) -> w' = w /\ is_OSError e = true.
Proof.
  rewrite os_mkdir_eq. destruct (fs w !! key E p).
  - by intros [= <- <-].
  - destruct (fs w !! Path.dirname (key E p)) as [[|?]|]; by intros [= <- <-].
Qed.

(** What [with open(p, "wb") as f: f.write(payload)] leaves. *)
Lemma with_open_wb_inv p (payload : M data) w w' r :
  reads_only payload ->
  with_open_wb E p payload w = (w', r) ->
  (exists e, r = Raise e /\ fs w' = fs w /\ written w' = written w
             /\ (fs w !! key E p = Some Dir
                 \/ fs w !! Path.dirname (key E p) <> Some Dir))
  \/ (fs w !! key E p <> Some Dir /\ fs w !! Path.dirname (key E p) = Some Dir
      /\ ((exists e, r = Raise e /\ fs w' = <[key E p := File (Raw [])]> (fs w)
                     /\ written w' = written w)
          \/ (exists dt, r = Ok tt /\ fs w' = <[key E p := File dt]> (fs w)
                         /\ written w' = written w ++ [(key E p, dt)]))).
Proof.
  intros Hpay. unfold with_open_wb.
  intros [(e & H1 & ->)|(w1 & [] & H1 & H2)]%bind_inv.
  - left. exists e. rewrite open_wb_eq in H1.
    destruct (fs w !! key E p) as [[|?]|] eqn:Hk.
    + injection H1 as <- <-. split_and!; auto.
    + destruct (fs w !! Path.dirname (key E p)) as [[|?]|] eqn:Hd;
        [done|..]; injection H1 as <- <-; split_and!; auto; right; congruence.
    + destruct (fs w !! Path.dirname (key E p)) as [[|?]|] eqn:Hd;
        [done|..]; injection H1 as <- <-; split_and!; auto; right; congruence.
  - right. rewrite open_wb_eq in H1.
    assert (fs w !! key E p <> Some Dir
            /\ fs w !! Path.dirname (key E p) = Some Dir
            /\ w1 = World (<[key E p := File (Raw [])]> (fs w)) (calls w) (written w))
      as (Hk & Hd & ->).
    { destruct (fs w !! key E p) as [[|?]|] eqn:Hk; [done| |];
        destruct (fs w !! Path.dirname (key E p)) as [[|?]|] eqn:Hd;
        by injection H1 as <-. }
    split; [done|]. split; [done|].
    apply bind_inv in H2 as [(e & H2 & ->)|(w2 & dt & H2 & H3)].
    + left. exists e. destruct (Hpay _ _ _ H2) as [-> ->]. done.
    + right. exists dt. destruct (Hpay _ _ _ H2) as [Hfs Hwr].
      rewrite f_write_eq in H3. injection H3 as <- <-. simpl.
      rewrite Hfs, Hwr. simpl. by rewrite insert_insert_eq.
Qed.

Lemma with_open_wb_confined d p (payload : M data) :
  reads_only payload -> is_under d (key E p) = true ->
  preserves (confined d) (with_open_wb E p payload).
Proof.
  intros Hpay Hu w w' r H.
  apply with_open_wb_inv in H as
    [(e & _ & -> & _)|(Hk & Hd & [(e & _ & -> & _)|(dt & _ & -> & _)])];
    [done| | |done]; split.
  - intros k Hnu. rewrite lookup_insert_ne; [done|]. intros <-. congruence.
  - intros k Hdir. rewrite lookup_insert_ne; [done|]. intros <-. congruence.
  - intros k Hnu. rewrite lookup_insert_ne; [done|]. intros <-. congruence.
  - intros k Hdir. rewrite lookup_insert_ne; [done|]. intros <-. congruence.
Qed.

(** [mkdtemp]: a directory that did not exist, or nothing at all. *)
Lemma mkdtemp_inv names w w' r :
  mkdtemp E names w = (w', r) ->
  match r with
  | Raise _ => w' = w
  | Ok d =>
      normalised d /\ fs w !! d = None /\ fs w !! Path.dirname d = Some Dir
      /\ w' = World (<[d := Dir]> (fs w)) (calls w) (written w)
  end.
Proof using cwd_abs.
  revert w' r. induction names as [|name rest IH]; intros w' r; simpl.
  - by intros [= <- <-].
  - intros [(a & H1 & ->)|(w1 & e & H1 & H2)]%try_except_inv.
    + apply bind_inv in H1 as [(e & _ & ?)|(w1 & [] & H1 & H2)]; [done|].
      injection H2 as -> <-. rewrite os_mkdir_eq in H1.
      destruct (fs w !! key E _) eqn:Hk; [done|].
      destruct (fs w !! Path.dirname (key E _)) as [[|?]|] eqn:Hd; [|done..].
      injection H1 as <-. split; [apply key_nf|]. done.
    + apply bind_inv in H1 as [(e' & H1 & [= <-])|(w2 & [] & _ & ?)]; [|done].
      apply os_mkdir_raises_OSError in H1 as [-> _].
      destruct (is_FileExistsError e); [by apply IH|].
      by injection H2 as <- <-.
Qed.

End FileSystem.

Section Makedirs.

Variable E : Env.
Hypothesis cwd_abs : Path.isabs (cwd E) = true.

Implicit Types (m : fsmap) (w : world) (p d : string).

Lemma basename_render_nil k : Path.basename (render k []) = "".
Proof.
  unfold Path.basename. rewrite split_render by done.
  rewrite decide_True by done. by rewrite last_last.
Qed.


Lemma os_makedirs_S fuel name :
  os_makedirs E (S fuel) name =
  (let '(head, tail) := path_split name in
   let '(head, tail) :=
     if String.eqb tail "" then path_split head else (head, tail) in
   m <- get_fs ;;
   finished <-
     (if negb (String.eqb head "") && negb (String.eqb tail "")
         && negb (os_path_exists E m head)
      then
        try_except (os_makedirs E fuel head)
          (fun e => if is_FileExistsError e then ret tt else raise e) ;;
        ret (String.eqb tail ".")
      else ret false) ;;
   if finished : bool then ret tt else mkdir_exist_ok E name).
Proof. reflexivity. Qed.

Lemma mkdir_exist_ok_inv name w w' r :
  wf (fs w) -> normalised name -> mkdir_exist_ok E name w = (w', r) ->
  match fs w !! name with
  | Some Dir => w' = w /\ r = Ok tt
  | Some (File _) => w' = w /\ exists e, r = Raise e
  | None =>
      match fs w !! Path.dirname name with
      | Some Dir =>
          w' = World (<[name := Dir]> (fs w)) (calls w) (written w) /\ r = Ok tt
      | _ => w' = w /\ exists e, r = Raise e
      end
  end.
Proof using cwd_abs.
  intros Hwf Hnf. unfold mkdir_exist_ok, try_except.
  rewrite os_mkdir_eq, (key_of_nf E name Hnf).
  pose proof (os_path_isdir_nf E cwd_abs _ _ Hwf Hnf) as Hisdir.
  destruct (fs w !! name) as [[|?]|] eqn:Hk; simpl.
  - unfold bind, get_fs. rewrite Hisdir. by intros [= <- <-].
  - unfold bind, get_fs. rewrite Hisdir. intros [= <- <-]. eauto.
  - destruct (fs w !! Path.dirname name) as [[|?]|] eqn:Hd; simpl.
    + by intros [= <- <-].
    + unfold bind, get_fs. rewrite Hisdir. intros [= <- <-]. eauto.
    + unfold bind, get_fs. rewrite Hisdir. intros [= <- <-]. eauto.
Qed.

Lemma made_dirs_refl name m : wf m -> m !! name = Some Dir -> made_dirs name m m.
Proof. intros Hwf Hdir. split; [done|]. split; [done|]. split; [done|]. by intros j. Qed.

Lemma is_under_fuel_mono n n' (d k : string) :
  n <= n' -> is_under_fuel n d k = true -> is_under_fuel n' d k = true.
Proof.
  revert n' k. induction n as [|n IH]; intros n' k Hle; simpl.
  - rewrite orb_false_r. intros Heq. destruct n'; simpl; by rewrite Heq.
  - destruct n' as [|n']; [lia|]. simpl.
    intros [Heq|[Hne Hu]%andb_true_iff]%orb_true_iff; [by rewrite Heq|].
    rewrite Hne, (IH n') by (done || lia). by rewrite orb_true_r.
Qed.

Lemma is_under_step (d name : string) :
  String.length (Path.dirname name) < String.length name ->
  is_under d (Path.dirname name) = true -> is_under d name = true.
Proof.
  intros Hlen Hu. unfold is_under in *.
  destruct (String.length name) as [|n] eqn:Hn; [lia|]. simpl.
  assert (String.eqb (Path.dirname name) name = false) as ->.
  { apply String.eqb_neq. intros Heq. rewrite Heq in Hlen. lia. }
  simpl. rewrite (is_under_fuel_mono (String.length (Path.dirname name)) n)
    by (done || lia).
  by rewrite orb_true_r.
Qed.

Lemma made_dirs_step name parent m m1 :
  wf m1 -> m1 !! parent = Some Dir -> m1 !! name = None ->
  Path.dirname name = parent -> String.length parent < String.length name ->
  m !! name = None ->
  (forall j, m1 !! j <> m !! j ->
     m !! j = None /\ m1 !! j = Some Dir /\ Path.dirname j <> j
     /\ String.length j <= String.length parent /\ is_under j parent = true) ->
  made_dirs name m (<[name := Dir]> m1).
Proof.
  intros Hwf Hpar Hname Hdir Hlen Hname0 Hch. split.
  { apply wf_insert; [done..|]. by rewrite Hdir. }
  split; [apply lookup_insert_eq|]. split; [congruence|].
  intros j Hj. destruct (decide (j = name)) as [->|Hne].
  - rewrite lookup_insert_eq. split; [done|]. split; [done|]. split.
    { rewrite Hdir. congruence. }
    split; [done|]. apply is_under_refl.
  - rewrite lookup_insert_ne in Hj |- * by done.
    destruct (Hch j Hj) as (? & ? & ? & ? & Hu). split; [done|]. split; [done|].
    split; [done|]. split; [lia|].
    apply is_under_step; rewrite Hdir; done.
Qed.

Lemma makedirs_render k cs : k = 1 \/ k = 2 -> Forall plain cs ->
  forall fuel w w' r,
    length cs < fuel -> wf (fs w) ->
    os_makedirs E fuel (render k cs) w = (w', r) ->
    match r with
    | Raise _ => w' = w
    | Ok _ =>
        calls w' = calls w /\ written w' = written w
        /\ made_dirs (render k cs) (fs w) (fs w')
    end.
Proof using cwd_abs.
  intros Hk. assert (k <> 0) as Hk0 by (destruct Hk; lia).
  induction cs as [|x cs IH] using rev_ind; intros Hcs fuel w w' r Hfuel Hwf.
  - destruct fuel as [|fuel]; [simpl in Hfuel; lia|]. rewrite os_makedirs_S.
    unfold path_split. rewrite dirname_render_nil, basename_render_nil by done.
    change (String.eqb "" "") with true. cbv beta iota. unfold path_split.
    rewrite ?dirname_render_nil, ?basename_render_nil by done.
    change (String.eqb "" "") with true. cbv beta iota.
    simpl negb. rewrite andb_false_r. simpl andb. cbv beta iota.
    intros [(e & ? & _)|(w1 & m & [= <- <-] & H2)]%bind_inv; [done|].
    apply bind_inv in H2 as [(e & ? & _)|(w1 & b & [= <- <-] & H2)]; [done|].
    apply mkdir_exist_ok_inv in H2; [|done|by exists k, []].
    rewrite dirname_render_nil in H2 by done.
    destruct (fs w !! render k []) as [[|?]|] eqn:Hn.
    + destruct H2 as [-> ->]. split; [done|]. split; [done|]. by apply made_dirs_refl.
    + by destruct H2 as [-> [e ->]].
    + by destruct H2 as [-> [e ->]].
  - apply Forall_app in Hcs as [Hcs [Hx _]%Forall_cons].
    destruct fuel as [|fuel]; [lia|]. rewrite length_app in Hfuel. simpl in Hfuel.
    assert (normalised (render k cs)) as Hnf_head by (by exists k, cs).
    assert (normalised (render k (cs ++ [x]))) as Hnf.
    { exists k, (cs ++ [x]). split; [done|]. split; [|done].
      apply Forall_app. split; [done|by apply Forall_singleton]. }
    assert (x <> "" /\ x <> ".") as [Hx1 Hx2] by (destruct Hx as (? & ? & _); done).
    pose proof (render_snoc_longer k cs x Hx1) as Hlonger.
    rewrite os_makedirs_S. unfold path_split.
    rewrite dirname_render_snoc, basename_render_snoc by done.
    apply String.eqb_neq in Hx1 as Hx1', Hx2 as Hx2'. rewrite Hx1'. cbv beta iota.
    rewrite Hx1', Hx2'.
    assert (String.eqb (render k cs) "" = false) as ->.
    { apply String.eqb_neq. by apply render_ne_nil. }
    simpl negb. simpl andb.
    intros [(e & ? & _)|(w1 & m & [= <- <-] & H2)]%bind_inv; [done|].
    rewrite (os_path_exists_nf E cwd_abs _ _ Hwf Hnf_head) in H2.
    destruct (fs w !! render k cs) as [hn|] eqn:Hhead; simpl negb in H2;
      cbv iota in H2.
    + (* the parent exists *)
      apply bind_inv in H2 as [(e & ? & _)|(w1 & b & [= <- <-] & H2)]; [done|].
      apply mkdir_exist_ok_inv in H2; [|done..].
      rewrite dirname_render_snoc, Hhead in H2 by done.
      destruct (fs w !! render k (cs ++ [x])) as [[|?]|] eqn:Hn.
      * destruct H2 as [-> ->]. split; [done|]. split; [done|].
        by apply made_dirs_refl.
      * by destruct H2 as [-> [e ->]].
      * destruct hn as [|?]; [|by destruct H2 as [-> [e ->]]].
        destruct H2 as [-> ->]. split; [done|]. split; [done|]. simpl.
        eapply made_dirs_step;
          first [done | by apply dirname_render_snoc | lia].
    + (* the parent is made first *)
      assert (fs w !! render k (cs ++ [x]) = None) as Hname.
      { destruct (fs w !! render k (cs ++ [x])) as [n|] eqn:Hn; [|done].
        pose proof (wf_lookup _ _ _ Hwf Hn) as Hp.
        rewrite dirname_render_snoc in Hp by done. congruence. }
      apply bind_inv in H2 as [(e & H2 & ->)|(w1 & b & H2 & H3)].
      * apply bind_inv in H2 as [(e' & H2 & [= <-])|(w2 & [] & _ & ?)]; [|done].
        apply try_except_inv in H2 as [(a & ? & ?)|(w1 & e' & H2 & H3)]; [done|].
        apply IH in H2; [|done|lia|done]. subst w1.
        destruct (is_FileExistsError e'); [done|]. by injection H3 as <- _.
      * apply bind_inv in H2 as [(e' & _ & ?)|(w2 & [] & H2 & [= <- <-])]; [done|].
        apply try_except_inv in H2 as [(a & H2 & _)|(w1 & e' & H2 & H4)].
        -- apply IH in H2; [|done|lia|done].
           destruct H2 as (Hc2 & Hw2 & Hwf2 & Hdir2 & _ & Hch).
           apply mkdir_exist_ok_inv in H3; [|done..].
           rewrite dirname_render_snoc in H3 by done.
           assert (fs w2 !! render k (cs ++ [x]) = None) as Hname2.
           { destruct (decide (fs w2 !! render k (cs ++ [x])
                               = fs w !! render k (cs ++ [x]))) as [Heq|Hne];
               [congruence|].
             apply Hch in Hne as (_ & _ & _ & Hlen & _). lia. }
           rewrite Hname2, Hdir2 in H3. destruct H3 as [-> ->]. simpl.
           split; [done|]. split; [done|].
           eapply made_dirs_step;
             first [done | by apply dirname_render_snoc | lia].
        -- apply IH in H2; [|done|lia|done]. subst w1.
           assert (w2 = w) as ->.
           { destruct (is_FileExistsError e'); by injection H4 as <-. }
           apply mkdir_exist_ok_inv in H3; [|done..].
           rewrite dirname_render_snoc in H3 by done.
           rewrite Hname, Hhead in H3. by destruct H3 as [-> [e ->]].
Qed.

(** [os.makedirs] on a normalised path. *)
Lemma makedirs_inv name w w' r :
  normalised name -> wf (fs w) ->
  os_makedirs E (S (String.length name)) name w = (w', r) ->
  match r with
  | Raise _ => w' = w
  | Ok _ =>
      calls w' = calls w /\ written w' = written w
      /\ made_dirs name (fs w) (fs w')
  end.
Proof using cwd_abs.
  intros (k & cs & Hk & Hcs & ->) Hwf. apply makedirs_render; [done..| |done].
  clear -Hcs. unfold render. rewrite slength_app.
  assert (length cs <= String.length (Py.join_with Path.sep cs)); [|lia].
  induction cs as [|x [|y cs] IH]; [simpl; lia| |].
  - apply Forall_cons in Hcs as [(Hx & _) _]. destruct x; [done|simpl; lia].
  - apply Forall_cons in Hcs as [(Hx & _) Hcs]. rewrite join_with_cons2.
    rewrite !slength_app. specialize (IH Hcs). simpl in *. lia.
Qed.

End Makedirs.

Lemma world_eq (w w' : world) :
  fs w' = fs w -> calls w' = calls w -> written w' = written w -> w' = w.
Proof. destruct w, w'. simpl. by intros -> -> ->. Qed.

Section Validate.

Variable E : Env.
Hypothesis cwd_abs : Path.isabs (cwd E) = true.

Implicit Types (m : fsmap) (w : world) (p d : string).

Lemma check_inputs_inv files w w' r :
  check_inputs E files w = (w', r) ->
  w' = w
  /\ match r with
     | Ok _ => Forall (fun f => os_path_isfile E (fs w) f = true) files
     | Raise e =>
         exists f, f ∈ files /\ os_path_isfile E (fs w) f = false
                   /\ e = Exn ValueError ("Input file not found: " +:+ f) None
     end.
Proof.
  revert w' r. induction files as [|f files IH]; intros w' r; simpl.
  - intros [= <- <-]. done.
  - unfold bind at 1, get_fs.
    destruct (os_path_isfile E (fs w) f) eqn:Hf; simpl.
    + intros H. destruct (IH _ _ H) as [-> Hr]. split; [done|].
      destruct r as [[]|e].
      * by apply Forall_cons.
      * destruct Hr as (f' & ? & ? & ?). exists f'. split; [by right|done].
    + intros [= <- <-]. split; [done|]. exists f. split; [by left|done].
Qed.

(** Lines 75-95: validation raises with the world as it was, or passes
    with the parent directory of the output made. *)
Lemma validate_request_inv input_files output_path overwrite w w1 r :
  wf (fs w) ->
  validate_request E input_files output_path overwrite w = (w1, r) ->
  match r with
  | Raise _ => w1 = w
  | Ok (files, out_path) =>
      has_PdfMerger E = true
      /\ files = kept_inputs input_files /\ files <> []
      /\ Forall (fun f => os_path_isfile E (fs w) f = true) files
      /\ out_path = Path.abspath (cwd E) output_path
      /\ calls w1 = calls w /\ written w1 = written w
      /\ made_dirs (Path.dirname out_path) (fs w) (fs w1)
      /\ fs w1 !! out_path <> Some Dir
      /\ (overwrite = false -> fs w1 !! out_path = None)
  end.
Proof using cwd_abs.
  intros Hwf. unfold validate_request. fold (kept_inputs input_files).
  destruct (has_PdfMerger E); simpl; [|by intros [= <- <-]].
  case_bool_decide as Hnil; [by intros [= <- <-]|].
  intros [(e & H1 & ->)|(w0 & [] & H1 & H2)]%bind_inv.
  { by apply check_inputs_inv in H1 as [-> _]. }
  apply check_inputs_inv in H1 as [-> Hfiles].
  set (out := Path.abspath (cwd E) output_path) in *.
  assert (normalised out) as Hout by (by apply abspath_nf).
  destruct (nf_dirname out Hout) as [Hdir Hlen].
  assert (String.eqb (Path.dirname out) "" = false) as Hne.
  { apply String.eqb_neq. intros Heq. rewrite Heq in Hdir.
    by apply nf_isabs in Hdir. }
  rewrite Hne in H2.
  apply bind_inv in H2 as [(e & H2 & ->)|(w2 & [] & H2 & H3)].
  { by apply makedirs_inv in H2. }
  apply makedirs_inv in H2 as (Hc & Hwr & Hmade); [|done..].
  unfold bind, get_fs in H3.
  rewrite (os_path_isdir_nf E cwd_abs _ _ (proj1 Hmade) Hout),
    (os_path_exists_nf E cwd_abs _ _ (proj1 Hmade) Hout) in H3.
  assert (fs w2 !! out <> None -> w2 = w) as Hsame.
  { intros Hex. apply world_eq; [|done..].
    destruct Hmade as (_ & _ & Hid & Hch). apply Hid.
    destruct (decide (fs w2 !! out = fs w !! out)) as [Heq|Hneq].
    - destruct (fs w !! out) as [n|] eqn:Hn; [|congruence].
      by eapply wf_lookup.
    - apply Hch in Hneq as (_ & _ & Hd & Hl & _). destruct Hlen; [done|lia]. }
  destruct (fs w2 !! out) as [[|dt]|] eqn:Hk.
  - injection H3 as <- <-. by apply Hsame.
  - simpl in H3. destruct overwrite; simpl in H3; injection H3 as <- <-.
    + split_and!; try done; congruence.
    + by apply Hsame.
  - simpl in H3. injection H3 as <- <-. split_and!; try done; congruence.
Qed.

End Validate.

(** ** The conversions write below the temporary directory *)

Section Confined.

Variable E : Env.
Hypothesis cwd_abs : Path.isabs (cwd E) = true.

Lemma reads_only_img2pdf_call src o : reads_only (img2pdf_call E src o).
Proof.
  unfold img2pdf_call.
  repeat first [ apply reads_only_bind; [|intros ?] | apply reads_only_log
               | apply reads_only_get_fs | apply reads_only_lift
               | apply reads_only_ret ].
Qed.

Lemma tagged_under d (tag : string) a tag' p ext :
  normalised d ->
  tag = String a tag' -> a <> Py.dot ->
  Py.has_char Py.slash tag = false -> Py.has_char Py.slash ext = false ->
  is_under d (key E (Path.join d (tag +:+ Path.stem p +:+ ext))) = true.
Proof.
  intros Hd Htag Ha Hs He.
  pose proof (plain_tagged tag a tag' p ext Htag Ha Hs He) as Hplain.
  destruct (nf_join d _ Hd Hplain) as (Hnf & _ & _).
  rewrite (key_of_nf E _ Hnf). by apply is_under_join.
Qed.

Ltac solve_preserves :=
  repeat first
    [ apply with_open_wb_confined;
      [ first [apply reads_only_ret | apply reads_only_img2pdf_call]
      | first [assumption | by eapply tagged_under] ]
    | apply preserves_try_except; [|intros ?]
    | apply preserves_if
    | apply preserves_log | apply preserves_get_fs | apply preserves_lift
    | apply preserves_ret | apply preserves_raise
    | apply preserves_bind; [|intros ?] ].

Lemma _image_to_pdf_confined d img_path out_pdf :
  normalised d -> is_under d (key E out_pdf) = true ->
  preserves (confined d) (_image_to_pdf E img_path out_pdf d).
Proof using cwd_abs.
  intros Hd Hout. unfold _image_to_pdf, image_fallback. solve_preserves.
Qed.

Lemma _text_to_pdf_confined d txt_path out_pdf :
  is_under d (key E out_pdf) = true ->
  preserves (confined d) (_text_to_pdf E txt_path out_pdf).
Proof.
  intros Hout. unfold _text_to_pdf, read_text, doc_build. solve_preserves.
  destruct (namei _ _ _) as [?|k]; [apply preserves_raise|].
  destruct (_ !! _) as [[|?]|]; solve_preserves.
Qed.

Lemma convert_to_pdf_confined d f :
  normalised d -> preserves (confined d) (convert_to_pdf E f (Some d)).
Proof using cwd_abs.
  intros Hd. unfold convert_to_pdf. simpl default.
  apply preserves_bind; [apply preserves_get_fs|intros m].
  apply preserves_if; [apply preserves_raise|].
  apply preserves_if.
  { apply preserves_bind; [|intros ?; apply preserves_ret].
    apply _image_to_pdf_confined; [done|]. by eapply tagged_under. }
  apply preserves_if.
  { apply preserves_bind; [|intros ?; apply preserves_ret].
    apply _text_to_pdf_confined. by eapply tagged_under. }
  apply preserves_if; [|apply preserves_raise].
  apply preserves_if; [apply preserves_raise|].
  unfold docx2pdf_call. solve_preserves.
Qed.

Lemma collect_pdf_paths_confined d files :
  normalised d -> preserves (confined d) (collect_pdf_paths E d files).
Proof using cwd_abs.
  intros Hd. induction files as [|f files IH]; simpl.
  - apply preserves_ret.
  - apply preserves_bind.
    + repeat apply preserves_if;
        [apply preserves_ret|by apply convert_to_pdf_confined
        |apply preserves_raise].
    + intros ?. apply preserves_bind; [done|]. intros ?. apply preserves_ret.
Qed.

Lemma merger_append_world merger pdf w w' r :
  merger_append E merger pdf w = (w', r) -> w' = w.
Proof.
  unfold merger_append, bind, get_fs.
  destruct (namei E (fs w) pdf) as [?|k]; [by intros [= <- _]|].
  destruct (fs w !! k) as [[|[ps|bs]]|]; try by intros [= <- _].
  unfold lift. destruct (PdfReader E bs); by intros [= <- _].
Qed.

Lemma append_all_world pdf_paths merger w w' r :
  append_all E merger pdf_paths w = (w', r) -> w' = w.
Proof.
  revert merger. induction pdf_paths as [|pdf rest IH]; intros merger; simpl.
  - by intros [= <- _].
  - intros [(e & H1 & _)|(w1 & a & H1 & H2)]%bind_inv.
    + by eapply merger_append_world.
    + apply merger_append_world in H1 as ->. by eapply IH.
Qed.

End Confined.

Lemma try_finally_inv {A} (m : M A) c w w' r :
  try_finally m c w = (w', r) ->
  exists w1 r1, m w = (w1, r1)
    /\ ((exists u, c w1 = (w', Ok u) /\ r = r1)
        \/ (exists e, c w1 = (w', Raise e) /\ r = Raise e)).
Proof.
  unfold try_finally. destruct (m w) as [w1 r1]. exists w1, r1. split; [done|].
  destruct (c w1) as [w2 [u|e]]; injection H as <- <-; eauto.
Qed.

Section RunMerge.

Variable E : Env.
Hypothesis cwd_abs : Path.isabs (cwd E) = true.

Implicit Types (m : fsmap) (w : world) (p d : string).

Lemma rmtree_eq d w :
  rmtree E d w
  = (World (filter (fun kv => is_under (key E d) kv.1 = false) (fs w))
       (calls w) (written w), Ok tt).
Proof. reflexivity. Qed.

Lemma with_open_wb_ret p dt w :
  with_open_wb E p (ret dt) w =
  match fs w !! key E p with
  | Some Dir => (w, Raise (EISDIR p))
  | _ =>
      match fs w !! Path.dirname (key E p) with
      | Some Dir =>
          (World (<[key E p := File dt]> (fs w)) (calls w)
             (written w ++ [(key E p, dt)]), Ok tt)
      | Some (File _) => (w, Raise (ENOTDIR p))
      | None => (w, Raise (ENOENT p))
      end
  end.
Proof.
  unfold with_open_wb, bind at 1. rewrite open_wb_eq.
  destruct (fs w !! key E p) as [[|?]|]; [done| |];
    destruct (fs w !! Path.dirname (key E p)) as [[|?]|]; try done;
    unfold bind, ret; rewrite f_write_eq; simpl; by rewrite insert_insert_eq.
Qed.

(** Removing the temporary directory undoes what was confined to it. *)
Lemma cleanup_restores d m1 m3 :
  wf m1 -> m1 !! d = None -> confined d (<[d := Dir]> m1) m3 ->
  filter (fun kv : string * node => is_under d kv.1 = false) m3 = m1.
Proof.
  intros Hwf Hd [Hout _]. apply map_eq. intros k. apply option_eq. intros x.
  rewrite map_lookup_filter_Some. simpl. split.
  - intros [Hk Hu]. rewrite (Hout k Hu) in Hk.
    rewrite lookup_insert_ne in Hk; [done|]. intros <-.
    by rewrite is_under_refl in Hu.
  - intros Hk. assert (is_under d k = false) as Hu.
    { destruct (is_under d k) eqn:Hu; [|done].
      unfold is_under in Hu. rewrite (under_absent _ _ _ _ Hwf Hd Hu) in Hk. done. }
    split; [|done]. rewrite (Hout k Hu). rewrite lookup_insert_ne; [done|].
    intros <-. by rewrite is_under_refl in Hu.
Qed.

Lemma merge_except_eq e w :
  merge_except e w
  = (w, Raise (if is_FileExistsError e then e
               else Exn MergeError ("Failed to merge PDFs: " +:+ exn_msg e) (Some e))).
Proof. unfold merge_except. by destruct (is_FileExistsError e). Qed.

(** The temporary directory is gone when [run_merge] ends, whatever the
    outcome. *)
Lemma run_merge_tmpdir_gone files out_path w1 w2 d w' r :
  TemporaryDirectory E w1 = (w2, Ok d) ->
  run_merge E files out_path w1 = (w', r) ->
  forall k, is_under d k = true -> fs w' !! k = None.
Proof using cwd_abs.
  intros Htmp. unfold run_merge. rewrite (bind_Ok _ _ _ _ _ Htmp).
  intros (w3 & r1 & _ & [(u & Hc & _)|(e & Hc & _)])%try_finally_inv;
    rewrite rmtree_eq in Hc; [|done].
  injection Hc as <- _. simpl. intros k Hk.
  apply mkdtemp_inv in Htmp as (Hd & _); [|done].
  rewrite (key_of_nf E d Hd). apply map_lookup_filter_None. right.
  intros x _. simpl. congruence.
Qed.

Lemma merger_write_eq p mg w :
  merger_write E p mg w =
  match fs w !! key E p with
  | Some Dir => (w, Raise (EISDIR p))
  | _ =>
      match fs w !! Path.dirname (key E p) with
      | Some Dir =>
          match merger_defect mg with
          | None =>
              (World (<[key E p := File (Pdf (merger_pages mg))]> (fs w)) (calls w)
                 (written w ++ [(key E p, Pdf (merger_pages mg))]), Ok tt)
          | Some (e, partial) =>
              (World (<[key E p := File (Raw partial)]> (fs w)) (calls w)
                 (written w ++ [(key E p, Raw partial)]), Raise e)
          end
      | Some (File _) => (w, Raise (ENOTDIR p))
      | None => (w, Raise (ENOENT p))
      end
  end.
Proof.
  unfold merger_write, bind at 1. rewrite open_wb_eq.
  destruct (fs w !! key E p) as [[|?]|]; [done| |];
    destruct (fs w !! Path.dirname (key E p)) as [[|?]|]; try done;
    destruct (merger_defect mg) as [[e partial]|];
    unfold bind, raise; rewrite f_write_eq; simpl; by rewrite insert_insert_eq.
Qed.

(** Lines 109-138 in a temporary directory [d]: the conversions write
    below [d]; the write makes the output, the document when it succeeds
    and what was written before the failure when it does not. *)
Lemma merge_try_inv files out_path d w2 wc rt :
  normalised d -> normalised out_path ->
  merge_try E files out_path d w2 = (wc, rt) ->
  (confined d (fs w2) (fs wc) /\ exists e, rt = Raise e)
  \/ exists w4 pdf_paths merger,
       collect_pdf_paths E d files w2 = (w4, Ok pdf_paths)
       /\ append_all E new_merger pdf_paths w4 = (w4, Ok merger)
       /\ confined d (fs w2) (fs w4)
       /\ fs w4 !! final_path out_path <> Some Dir
       /\ match merger_defect merger with
          | None =>
              rt = Ok (final_path out_path)
              /\ fs wc = <[final_path out_path := File (Pdf (merger_pages merger))]>
                           (fs w4)
          | Some (e, partial) =>
              rt = Raise e
              /\ fs wc = <[final_path out_path := File (Raw partial)]> (fs w4)
          end.
Proof using cwd_abs.
  intros Hd Hout. unfold merge_try.
  intros [(e' & Hcol & ->)|(w4 & paths & Hcol & H3)]%bind_inv.
  { left. split; [by eapply collect_pdf_paths_confined|by eexists]. }
  pose proof (collect_pdf_paths_confined E cwd_abs d files Hd _ _ _ Hcol) as Hconf.
  apply bind_inv in H3 as [(e' & Happ & ->)|(w5 & merger & Happ & H4)].
  { apply append_all_world in Happ as ->. left. split; [done|by eexists]. }
  pose proof (append_all_world E _ _ _ _ _ Happ) as ->.
  pose proof (nf_final_path _ Hout) as Hfin.
  assert (forall w6 r6,
            merger_write E (final_path out_path) merger w4 = (w6, r6) ->
            (w6 = w4 /\ exists e, r6 = Raise e)
            \/ (fs w4 !! final_path out_path <> Some Dir
                /\ match merger_defect merger with
                   | None =>
                       r6 = Ok tt
                       /\ fs w6 = <[final_path out_path :=
                                      File (Pdf (merger_pages merger))]> (fs w4)
                   | Some (e, partial) =>
                       r6 = Raise e
                       /\ fs w6 = <[final_path out_path := File (Raw partial)]>
                                    (fs w4)
                   end)) as Hwrite.
  { intros w6 r6. rewrite merger_write_eq, (key_of_nf E _ Hfin).
    destruct (fs w4 !! final_path out_path) as [[|?]|] eqn:Hk;
      [intros [= <- <-]; left; eauto| |];
      destruct (fs w4 !! Path.dirname (final_path out_path)) as [[|?]|];
      try (intros [= <- <-]; left; by eauto);
      destruct (merger_defect merger) as [[e partial]|];
      intros [= <- <-]; right; done. }
  apply bind_inv in H4 as [(e' & H4 & ->)|(w6 & [] & H4 & [= <- <-])].
  - apply Hwrite in H4 as [[-> _]|[Hnd H4]].
    { left. split; [done|by eexists]. }
    right. exists w4, paths, merger. split_and!; try done.
    destruct (merger_defect merger) as [[e partial]|]; [|by destruct H4].
    destruct H4 as [[= <-] ?]. done.
  - apply Hwrite in H4 as [[_ [? ?]]|[Hnd H4]]; [done|].
    right. exists w4, paths, merger. split_and!; try done.
    destruct (merger_defect merger) as [[e partial]|]; [by destruct H4|].
    by destruct H4.
Qed.

(** Lines 105-156 on a validated request. *)
Lemma run_merge_inv files out_path w1 w' r :
  wf (fs w1) -> normalised out_path ->
  fs w1 !! Path.dirname out_path = Some Dir ->
  run_merge E files out_path w1 = (w', r) ->
  (fs w' = fs w1 /\ exists e, r = Raise e)
  \/ exists d w2 w3 pdf_paths merger,
       TemporaryDirectory E w1 = (w2, Ok d)
       /\ collect_pdf_paths E d files w2 = (w3, Ok pdf_paths)
       /\ append_all E new_merger pdf_paths w3 = (w3, Ok merger)
       /\ fs w1 !! final_path out_path <> Some Dir
       /\ match merger_defect merger with
          | None =>
              r = Ok (final_path out_path)
              /\ fs w' = <[final_path out_path := File (Pdf (merger_pages merger))]>
                           (fs w1)
          | Some (e, partial) =>
              (exists e', r = Raise e')
              /\ fs w' = <[final_path out_path := File (Raw partial)]> (fs w1)
          end.
Proof using cwd_abs.
  intros Hwf Hout Hpar. unfold run_merge.
  intros [(e & H1 & ->)|(w2 & d & H1 & H2)]%bind_inv.
  { apply mkdtemp_inv in H1; [|done]. subst. left. eauto. }
  pose proof H1 as Htmp.
  apply mkdtemp_inv in H1 as (Hd & Hfresh & _ & Hw2); [|done].
  apply try_finally_inv in H2 as (w3 & r1 & H2 & [(u & Hc & ->)|(e & Hc & _)]);
    rewrite rmtree_eq in Hc; [|done].
  injection Hc as <-. simpl. rewrite (key_of_nf E d Hd).
  assert (fs w2 = <[d := Dir]> (fs w1)) as Hfs2 by (by subst w2).
  assert (forall wc, confined d (fs w2) (fs wc) ->
            filter (fun kv : string * node => is_under d kv.1 = false) (fs wc)
            = fs w1) as Hrestore.
  { intros wc Hc. rewrite Hfs2 in Hc. by eapply cleanup_restores. }
  assert (exists wt rt, merge_try E files out_path d w2 = (wt, rt)
                        /\ fs w3 = fs wt
                        /\ match rt with
                           | Ok p => r1 = Ok p
                           | Raise _ => exists e', r1 = Raise e'
                           end) as (wt & rt & Htry & -> & Hr1).
  { apply try_except_inv in H2 as [(a & H2 & ->)|(wc & e & H2 & H3)].
    - by exists w3, (Ok a).
    - rewrite merge_except_eq in H3. injection H3 as <- <-.
      exists wc, (Raise e). split_and!; [done..|by eexists]. }
  apply merge_try_inv in Htry
    as [[Hconf [e ->]]|(w4 & paths & merger & Hcol & Happ & Hconf & Hnd & Hm)];
    [| |done..].
  { left. split; [by apply Hrestore|]. destruct Hr1 as [e' ->]. by eexists. }
  assert (is_under d (final_path out_path) = false) as Hnu.
  { destruct (is_under d (final_path out_path)) eqn:Hu; [|done]. exfalso.
    apply is_under_inv in Hu as [Heq|[n Hu]].
    - apply Hnd. rewrite Heq. apply Hconf. rewrite Hfs2. apply lookup_insert_eq.
    - rewrite dirname_final_path in Hu.
      rewrite (under_absent _ _ _ _ Hwf Hfresh Hu) in Hpar. done. }
  right. exists d, w2, w4, paths, merger. split_and!; try done.
  { intros Hdir. apply Hnd. apply Hconf. rewrite Hfs2.
    rewrite lookup_insert_ne; [done|]. intros Heq. rewrite <- Heq in Hdir.
    congruence. }
  destruct (merger_defect merger) as [[e partial]|].
  - destruct Hm as [-> ->]. split; [done|].
    rewrite map_filter_insert_True by done. by rewrite Hrestore.
  - destruct Hm as [-> ->]. split; [done|].
    rewrite map_filter_insert_True by done. by rewrite Hrestore.
Qed.

End RunMerge.

(** * The statements *)

Global Instance wf_dec (m : fsmap) : Decision (wf m).
Proof. unfold wf. apply _. Defined.

Lemma example_wf : wf example_fs.
Proof. apply (bool_decide_unpack _). vm_compute. exact I. Qed.

(** ** Failures of validation and of the merge *)

Section FailurePaths.

Variable E : Env.
Hypothesis cwd_abs : Path.isabs (cwd E) = true.

Implicit Types (m : fsmap) (w : world) (p d : string).

Lemma merge_pdfs_after_validation input_files output_path overwrite w w1 files out_path :
  validate_request E input_files output_path overwrite w = (w1, Ok (files, out_path)) ->
  merge_pdfs E input_files output_path overwrite w = run_merge E files out_path w1.
Proof. intros H. unfold merge_pdfs. by rewrite (bind_Ok _ _ _ _ _ H). Qed.

Lemma merge_pdfs_validation_raises input_files output_path overwrite w w1 e :
  validate_request E input_files output_path overwrite w = (w1, Raise e) ->
  merge_pdfs E input_files output_path overwrite w = (w1, Raise e).
Proof. intros H. unfold merge_pdfs. by rewrite (bind_Raise _ _ _ _ _ H). Qed.

(** C3.  When the validation of lines 75-95 raises -- no input left, an
    input that is no file, an output path that is a directory, an output
    that exists without [overwrite] -- [merge_pdfs] raises that exception
    and the world is as it was: no file or directory is made or changed. *)
Theorem validation_failure_has_no_effect input_files output_path overwrite w w1 e :
  wf (fs w) ->
  validate_request E input_files output_path overwrite w = (w1, Raise e) ->
  merge_pdfs E input_files output_path overwrite w = (w, Raise e).
Proof using cwd_abs.
  intros Hwf Hval.
  pose proof (validate_request_inv E cwd_abs _ _ _ _ _ _ Hwf Hval) as Hw.
  simpl in Hw. subst w1. by apply merge_pdfs_validation_raises.
Qed.

(** C5, as the code has it.  What validation raises, [FileExistsError]
    included, is raised by [merge_pdfs] as it is.  What the [try] block
    raises -- conversion, concatenation, the write -- is raised as a
    [MergeError] whose cause it is, unless it is a [FileExistsError], which
    is raised as it is. *)
Theorem merge_failure_wrapping input_files output_path overwrite w w1 r1 :
  validate_request E input_files output_path overwrite w = (w1, r1) ->
  match r1 with
  | Raise e => merge_pdfs E input_files output_path overwrite w = (w1, Raise e)
  | Ok (files, out_path) =>
      forall w2 tmpdir w3 e,
        TemporaryDirectory E w1 = (w2, Ok tmpdir) ->
        merge_try E files out_path tmpdir w2 = (w3, Raise e) ->
        exists w',
          merge_pdfs E input_files output_path overwrite w
          = (w', Raise (if is_FileExistsError e then e
                        else Exn MergeError
                               ("Failed to merge PDFs: " +:+ exn_msg e) (Some e)))
  end.
Proof.
  intros Hval. destruct r1 as [[files out_path]|e].
  - intros w2 tmpdir w3 e Htmp Htry.
    rewrite (merge_pdfs_after_validation _ _ _ _ _ _ _ Hval).
    unfold run_merge. rewrite (bind_Ok _ _ _ _ _ Htmp).
    unfold try_finally, try_except. rewrite Htry, merge_except_eq, rmtree_eq.
    by eexists.
  - by apply merge_pdfs_validation_raises.
Qed.

End FailurePaths.

(** An output path that is a directory: the call raises and the world is
    the same. *)
Lemma validation_failure_has_no_effect_witness :
  merge_pdfs example_env ["a.pdf"] "/w/old" false example_world
  = (example_world,
     Raise (Exn ValueError "Output path points to a directory, not a file." None)).
Proof.
  apply (validation_failure_has_no_effect example_env eq_refl
           ["a.pdf"] "/w/old" false example_world example_world).
  - exact example_wf.
  - vm_compute. reflexivity.
Defined.

(** An input of no supported type: the [ValueError] of line 120 comes out
    as the cause of a [MergeError]. *)
Lemma merge_failure_wrapping_witness :
  exists w',
    merge_pdfs example_env ["a.pdf"; "d.xyz"] "out.pdf" false example_world
    = (w', Raise (Exn MergeError "Failed to merge PDFs: Unsupported input type: d.xyz"
                    (Some (Exn ValueError "Unsupported input type: d.xyz" None)))).
Proof.
  refine (merge_failure_wrapping example_env
            ["a.pdf"; "d.xyz"] "out.pdf" false example_world _ (Ok (_, _)) _
            _ _ _ (Exn ValueError "Unsupported input type: d.xyz" None) _ _).
  - vm_compute. reflexivity.
  - vm_compute. reflexivity.
  - vm_compute. reflexivity.
Defined.

(** C5, as stated, fails: a [FileExistsError] raised during conversion is
    not wrapped. *)
Lemma conversion_failure_not_wrapped :
  (merge_pdfs example_env_docx ["a.pdf"; "r.docx"] "out.pdf" false example_world).2
  = Raise (Exn FileExistsError "[Errno 17] File exists: 'r.pdf'" None)
  /\ (convert_to_pdf example_env_docx "r.docx" (Some "/tmp/tmpb")
        (World (<["/tmp/tmpb" := Dir]> example_fs) [] [])).2
     = Raise (Exn FileExistsError "[Errno 17] File exists: 'r.pdf'" None).
Proof. split; vm_compute; reflexivity. Qed.

(** ** The path written *)

Section OutputPath.

Variable E : Env.
Hypothesis cwd_abs : Path.isabs (cwd E) = true.

Implicit Types (m : fsmap) (w : world) (p d : string).

(** What a call of [merge_pdfs] leaves: the directories made for the
    output, and the output file: the document when it returns, and what
    was written of it when the write fails. *)
Lemma merge_pdfs_effect input_files output_path overwrite w w' r :
  wf (fs w) ->
  merge_pdfs E input_files output_path overwrite w = (w', r) ->
  exists m1,
    (forall j, m1 !! j <> fs w !! j ->
       fs w !! j = None /\ m1 !! j = Some Dir
       /\ is_under j (Path.dirname (Path.abspath (cwd E) output_path)) = true)
    /\ match r with
       | Ok p =>
           p = final_path (Path.abspath (cwd E) output_path)
           /\ m1 !! p <> Some Dir
           /\ exists pages, fs w' = <[p := File (Pdf pages)]> m1
       | Raise _ =>
           fs w' = m1
           \/ (m1 !! final_path (Path.abspath (cwd E) output_path) <> Some Dir
               /\ exists partial,
                    fs w' = <[final_path (Path.abspath (cwd E) output_path) :=
                                File (Raw partial)]> m1)
       end.
Proof using cwd_abs.
  intros Hwf. unfold merge_pdfs.
  intros [(e & Hval & ->)|(w1 & [files out_path] & Hval & Hrun)]%bind_inv.
  - apply validate_request_inv in Hval; [|done..]. subst w'.
    exists (fs w). split; [by intros j|by left].
  - apply validate_request_inv in Hval
      as (_ & _ & _ & _ & -> & _ & _ & Hmade & _ & _); [|done..].
    destruct Hmade as (Hwf1 & Hdir & _ & Hch). simpl in Hrun.
    exists (fs w1). split.
    { intros j Hj. destruct (Hch j Hj) as (? & ? & _ & _ & ?). done. }
    apply run_merge_inv in Hrun
      as [[-> [e ->]]|(d & w2 & w3 & paths & merger & _ & _ & _ & Hnd & Hm)];
      [by left| |first [done|by apply abspath_nf]..].
    destruct (merger_defect merger) as [[e partial]|].
    + destruct Hm as [[e' ->] ->]. right. split; [done|]. by exists partial.
    + destruct Hm as [-> ->]. split; [done|]. split; [done|]. by eexists.
Qed.

(** C2, as the code has it.  The path written and returned is the absolute
    output path with [.pdf] appended when it has no extension, and the
    absolute output path itself when it has one, [.pdf] or not.  No other
    file is written, whether the call returns or raises: a call that
    raises leaves at most the file at that path changed, by a write that
    failed. *)
Theorem output_path_written input_files output_path overwrite w w' r :
  wf (fs w) ->
  merge_pdfs E input_files output_path overwrite w = (w', r) ->
  let out_path := Path.abspath (cwd E) output_path in
  let written_path :=
    if String.eqb (Path.splitext out_path).2 "" then out_path +:+ ".pdf"
    else out_path in
  (forall p, r = Ok p ->
     p = written_path /\ exists pages, fs w' !! p = Some (File (Pdf pages)))
  /\ (forall k dt, k <> written_path ->
        fs w' !! k = Some (File dt) -> fs w !! k = Some (File dt)).
Proof using cwd_abs.
  intros Hwf Hrun out_path written_path.
  destruct (merge_pdfs_effect _ _ _ _ _ _ Hwf Hrun) as (m1 & Hm1 & Hr).
  assert (forall k dt, m1 !! k = Some (File dt) -> fs w !! k = Some (File dt)) as Hfiles.
  { intros k dt Hk. destruct (decide (m1 !! k = fs w !! k)) as [<-|Hne]; [done|].
    destruct (Hm1 k Hne) as (_ & ? & _). congruence. }
  assert (final_path out_path = written_path) as Hfin.
  { unfold written_path.
    destruct (String.eqb_spec (Path.splitext out_path).2 "") as [Hext|Hext].
    - by apply final_path_noext.
    - by apply final_path_ext. }
  fold out_path in Hr. rewrite Hfin in Hr. split.
  - intros p ->. destruct Hr as (-> & _ & pages & Hfs). split; [done|].
    exists pages. rewrite Hfs. apply lookup_insert_eq.
  - intros k dt Hk. destruct r as [p|e].
    + destruct Hr as (-> & _ & pages & ->). rewrite lookup_insert_ne by done.
      apply Hfiles.
    + destruct Hr as [->|(_ & partial & ->)]; [apply Hfiles|].
      rewrite lookup_insert_ne by done. apply Hfiles.
Qed.

Lemma collect_pdf_paths_pdfs tmpdir files w :
  Forall (fun f => Py.lower (Path.suffix f) = ".pdf") files ->
  collect_pdf_paths E tmpdir files w = (w, Ok files).
Proof.
  induction 1 as [|f files Hf _ IH]; [done|]. simpl.
  rewrite Hf. simpl. unfold bind at 1, ret at 1. unfold bind at 1. by rewrite IH.
Qed.

Lemma append_all_pdfs m0 files w merger :
  (forall k n, m0 !! k = Some n -> fs w !! k = Some n) ->
  Forall (fun f => os_path_isfile E m0 f = true) files ->
  Forall (fun f => is_Some (file_is_pdf (m0 !! key E f))) files ->
  append_all E merger files w
  = (w, Ok {| merger_pages :=
                merger_pages merger ++ concat (map (pages_of E m0) files);
              merger_defect := merger_defect merger |}).
Proof using cwd_abs.
  intros Hsub Hfound Hfiles. revert merger Hfound.
  induction Hfiles as [|f files [ps Hf] _ IH]; intros merger Hfound; simpl.
  - rewrite app_nil_r. by destruct merger.
  - apply Forall_cons in Hfound as [Hf0 Hfound].
    apply os_path_isfile_key in Hf0 as [Hwalk _]; [|done].
    apply (namei_mono E m0 (fs w)) in Hwalk; [|intros j; apply Hsub].
    unfold pages_of at 1. rewrite Hf. simpl.
    unfold file_is_pdf in Hf.
    destruct (m0 !! key E f) as [[|[ps'|]]|] eqn:Hk; try done.
    injection Hf as ->. unfold bind at 1, merger_append, bind at 1, get_fs.
    rewrite Hwalk, (Hsub _ _ Hk). unfold ret. rewrite IH by done. simpl.
    by rewrite <- app_assoc.
Qed.

Lemma kept_inputs_pdfs input_files :
  Forall (fun f => Py.lower (Path.suffix f) = ".pdf") input_files ->
  kept_inputs input_files = input_files.
Proof.
  induction 1 as [|f files Hf _ IH]; [done|]. unfold kept_inputs in *. simpl.
  apply pdf_suffix_not_blank, String.eqb_neq in Hf. rewrite Hf. simpl. by rewrite IH.
Qed.

Lemma made_dirs_keeps name m m1 k n :
  made_dirs name m m1 -> m !! k = Some n -> m1 !! k = Some n.
Proof.
  intros (_ & _ & _ & Hch) Hk.
  destruct (decide (m1 !! k = m !! k)) as [->|Hne]; [done|].
  destruct (Hch k Hne) as (? & _). congruence.
Qed.

(** A call whose request passes validation and whose conversions and
    appends succeed: it opens the output and writes; the outcome is that
    of the write. *)
Lemma merge_pdfs_writes input_files output_path overwrite w w1 files out_path
    w2 tmpdir w3 pdf_paths merger :
  wf (fs w) ->
  validate_request E input_files output_path overwrite w = (w1, Ok (files, out_path)) ->
  TemporaryDirectory E w1 = (w2, Ok tmpdir) ->
  collect_pdf_paths E tmpdir files w2 = (w3, Ok pdf_paths) ->
  append_all E new_merger pdf_paths w3 = (w3, Ok merger) ->
  fs w2 !! final_path out_path <> Some Dir ->
  exists w',
    merge_pdfs E input_files output_path overwrite w
    = (w', match merger_defect merger with
           | None => Ok (final_path out_path)
           | Some (e, _) =>
               Raise (if is_FileExistsError e then e
                      else Exn MergeError ("Failed to merge PDFs: " +:+ exn_msg e)
                             (Some e))
           end)
    /\ fs w' = <[final_path out_path :=
                   File (match merger_defect merger with
                         | None => Pdf (merger_pages merger)
                         | Some (_, partial) => Raw partial
                         end)]> (fs w1).
Proof using cwd_abs.
  intros Hwf Hval Htmp Hcol Happ Hnd.
  rewrite (merge_pdfs_after_validation E _ _ _ _ _ _ _ Hval).
  apply validate_request_inv in Hval
    as (_ & _ & _ & _ & -> & _ & _ & Hmade & _ & _); [|done..].
  set (out_path := Path.abspath (cwd E) output_path) in *.
  assert (normalised out_path) as Hout by (by apply abspath_nf).
  pose proof (nf_final_path _ Hout) as Hfin.
  destruct Hmade as (Hwf1 & Hdir & _).
  pose proof Htmp as Htmp'.
  apply mkdtemp_inv in Htmp' as (Hd & Hfresh & _ & Hw2); [|done].
  assert (fs w2 = <[tmpdir := Dir]> (fs w1)) as Hfs2 by (by subst w2).
  pose proof (collect_pdf_paths_confined E cwd_abs tmpdir files Hd _ _ _ Hcol)
    as Hconf.
  assert (is_under tmpdir (final_path out_path) = false) as Hnu.
  { destruct (is_under tmpdir (final_path out_path)) eqn:Hu; [|done]. exfalso.
    apply is_under_inv in Hu as [Heq|[n Hu]].
    - apply Hnd. rewrite Heq, Hfs2. apply lookup_insert_eq.
    - rewrite dirname_final_path in Hu.
      rewrite (under_absent _ _ _ _ Hwf1 Hfresh Hu) in Hdir. done. }
  assert (fs w3 !! final_path out_path <> Some Dir) as Hnd3.
  { destruct Hconf as [Hout3 _]. by rewrite (Hout3 _ Hnu). }
  assert (fs w3 !! Path.dirname (final_path out_path) = Some Dir) as Hpar3.
  { destruct Hconf as [_ Hdirs]. apply Hdirs. rewrite dirname_final_path, Hfs2.
    rewrite lookup_insert_ne; [done|]. congruence. }
  assert (filter (fun kv : string * node => is_under tmpdir kv.1 = false) (fs w3)
          = fs w1) as Hrestore.
  { rewrite Hfs2 in Hconf. by eapply cleanup_restores. }
  unfold run_merge. rewrite (bind_Ok _ _ _ _ _ Htmp).
  unfold try_finally, try_except, merge_try.
  rewrite (bind_Ok _ _ _ _ _ Hcol), (bind_Ok _ _ _ _ _ Happ).
  unfold bind at 1. rewrite merger_write_eq.
  rewrite (key_of_nf E _ Hfin), Hpar3.
  destruct (merger_defect merger) as [[e partial]|];
    destruct (fs w3 !! final_path out_path) as [[|?]|]; try done;
    rewrite ?merge_except_eq; unfold ret; rewrite rmtree_eq, (key_of_nf E _ Hd);
    eexists; (split; [reflexivity|]); simpl;
    rewrite map_filter_insert_True by done; by rewrite Hrestore.
Qed.

(** The merge of PDF inputs, once the request is validated and a temporary
    directory is made. *)
Lemma merge_pdfs_of_pdfs input_files output_path overwrite w w1 files out_path w2 tmpdir :
  wf (fs w) ->
  Forall (pdf_input E (fs w)) input_files ->
  validate_request E input_files output_path overwrite w = (w1, Ok (files, out_path)) ->
  TemporaryDirectory E w1 = (w2, Ok tmpdir) ->
  fs w2 !! final_path out_path <> Some Dir ->
  exists w',
    merge_pdfs E input_files output_path overwrite w = (w', Ok (final_path out_path))
    /\ fs w' = <[final_path out_path :=
                   File (Pdf (concat (map (pages_of E (fs w)) input_files)))]> (fs w1).
Proof using cwd_abs.
  intros Hwf Hin Hval Htmp Hnd.
  pose proof Hval as Hval'.
  apply validate_request_inv in Hval'
    as (_ & -> & _ & Hfound & -> & _ & _ & Hmade & _ & _); [|done..].
  rewrite kept_inputs_pdfs in * by (eapply Forall_impl; [exact Hin|by intros f []]).
  pose proof Htmp as Htmp'.
  apply mkdtemp_inv in Htmp' as (Hd & Hfresh & _ & Hw2); [|done].
  assert (forall k n, fs w !! k = Some n -> fs w2 !! k = Some n) as Hsub.
  { intros k n Hk. apply (made_dirs_keeps _ _ _ _ _ Hmade) in Hk.
    rewrite Hw2. simpl. rewrite lookup_insert_ne; [done|]. congruence. }
  pose proof (collect_pdf_paths_pdfs tmpdir input_files w2
                ltac:(eapply Forall_impl; [exact Hin|by intros f []])) as Hcol.
  pose proof (append_all_pdfs (fs w) input_files w2 new_merger Hsub Hfound
                ltac:(eapply Forall_impl; [exact Hin|by intros f []])) as Happ.
  simpl in Happ.
  destruct (merge_pdfs_writes _ _ _ _ _ _ _ _ _ _ _ _ Hwf Hval Htmp Hcol Happ Hnd)
    as (w' & Hrun & Hfs).
  exists w'. done.
Qed.

End OutputPath.

(** ** The merged document, the temporary directory, unsupported inputs *)

Section MergeResults.

Variable E : Env.
Hypothesis cwd_abs : Path.isabs (cwd E) = true.

Implicit Types (m : fsmap) (w : world) (p d : string).

(** C1.  For a list of existing PDF files whose request passes validation,
    with a temporary directory made and the path to write no directory,
    [merge_pdfs] returns, and the file at the path it returns is the PDF
    whose pages are those of the inputs, concatenated in the order of the
    list; their number is the sum of the inputs' page counts. *)
Theorem merge_pdfs_concatenates input_files output_path overwrite w w1 request w2 tmpdir :
  wf (fs w) ->
  Forall (pdf_input E (fs w)) input_files ->
  validate_request E input_files output_path overwrite w = (w1, Ok request) ->
  TemporaryDirectory E w1 = (w2, Ok tmpdir) ->
  os_path_isdir E (fs w2) (final_path request.2) = false ->
  exists w' p,
    merge_pdfs E input_files output_path overwrite w = (w', Ok p)
    /\ fs w' !! key E p
       = Some (File (Pdf (concat (map (pages_of E (fs w)) input_files))))
    /\ length (concat (map (pages_of E (fs w)) input_files))
       = sum_list (map (fun f => length (pages_of E (fs w) f)) input_files).
Proof using cwd_abs.
  intros Hwf Hin Hval Htmp Hnd. destruct request as [files out_path].
  assert (normalised (final_path out_path) /\ wf (fs w1)) as [Hfin Hwf1].
  { apply validate_request_inv in Hval
      as (_ & _ & _ & _ & -> & _ & _ & Hmade & _); [|done..].
    split; [by apply nf_final_path, abspath_nf|apply Hmade]. }
  assert (wf (fs w2)) as Hwf2.
  { pose proof Htmp as Ht.
    apply mkdtemp_inv in Ht as (_ & Hfresh & Hpar & ->); [|done].
    by apply wf_insert. }
  simpl in Hnd. rewrite (os_path_isdir_nf E cwd_abs _ _ Hwf2 Hfin) in Hnd.
  destruct (merge_pdfs_of_pdfs E cwd_abs _ _ _ _ _ _ _ _ _ Hwf Hin Hval Htmp)
    as (w' & Hrun & Hfs).
  { intros Heq. by rewrite Heq in Hnd. }
  exists w', (final_path out_path). split; [done|]. split.
  - rewrite (key_of_nf E _ Hfin), Hfs. apply lookup_insert_eq.
  - rewrite length_concat, map_map. done.
Qed.

(** C4.  Whatever the outcome of [merge_pdfs]: a temporary directory made
    by the call, and everything below it, is gone when the call ends; and
    what exists after the call and did not before is the file returned, or
    the output file as a write that failed left it, or a directory made on
    the way to the output. *)
Theorem temporary_directory_removed input_files output_path overwrite w w' r :
  wf (fs w) ->
  merge_pdfs E input_files output_path overwrite w = (w', r) ->
  (forall w1 request w2 tmpdir,
     validate_request E input_files output_path overwrite w = (w1, Ok request) ->
     TemporaryDirectory E w1 = (w2, Ok tmpdir) ->
     fs w2 !! tmpdir = Some Dir
     /\ forall k, is_under tmpdir k = true -> fs w' !! k = None)
  /\ (forall k, fs w' !! k <> None -> fs w !! k = None ->
        r = Ok k
        \/ ((exists e, r = Raise e)
            /\ k = final_path (Path.abspath (cwd E) output_path)
            /\ exists partial, fs w' !! k = Some (File (Raw partial)))
        \/ (fs w' !! k = Some Dir
            /\ is_under k (Path.dirname (Path.abspath (cwd E) output_path)) = true)).
Proof using cwd_abs.
  intros Hwf Hrun. split.
  - intros w1 [files out_path] w2 tmpdir Hval Htmp.
    rewrite (merge_pdfs_after_validation E _ _ _ _ _ _ _ Hval) in Hrun. split.
    + apply mkdtemp_inv in Htmp as (_ & _ & _ & ->); [|done]. apply lookup_insert_eq.
    + by eapply run_merge_tmpdir_gone.
  - intros k Hk Hk0.
    destruct (merge_pdfs_effect E cwd_abs _ _ _ _ _ _ Hwf Hrun) as (m1 & Hm1 & Hr).
    assert (m1 !! k <> None ->
            m1 !! k = Some Dir
            /\ is_under k (Path.dirname (Path.abspath (cwd E) output_path)) = true)
      as Hnew.
    { intros Hne. destruct (Hm1 k) as (_ & ? & ?); [congruence|done]. }
    destruct r as [p|e].
    + destruct Hr as (-> & _ & pages & Hfs). rewrite Hfs in Hk |- *.
      destruct (decide (k = final_path (Path.abspath (cwd E) output_path)))
        as [->|Hne]; [by left|].
      right. right. rewrite lookup_insert_ne in Hk |- * by done. by apply Hnew.
    + right. destruct Hr as [Hfs|(_ & partial & Hfs)]; rewrite Hfs in Hk |- *.
      { right. by apply Hnew. }
      destruct (decide (k = final_path (Path.abspath (cwd E) output_path)))
        as [->|Hne].
      * left. split; [by eexists|]. split; [done|]. exists partial.
        apply lookup_insert_eq.
      * right. rewrite lookup_insert_ne in Hk |- * by done. by apply Hnew.
Qed.

Lemma not_in_exts (ext : string) :
  ext ∉ IMAGE_EXTS ++ TEXT_EXTS ++ DOCX_EXTS ->
  bool_decide (ext ∈ IMAGE_EXTS) = false
  /\ bool_decide (ext ∈ TEXT_EXTS) = false
  /\ bool_decide (ext ∈ DOCX_EXTS) = false.
Proof.
  rewrite !not_elem_of_app. intros (? & ? & ?).
  by rewrite !bool_decide_eq_false_2.
Qed.

Lemma is_supported_nonpdf_false f :
  Py.lower (Path.suffix f) ∉ IMAGE_EXTS ++ TEXT_EXTS ++ DOCX_EXTS ->
  is_supported_nonpdf E f = false.
Proof.
  intros (H1 & H2 & H3)%not_in_exts. unfold is_supported_nonpdf.
  by rewrite H1, H2, H3.
Qed.

Lemma collect_pdf_paths_unsupported tmpdir files f w w' r :
  f ∈ files ->
  Py.lower (Path.suffix f) ∉ ".pdf" :: IMAGE_EXTS ++ TEXT_EXTS ++ DOCX_EXTS ->
  collect_pdf_paths E tmpdir files w = (w', r) ->
  exists e, r = Raise e.
Proof.
  intros Hf Hext. revert w w' r.
  induction files as [|g files IH]; intros w w' r.
  { by apply elem_of_nil in Hf. }
  simpl.
  intros [(e & _ & ->)|(w1 & a & H1 & H2)]%bind_inv; [by eexists|].
  apply elem_of_cons in Hf as [<-|Hf].
  - assert (String.eqb (Py.lower (Path.suffix f)) ".pdf" = false) as Hpdf.
    { apply String.eqb_neq. intros Heq. apply Hext. rewrite Heq. by left. }
    rewrite Hpdf, is_supported_nonpdf_false in H1; [done|].
    intros Hin. apply Hext. by right.
  - apply bind_inv in H2 as [(e & _ & ->)|(w2 & b & H2 & _)]; [by eexists|].
    destruct (IH Hf _ _ _ H2) as [e ?]. done.
Qed.

(** C6.  [convert_to_pdf] on a file whose extension is none of the image,
    text and word-processor ones raises [ValueError] with the extension in
    its message, and changes nothing.  A call of [merge_pdfs] with an entry
    that is not blank and whose extension is none of those nor [.pdf]
    raises, and every file there is after the call was there before, with
    the same content: no output is written. *)
Theorem unsupported_input_aborts :
  (forall input_path tmp_dir w,
     os_path_isfile E (fs w) (key E input_path) = true ->
     Py.lower (Path.suffix (key E input_path))
       ∉ IMAGE_EXTS ++ TEXT_EXTS ++ DOCX_EXTS ->
     convert_to_pdf E input_path tmp_dir w
     = (w, Raise (Exn ValueError
                    ("Unsupported file type for conversion: "
                     +:+ Py.lower (Path.suffix (key E input_path))) None)))
  /\ (forall input_files output_path overwrite f w w' r,
        wf (fs w) ->
        f ∈ input_files -> Py.strip f <> "" ->
        Py.lower (Path.suffix f) ∉ ".pdf" :: IMAGE_EXTS ++ TEXT_EXTS ++ DOCX_EXTS ->
        merge_pdfs E input_files output_path overwrite w = (w', r) ->
        (exists e, r = Raise e)
        /\ forall k dt, fs w' !! k = Some (File dt) -> fs w !! k = Some (File dt)).
Proof using cwd_abs.
  split.
  - intros input_path tmp_dir w Hfile Hext. unfold convert_to_pdf.
    apply not_in_exts in Hext as (H1 & H2 & H3).
    unfold bind, get_fs. rewrite Hfile. simpl negb. cbv iota.
    by rewrite H1, H2, H3.
  - intros input_files output_path overwrite f w w' r Hwf Hf Hblank Hext Hrun.
    unfold merge_pdfs in Hrun.
    apply bind_inv in Hrun as [(e & Hval & ->)|(w1 & [files out_path] & Hval & Hrun)].
    { apply validate_request_inv in Hval; [|done..]. subst w'.
      split; [by eexists|done]. }
    apply validate_request_inv in Hval
      as (_ & -> & _ & _ & -> & _ & _ & Hmade & _ & _); [|done..].
    pose proof Hmade as (Hwf1 & Hdir & _ & Hch).
    apply run_merge_inv in Hrun
      as [[Hfs [e ->]]|(d & w2 & w3 & paths & merger & _ & Hcol & _)];
      [| |first [done|by apply abspath_nf]..].
    + split; [by eexists|]. rewrite Hfs. intros k dt Hk.
      destruct (decide (fs w1 !! k = fs w !! k)) as [<-|Hne]; [done|].
      destruct (Hch k Hne) as (_ & ? & _). congruence.
    + eapply collect_pdf_paths_unsupported in Hcol as [e ?]; [done| |done].
      unfold kept_inputs. apply list_elem_of_In, filter_In. split.
      * by apply list_elem_of_In.
      * apply String.eqb_neq in Hblank. by rewrite Hblank.
Qed.

End MergeResults.

(** ** A file at the path with [.pdf] appended *)

Section FinalPath.

Variable E : Env.
Hypothesis cwd_abs : Path.isabs (cwd E) = true.

Implicit Types (m : fsmap) (w : world) (p d : string).

Lemma mkdir_exist_ok_dir name w :
  wf (fs w) -> normalised name -> fs w !! name = Some Dir ->
  mkdir_exist_ok E name w = (w, Ok tt).
Proof using cwd_abs.
  intros Hwf Hnf Hdir. destruct (mkdir_exist_ok E name w) as [w' r] eqn:H.
  apply mkdir_exist_ok_inv in H; [|done..]. rewrite Hdir in H. by destruct H as [-> ->].
Qed.

(** [os.makedirs] on a directory that exists does nothing. *)
Lemma makedirs_existing name fuel w :
  normalised name -> wf (fs w) -> fs w !! name = Some Dir ->
  os_makedirs E (S fuel) name w = (w, Ok tt).
Proof using cwd_abs.
  intros Hnf Hwf Hdir. pose proof Hnf as (k & cs & Hk & Hcs & ->).
  assert (k <> 0) as Hk0 by (destruct Hk; lia).
  rewrite os_makedirs_S. unfold path_split.
  destruct (decide (cs = [])) as [->|Hne].
  - rewrite dirname_render_nil, basename_render_nil by done.
    change (String.eqb "" "") with true. cbv beta iota. unfold path_split.
    rewrite ?dirname_render_nil, ?basename_render_nil by done.
    change (String.eqb "" "") with true. cbv beta iota.
    simpl negb. rewrite andb_false_r. simpl andb. cbv beta iota.
    unfold bind, get_fs, ret. by apply mkdir_exist_ok_dir.
  - destruct (exists_last Hne) as (cs' & x & ->).
    apply Forall_app in Hcs as [Hcs' [Hx _]%Forall_cons].
    rewrite dirname_render_snoc, basename_render_snoc by done.
    assert (String.eqb x "" = false) as Hx1.
    { apply String.eqb_neq. by destruct Hx. }
    rewrite Hx1. cbv beta iota. rewrite Hx1.
    pose proof (wf_lookup _ _ _ Hwf Hdir) as Hpar.
    rewrite dirname_render_snoc in Hpar by done.
    unfold bind at 1, get_fs.
    rewrite (os_path_exists_nf E cwd_abs _ (render k cs') Hwf)
      by (by exists k, cs').
    rewrite Hpar. simpl negb. rewrite andb_false_r. cbv iota.
    unfold bind, ret. by apply mkdir_exist_ok_dir.
Qed.

Lemma check_inputs_ok files w :
  Forall (fun f => os_path_isfile E (fs w) f = true) files ->
  check_inputs E files w = (w, Ok tt).
Proof.
  induction 1 as [|f files Hf _ IH]; [done|]. simpl.
  unfold bind, get_fs. by rewrite Hf.
Qed.

(** Validation passes when the inputs are files, the directory of the
    output is there, and the output is no directory and may be written. *)
Lemma validate_request_passes input_files output_path overwrite w :
  wf (fs w) ->
  has_PdfMerger E = true ->
  kept_inputs input_files <> [] ->
  Forall (fun f => os_path_isfile E (fs w) f = true) (kept_inputs input_files) ->
  fs w !! Path.dirname (Path.abspath (cwd E) output_path) = Some Dir ->
  fs w !! Path.abspath (cwd E) output_path <> Some Dir ->
  (overwrite = true \/ fs w !! Path.abspath (cwd E) output_path = None) ->
  validate_request E input_files output_path overwrite w
  = (w, Ok (kept_inputs input_files, Path.abspath (cwd E) output_path)).
Proof using cwd_abs.
  intros Hwf Hbackend Hne Hin Hdir Hnd Hov.
  set (out_path := Path.abspath (cwd E) output_path) in *.
  assert (normalised out_path) as Hnf by (by apply abspath_nf).
  unfold validate_request. rewrite Hbackend.
  change (negb true) with false. cbv beta iota zeta.
  rewrite bool_decide_eq_false_2 by done. cbv beta iota.
  rewrite (bind_Ok _ _ _ w tt) by (by apply check_inputs_ok).
  fold out_path.
  assert (String.eqb (Path.dirname out_path) "" = false) as ->.
  { apply String.eqb_neq. intros Heq.
    destruct (nf_dirname _ Hnf) as [Hd _]. rewrite Heq in Hd.
    by apply nf_isabs in Hd. }
  cbv beta iota. rewrite (bind_Ok _ _ _ w tt).
  2:{ apply makedirs_existing; [|done..]. by apply nf_dirname. }
  unfold bind, get_fs.
  rewrite (os_path_isdir_nf E cwd_abs _ _ Hwf Hnf),
    (os_path_exists_nf E cwd_abs _ _ Hwf Hnf).
  destruct (fs w !! out_path) as [[|dt]|] eqn:Hout; [done| |done].
  destruct Hov as [->|?]; done.
Qed.

(** C9, with the conditions it needs.  The existence check looks at the
    absolute output path as it was given, the write goes to the path with
    [.pdf] appended.  With [overwrite] false, inputs that are files, and an
    output path without extension at which nothing exists: validation
    passes though a file exists at that path plus [.pdf]; and when the
    conversions and the appends succeed and the document can be written,
    the call returns and that file holds the merged document instead of
    what it held. *)
Theorem existing_file_at_final_path_replaced input_files output_path w old
    w2 tmpdir w3 pdf_paths merger :
  wf (fs w) ->
  has_PdfMerger E = true ->
  kept_inputs input_files <> [] ->
  Forall (fun f => os_path_isfile E (fs w) f = true) (kept_inputs input_files) ->
  (Path.splitext (Path.abspath (cwd E) output_path)).2 = "" ->
  fs w !! Path.abspath (cwd E) output_path = None ->
  fs w !! (Path.abspath (cwd E) output_path +:+ ".pdf") = Some (File old) ->
  TemporaryDirectory E w = (w2, Ok tmpdir) ->
  collect_pdf_paths E tmpdir (kept_inputs input_files) w2 = (w3, Ok pdf_paths) ->
  append_all E new_merger pdf_paths w3 = (w3, Ok merger) ->
  merger_defect merger = None ->
  validate_request E input_files output_path false w
  = (w, Ok (kept_inputs input_files, Path.abspath (cwd E) output_path))
  /\ exists w',
       merge_pdfs E input_files output_path false w
       = (w', Ok (Path.abspath (cwd E) output_path +:+ ".pdf"))
       /\ fs w' !! (Path.abspath (cwd E) output_path +:+ ".pdf")
          = Some (File (Pdf (merger_pages merger))).
Proof using cwd_abs.
  intros Hwf Hbackend Hne Hin Hext Hout Hold Htmp Hcol Happ Hsound.
  set (out_path := Path.abspath (cwd E) output_path) in *.
  assert (normalised out_path) as Hnf by (by apply abspath_nf).
  pose proof (final_path_noext _ Hext) as Hfin.
  assert (fs w !! Path.dirname out_path = Some Dir) as Hdir.
  { rewrite <- (dirname_final_path out_path), Hfin. by eapply wf_lookup. }
  assert (validate_request E input_files output_path false w
          = (w, Ok (kept_inputs input_files, out_path))) as Hval.
  { apply validate_request_passes; try done.
    - fold out_path. congruence.
    - by right. }
  split; [done|].
  destruct (merge_pdfs_writes E cwd_abs _ _ _ _ _ _ _ _ _ _ _ _
              Hwf Hval Htmp Hcol Happ) as (w' & Hrun & Hfs).
  { apply mkdtemp_inv in Htmp as (_ & Hfresh & _ & ->); [|done]. simpl.
    rewrite Hfin. rewrite lookup_insert_ne by congruence. congruence. }
  rewrite Hsound, Hfin in Hrun, Hfs. exists w'. split; [done|].
  rewrite Hfs. apply lookup_insert_eq.
Qed.

End FinalPath.

(** ** The image converter *)

Section ImageFallback.

Variable E : Env.

Implicit Types (m : fsmap) (w : world) (p d : string).

(** The test on the message comes to one containment: a message with
    [invalid rotation] in it has [rotation] in it. *)
Lemma contains_app_r needle s t :
  Py.contains needle t = true -> Py.contains needle (s +:+ t) = true.
Proof.
  intros Ht. induction s as [|a s IH]; [done|].
  rewrite sapp_cons. simpl. rewrite IH. by rewrite orb_true_r.
Qed.

Lemma prefix_app_inv s t u :
  String.prefix (s +:+ t) u = true -> exists v, u = s +:+ v /\ String.prefix t v = true.
Proof.
  revert u. induction s as [|a s IH]; intros u.
  - rewrite sapp_nil_l. intros H. by exists u.
  - rewrite sapp_cons. destruct u as [|b u]; [done|]. rewrite prefix_cons.
    intros [Hab H]%andb_true_iff. apply Ascii.eqb_eq in Hab as ->.
    destruct (IH _ H) as (v & -> & Hv). by exists v.
Qed.

Lemma prefix_contains t v : String.prefix t v = true -> Py.contains t v = true.
Proof. intros H. destruct v; cbn [Py.contains]; by rewrite H. Qed.

Lemma contains_suffix s t u :
  Py.contains (s +:+ t) u = true -> Py.contains t u = true.
Proof.
  assert (forall x, String.prefix (s +:+ t) x = true -> Py.contains t x = true)
    as Hpre.
  { intros x H. destruct (prefix_app_inv _ _ _ H) as (v & Hx & Hp).
    rewrite Hx. by apply contains_app_r, prefix_contains. }
  induction u as [|b u IH].
  - cbn [Py.contains]. rewrite !orb_false_r. intros H.
    apply Hpre in H. cbn [Py.contains] in H. by rewrite orb_false_r in H.
  - intros H. change (String.prefix (s +:+ t) (String b u)
                      || Py.contains (s +:+ t) u = true) in H.
    apply orb_true_iff in H as [H|H]; [by apply Hpre|].
    change (String.prefix t (String b u) || Py.contains t u = true).
    rewrite (IH H). by rewrite orb_true_r.
Qed.

Lemma some_other_error_spec e :
  some_other_error e = negb (Py.contains "rotation" (Py.lower (exn_msg e))).
Proof.
  unfold some_other_error.
  destruct (Py.contains "rotation" (Py.lower (exn_msg e))) eqn:Hr.
  - by rewrite andb_false_r.
  - rewrite andb_true_r. f_equal.
    destruct (Py.contains "invalid rotation" _) eqn:Hi; [|done].
    apply (contains_suffix "invalid ") in Hi. congruence.
Qed.

(** The library calls of one attempt to encode [src] into [out]. *)
Lemma encode_attempt_calls out src opts w w' r :
  with_open_wb E out (img2pdf_call E src opts) w = (w', r) ->
  (calls w' = calls w /\ exists e, r = Raise e)
  \/ calls w' = calls w ++ [Img2pdfConvert src opts].
Proof.
  unfold with_open_wb.
  intros [(e & H1 & ->)|(w1 & [] & H1 & H2)]%bind_inv.
  - left. split; [|by eexists]. rewrite open_wb_eq in H1.
    destruct (fs w !! key E out) as [[|?]|];
      [by injection H1 as <-| |];
      destruct (fs w !! Path.dirname (key E out)) as [[|?]|];
      try done; by injection H1 as <-.
  - right.
    assert (calls w1 = calls w) as <-.
    { rewrite open_wb_eq in H1.
      destruct (fs w !! key E out) as [[|?]|]; [done| |];
        destruct (fs w !! Path.dirname (key E out)) as [[|?]|];
        try done; by injection H1 as <-. }
    apply bind_inv in H2 as [(e & H2 & ->)|(w2 & dt & H2 & H3)].
    + unfold img2pdf_call, bind, log, get_fs in H2. simpl in H2.
      destruct (img2pdf_convert E _ _ _); simpl in H2; by injection H2 as <-.
    + rewrite f_write_eq in H3. injection H3 as <- _. simpl.
      unfold img2pdf_call, bind, log, get_fs in H2. simpl in H2.
      destruct (img2pdf_convert E _ _ _); simpl in H2; [done|].
      by injection H2 as <-.
Qed.

Lemma with_open_wb_ret_calls out dt w w' r :
  with_open_wb E out (ret dt) w = (w', r) -> calls w' = calls w.
Proof.
  rewrite with_open_wb_ret.
  destruct (fs w !! key E out) as [[|?]|];
    [by intros [= <-]| |];
    destruct (fs w !! Path.dirname (key E out)) as [[|?]|];
    by intros [= <-].
Qed.

(** The library calls of a fallback that succeeds. *)
Lemma image_fallback_calls img_path out_pdf tmp_dir w w' :
  image_fallback E img_path out_pdf tmp_dir w = (w', Ok tt) ->
  calls w'
  = calls w
    ++ [ImageOpen img_path; ExifTranspose;
        ImageSave (Path.join tmp_dir ("fixed_" +:+ Path.stem img_path +:+ ".png"));
        Img2pdfConvert
          (Path.join tmp_dir ("fixed_" +:+ Path.stem img_path +:+ ".png"))
          fixed_opts].
Proof.
  unfold image_fallback.
  set (fx := Path.join tmp_dir ("fixed_" +:+ Path.stem img_path +:+ ".png")).
  intros [(? & _ & ?)|(w1 & [] & [= <-] & Ha)]%bind_inv; [done|].
  apply bind_inv in Ha as [(? & _ & ?)|(? & m & [= <-] & Hb)]; [done|].
  apply bind_inv in Hb as [(? & _ & ?)|(w2 & im & H1 & Hc)]; [done|].
  assert (w2 = World (fs w) (calls w ++ [ImageOpen img_path]) (written w)) as ->.
  { destruct (Image_open E _ _); simpl in H1; [done|]. by injection H1 as <-. }
  apply bind_inv in Hc as [(? & _ & ?)|(? & [] & [= <-] & Hd)]; [done|].
  apply bind_inv in Hd as [(? & _ & ?)|(w3 & fixed & H2 & He)]; [done|].
  assert (w3 = World (fs w) ((calls w ++ [ImageOpen img_path]) ++ [ExifTranspose])
                 (written w)) as ->.
  { destruct (exif_transpose E _); simpl in H2; [done|]. by injection H2 as <-. }
  apply bind_inv in He as [(? & _ & ?)|(? & [] & [= <-] & Hf)]; [done|].
  apply bind_inv in Hf as [(? & _ & ?)|(w4 & png & H3 & Hg)]; [done|].
  assert (w4 = World (fs w)
                 (((calls w ++ [ImageOpen img_path]) ++ [ExifTranspose])
                  ++ [ImageSave fx]) (written w)) as ->.
  { destruct (png_encode E _); simpl in H3; [done|]. by injection H3 as <-. }
  apply bind_inv in Hg as [(? & _ & ?)|(w5 & [] & H4 & Hh)]; [done|].
  apply with_open_wb_ret_calls in H4. simpl in H4.
  apply encode_attempt_calls in Hh as [[_ [? ?]]|Hh]; [done|].
  rewrite Hh, H4. by rewrite <- !app_assoc.
Qed.

(** One attempt of the source is one attempt of the description. *)
Lemma with_open_wb_img2pdf out src opts w :
  with_open_wb E out (img2pdf_call E src opts) w
  = spec_encode_attempt E out src opts w.
Proof.
  unfold with_open_wb, spec_encode_attempt, open_failure, bind at 1.
  rewrite open_wb_eq.
  destruct (fs w !! key E out) as [[|dt]|]; [done| |];
    (destruct (fs w !! Path.dirname (key E out)) as [[|?]|]; [|done..]);
    unfold bind, img2pdf_call, bind, log, get_fs; simpl;
    (destruct (img2pdf_convert E _ src opts) as [e|pages]; simpl; [done|]);
    rewrite f_write_eq; simpl; by rewrite insert_insert_eq.
Qed.

(** C7.  [_image_to_pdf] does what the chain of attempts describes, in
    every world and with the same effects.  The first attempt opens the
    output and encodes the image with [auto_orient] and, when img2pdf has
    it, [rotation=ifvalid]; when it succeeds that is the result.  When it
    fails with a message that does not contain [rotation], in any case of
    letters, that failure is the result and nothing more is called.  When
    the message contains [rotation], the image is opened and transposed
    with Pillow, saved as PNG in the temporary directory, and that file is
    encoded with [auto_orient=False]; when any of these steps fails, the
    result is that of encoding the original image with no option at all. *)
Theorem image_fallback_chain img_path out_pdf tmp_dir w :
  _image_to_pdf E img_path out_pdf tmp_dir w
  = spec_image_chain E img_path out_pdf tmp_dir w.
Proof.
  unfold _image_to_pdf, spec_image_chain, try_except.
  rewrite with_open_wb_img2pdf. fold (primary_opts E).
  destruct (spec_encode_attempt E out_pdf img_path (primary_opts E) w)
    as [w1 [[]|e]]; [done|].
  rewrite some_other_error_spec.
  destruct (Py.contains "rotation" (Py.lower (exn_msg e))); simpl; [|done].
  set (fx := Path.join tmp_dir ("fixed_" +:+ Path.stem img_path +:+ ".png")).
  unfold image_fallback. fold fx.
  unfold bind at 1, log at 1. unfold bind at 1, get_fs at 1. simpl fs.
  unfold bind at 1.
  destruct (Image_open E (fs w1) img_path) as [e1|im]; simpl;
    [by rewrite with_open_wb_img2pdf|].
  unfold bind at 1, log at 1. unfold bind at 1.
  destruct (exif_transpose E im) as [e2|upright]; simpl;
    [rewrite with_open_wb_img2pdf; by rewrite <- app_assoc|].
  unfold bind at 1, log at 1. unfold bind at 1.
  destruct (png_encode E upright) as [e3|png]; simpl;
    [rewrite with_open_wb_img2pdf; by rewrite <- !app_assoc|].
  unfold bind at 1. rewrite with_open_wb_ret. unfold open_failure. simpl fs.
  rewrite <- !app_assoc. simpl app.
  destruct (fs w1 !! key E fx) as [[|dt]|];
    [by rewrite with_open_wb_img2pdf| |];
    (destruct (fs w1 !! Path.dirname (key E fx)) as [[|?]|];
       [|by rewrite with_open_wb_img2pdf..]);
    rewrite with_open_wb_img2pdf; simpl calls; unfold fixed_opts;
    (destruct (spec_encode_attempt E out_pdf fx _ _) as [w3 [[]|e4]];
       [done|]);
    by rewrite with_open_wb_img2pdf.
Qed.

End ImageFallback.

(** A bad orientation tag in [p.png]. *)
Lemma image_fallback_chain_witness :
  _image_to_pdf example_env "/w/p.png" "/tmp/tmpa/img_p.pdf" "/tmp/tmpa" example_world
  = spec_image_chain example_env "/w/p.png" "/tmp/tmpa/img_p.pdf" "/tmp/tmpa"
      example_world.
Proof.
  exact (image_fallback_chain example_env "/w/p.png" "/tmp/tmpa/img_p.pdf" "/tmp/tmpa"
           example_world).
Defined.

(** The chain on the bad orientation tag: the first attempt fails on the
    rotation, the image is saved upright as PNG, and that file gives the
    page. *)
Example image_chain_example :
  spec_image_chain example_env "/w/p.png" "/tmp/tmpa/img_p.pdf" "/tmp/tmpa"
    example_world
  = (World (<["/tmp/tmpa/img_p.pdf" := File (Pdf [Page 137])]>
              (<["/tmp/tmpa/fixed_p.png" := File (Raw [x89])]> example_fs))
       [Img2pdfConvert "/w/p.png" {| auto_orient := Some true; rotation := Some IfValid |};
        ImageOpen "/w/p.png"; ExifTranspose; ImageSave "/tmp/tmpa/fixed_p.png";
        Img2pdfConvert "/tmp/tmpa/fixed_p.png"
          {| auto_orient := Some false; rotation := None |}]
       [("/tmp/tmpa/fixed_p.png", Raw [x89]); ("/tmp/tmpa/img_p.pdf", Pdf [Page 137])],
     Ok tt).
Proof. vm_compute. reflexivity. Qed.

(** An image img2pdf cannot read: the failure does not speak of the
    rotation and is the outcome, with the output left empty and nothing
    more called. *)
Example image_chain_other_failure :
  spec_image_chain example_env_unreadable "/w/p.png" "/tmp/tmpa/img_p.pdf" "/tmp/tmpa"
    example_world
  = (World (<["/tmp/tmpa/img_p.pdf" := File (Raw [])]> example_fs)
       [Img2pdfConvert "/w/p.png" {| auto_orient := Some true; rotation := Some IfValid |}]
       [],
     Raise (Exn (LibraryError "ImageOpenError") "cannot read input image" None)).
Proof. vm_compute. reflexivity. Qed.

(** A bad orientation tag: the first attempt fails on the rotation, the
    fallback gives the page. *)
Example bad_orientation_example :
  _image_to_pdf example_env "/w/p.png" "/tmp/tmpa/img_p.pdf" "/tmp/tmpa" example_world
  = (World (<["/tmp/tmpa/img_p.pdf" := File (Pdf [Page 137])]>
              (<["/tmp/tmpa/fixed_p.png" := File (Raw [x89])]> example_fs))
       [Img2pdfConvert "/w/p.png" {| auto_orient := Some true; rotation := Some IfValid |};
        ImageOpen "/w/p.png"; ExifTranspose; ImageSave "/tmp/tmpa/fixed_p.png";
        Img2pdfConvert "/tmp/tmpa/fixed_p.png"
          {| auto_orient := Some false; rotation := None |}]
       [("/tmp/tmpa/fixed_p.png", Raw [x89]); ("/tmp/tmpa/img_p.pdf", Pdf [Page 137])],
     Ok tt).
Proof. vm_compute. reflexivity. Qed.

(** ** The text converter *)

Section Utf8.

Implicit Types (t line : list N) (bs enc rest : list byte) (c : N) (b : byte).

Ltac Zify.zify_post_hook ::= Z.to_euclidean_division_equations.

Lemma to_N_lt b : (Byte.to_N b < 256)%N.
Proof. pose proof (Byte.to_N_bounded b). lia. Qed.

Lemma decode_cons errors b0 r0 :
  Text.decode errors (b0 :: r0)
  = let bad :=
      match errors with
      | Text.Strict => inl Text.undecodable
      | Text.Ignore => Text.decode errors r0
      end in
    let emit (c : N) (r : exn + list N) : exn + list N :=
      match r with inl e => inl e | inr t => inr (c :: t) end in
    let n0 := Byte.to_N b0 in
    if (n0 <? 128)%N then emit n0 (Text.decode errors r0)
    else if ((194 <=? n0) && (n0 <=? 223))%N then
      match r0 with
      | b1 :: r1 =>
          if Text.is_cont b1
          then emit ((n0 - 192) * 64 + Text.cont_bits b1)%N (Text.decode errors r1)
          else bad
      | [] => bad
      end
    else if ((224 <=? n0) && (n0 <=? 239))%N then
      match r0 with
      | b1 :: (b2 :: r2) =>
          if Text.second_ok n0 b1 && Text.is_cont b2
          then emit ((n0 - 224) * 4096 + Text.cont_bits b1 * 64 + Text.cont_bits b2)%N
                    (Text.decode errors r2)
          else bad
      | _ => bad
      end
    else if ((240 <=? n0) && (n0 <=? 244))%N then
      match r0 with
      | b1 :: (b2 :: (b3 :: r3)) =>
          if Text.second_ok n0 b1 && Text.is_cont b2 && Text.is_cont b3
          then emit ((n0 - 240) * 262144 + Text.cont_bits b1 * 4096
                     + Text.cont_bits b2 * 64 + Text.cont_bits b3)%N
                    (Text.decode errors r3)
          else bad
      | _ => bad
      end
    else bad.
Proof. destruct r0 as [|b1 [|b2 [|b3 r3]]]; reflexivity. Qed.

(** [Text.decode], one character at a time. *)
Lemma decode_by_step errors bs :
  Text.decode errors bs
  = match bs with
    | [] => inr []
    | b0 :: r0 =>
        match decode_step bs with
        | Some (c, rest) =>
            match Text.decode errors rest with
            | inl e => inl e
            | inr t => inr (c :: t)
            end
        | None =>
            match errors with
            | Text.Strict => inl Text.undecodable
            | Text.Ignore => Text.decode errors r0
            end
        end
    end.
Proof.
  destruct bs as [|b0 r0]; [done|]. rewrite decode_cons. unfold decode_step.
  cbv zeta.
  destruct (Byte.to_N b0 <? 128)%N; [done|].
  destruct ((194 <=? Byte.to_N b0) && (Byte.to_N b0 <=? 223))%N.
  { destruct r0 as [|b1 r1]; [done|]. by destruct (Text.is_cont b1). }
  destruct ((224 <=? Byte.to_N b0) && (Byte.to_N b0 <=? 239))%N.
  { destruct r0 as [|b1 [|b2 r2]]; [done..|]. by destruct (_ && _). }
  destruct ((240 <=? Byte.to_N b0) && (Byte.to_N b0 <=? 244))%N; [|done].
  destruct r0 as [|b1 [|b2 [|b3 r3]]]; [done..|]. by destruct (_ && _).
Qed.

Ltac b2p :=
  repeat match goal with
    | H : (_ && _) = true |- _ => apply andb_true_iff in H as [? ?]
    | H : (_ || _) = false |- _ => apply orb_false_iff in H as [? ?]
    | H : (_ <=? _)%N = true |- _ => apply N.leb_le in H
    | H : (_ <=? _)%N = false |- _ => apply N.leb_gt in H
    | H : (_ <? _)%N = true |- _ => apply N.ltb_lt in H
    | H : (_ <? _)%N = false |- _ => apply N.ltb_ge in H
    | H : (_ =? _)%N = true |- _ => apply N.eqb_eq in H
    | H : (_ =? _)%N = false |- _ => apply N.eqb_neq in H
    | H : (_ && _) = false |- _ => apply andb_false_iff in H as [H|H]
    | H : (_ || _) = true |- _ => apply orb_true_iff in H as [H|H]
    end.

Lemma is_cont_spec b :
  Text.is_cont b = true <-> (128 <= Byte.to_N b <= 191)%N.
Proof.
  unfold Text.is_cont. cbv zeta. rewrite andb_true_iff, !N.leb_le. tauto.
Qed.

Lemma second_ok_spec lead b :
  Text.second_ok lead b = true
  <-> (128 <= Byte.to_N b <= 191
       /\ (lead = 224 -> 160 <= Byte.to_N b)
       /\ (lead = 237 -> Byte.to_N b <= 159)
       /\ (lead = 240 -> 144 <= Byte.to_N b)
       /\ (lead = 244 -> Byte.to_N b <= 143))%N.
Proof.
  unfold Text.second_ok. cbv zeta.
  destruct (N.eqb_spec lead 224) as [->|?];
    [rewrite andb_true_iff, !N.leb_le; lia|].
  destruct (N.eqb_spec lead 237) as [->|?];
    [rewrite andb_true_iff, !N.leb_le; lia|].
  destruct (N.eqb_spec lead 240) as [->|?];
    [rewrite andb_true_iff, !N.leb_le; lia|].
  destruct (N.eqb_spec lead 244) as [->|?];
    [rewrite andb_true_iff, !N.leb_le; lia|].
  rewrite andb_true_iff, !N.leb_le. lia.
Qed.

(** What [decode_step] reads is the UTF-8 form of a character. *)
Lemma decode_step_sound bs c rest :
  decode_step bs = Some (c, rest) ->
  exists enc, bs = enc ++ rest /\ encodes enc c.
Proof.
  destruct bs as [|b0 r0]; [done|]. unfold decode_step. cbv zeta.
  pose proof (to_N_lt b0) as Hb0.
  destruct (Byte.to_N b0 <? 128)%N eqn:C1.
  { intros [= <- <-]. exists [b0]. split; [done|]. b2p. split.
    - unfold is_scalar. apply orb_true_iff. left. apply N.ltb_lt. lia.
    - unfold utf8. simpl. by rewrite (proj2 (N.ltb_lt _ _) C1). }
  destruct ((194 <=? Byte.to_N b0) && (Byte.to_N b0 <=? 223))%N eqn:C2.
  { destruct r0 as [|b1 r1]; [done|].
    destruct (Text.is_cont b1) eqn:D1; [|done]. intros [= <- <-].
    exists [b0; b1]. split; [done|]. apply is_cont_spec in D1. b2p.
    unfold Text.cont_bits.
    set (c := ((Byte.to_N b0 - 192) * 64 + (Byte.to_N b1 - 128))%N).
    assert (128 <= c < 2048)%N as Hc by (unfold c; lia).
    split.
    - unfold is_scalar. apply orb_true_iff. left. apply N.ltb_lt. lia.
    - unfold utf8.
      rewrite (proj2 (N.ltb_ge _ _)), (proj2 (N.ltb_lt _ _)) by lia.
      simpl. repeat f_equal; unfold c; lia. }
  destruct ((224 <=? Byte.to_N b0) && (Byte.to_N b0 <=? 239))%N eqn:C3.
  { destruct r0 as [|b1 [|b2 r2]]; [done..|].
    destruct (Text.second_ok (Byte.to_N b0) b1 && Text.is_cont b2) eqn:D1; [|done].
    intros [= <- <-]. exists [b0; b1; b2]. split; [done|].
    apply andb_true_iff in D1 as [D1 D2].
    apply second_ok_spec in D1 as (D1 & D224 & D237 & _).
    apply is_cont_spec in D2. apply andb_true_iff in C3 as [C3 C3'].
    apply N.leb_le in C3, C3'.
    unfold Text.cont_bits.
    set (c := ((Byte.to_N b0 - 224) * 4096 + (Byte.to_N b1 - 128) * 64
               + (Byte.to_N b2 - 128))%N).
    assert (2048 <= c < 65536 /\ (c < 55296 \/ 57343 < c))%N as [Hc Hs].
    { unfold c. destruct (N.eq_dec (Byte.to_N b0) 224%N) as [H0|H0];
        [specialize (D224 H0); lia|].
      destruct (N.eq_dec (Byte.to_N b0) 237%N) as [H1|H1];
        [specialize (D237 H1); lia|]. lia. }
    split.
    - unfold is_scalar. apply orb_true_iff. destruct Hs; [left|right].
      + apply N.ltb_lt. lia.
      + apply andb_true_iff. split; apply N.ltb_lt; lia.
    - unfold utf8.
      rewrite !(proj2 (N.ltb_ge _ _)), (proj2 (N.ltb_lt _ _)) by lia.
      simpl. repeat f_equal; unfold c in *; lia. }
  destruct ((240 <=? Byte.to_N b0) && (Byte.to_N b0 <=? 244))%N eqn:C4; [|done].
  destruct r0 as [|b1 [|b2 [|b3 r3]]]; [done..|].
  destruct (Text.second_ok (Byte.to_N b0) b1 && Text.is_cont b2 && Text.is_cont b3)
    eqn:D1; [|done].
  intros [= <- <-]. exists [b0; b1; b2; b3]. split; [done|].
  apply andb_true_iff in D1 as [D1 D3]. apply andb_true_iff in D1 as [D1 D2].
  apply second_ok_spec in D1 as (D1 & _ & _ & D240 & D244).
  apply is_cont_spec in D2, D3. apply andb_true_iff in C4 as [C4 C4'].
  apply N.leb_le in C4, C4'.
  unfold Text.cont_bits.
  set (c := ((Byte.to_N b0 - 240) * 262144 + (Byte.to_N b1 - 128) * 4096
             + (Byte.to_N b2 - 128) * 64 + (Byte.to_N b3 - 128))%N).
  assert (65536 <= c < 1114112)%N as Hc.
  { unfold c. destruct (N.eq_dec (Byte.to_N b0) 240%N) as [H0|H0];
      [specialize (D240 H0); lia|].
    destruct (N.eq_dec (Byte.to_N b0) 244%N) as [H1|H1];
      [specialize (D244 H1); lia|]. lia. }
  split.
  - unfold is_scalar. apply orb_true_iff. right.
    apply andb_true_iff. split; apply N.ltb_lt; lia.
  - unfold utf8. rewrite !(proj2 (N.ltb_ge _ _)) by lia.
    simpl. repeat f_equal; unfold c in *; lia.
Qed.

(** Where the UTF-8 form of a character stands, [decode_step] reads that
    character. *)
Lemma decode_step_complete enc c rest :
  encodes enc c -> decode_step (enc ++ rest) = Some (c, rest).
Proof.
  intros [Hs Henc]. unfold is_scalar in Hs. unfold utf8 in Henc.
  destruct (c <? 128)%N eqn:C1.
  { destruct enc as [|b0 [|? ?]]; try done. injection Henc as H0.
    simpl. rewrite H0. by rewrite C1. }
  destruct (c <? 2048)%N eqn:C2.
  { destruct enc as [|b0 [|b1 [|? ?]]]; try done. injection Henc as H0 H1.
    apply N.ltb_ge in C1. apply N.ltb_lt in C2.
    rewrite <- app_comm_cons. simpl app. unfold decode_step. cbv zeta.
    rewrite (proj2 (N.ltb_ge _ _)) by lia.
    assert (((194 <=? Byte.to_N b0) && (Byte.to_N b0 <=? 223))%N = true) as ->
      by (apply andb_true_iff; split; apply N.leb_le; lia).
    assert (Text.is_cont b1 = true) as -> by (apply is_cont_spec; lia).
    unfold Text.cont_bits. do 2 f_equal. lia. }
  destruct (c <? 65536)%N eqn:C3.
  { destruct enc as [|b0 [|b1 [|b2 [|? ?]]]]; try done.
    injection Henc as H0 H1 H2.
    apply N.ltb_ge in C1, C2. apply N.ltb_lt in C3.
    assert (c < 55296 \/ 57343 < c)%N as Hs'.
    { apply orb_true_iff in Hs as [Hs|Hs]; [left; by apply N.ltb_lt|right].
      apply andb_true_iff in Hs as [Hs _]. by apply N.ltb_lt. }
    rewrite <- app_comm_cons. simpl app. unfold decode_step. cbv zeta.
    rewrite (proj2 (N.ltb_ge _ _)) by lia.
    assert (((194 <=? Byte.to_N b0) && (Byte.to_N b0 <=? 223))%N = false) as ->
      by (apply andb_false_iff; right; apply N.leb_gt; lia).
    assert (((224 <=? Byte.to_N b0) && (Byte.to_N b0 <=? 239))%N = true) as ->
      by (apply andb_true_iff; split; apply N.leb_le; lia).
    assert (Text.second_ok (Byte.to_N b0) b1 = true) as ->
      by (apply second_ok_spec; lia).
    assert (Text.is_cont b2 = true) as -> by (apply is_cont_spec; lia).
    unfold Text.cont_bits. simpl andb. cbv iota. do 2 f_equal. lia. }
  destruct enc as [|b0 [|b1 [|b2 [|b3 [|? ?]]]]]; try done.
  injection Henc as H0 H1 H2 H3.
  apply N.ltb_ge in C1, C2, C3.
  assert (c < 1114112)%N as Hs'.
  { apply orb_true_iff in Hs as [Hs|Hs]; [apply N.ltb_lt in Hs; lia|].
    apply andb_true_iff in Hs as [_ Hs]. by apply N.ltb_lt. }
  rewrite <- app_comm_cons. simpl app. unfold decode_step. cbv zeta.
  rewrite (proj2 (N.ltb_ge _ _)) by lia.
  assert (((194 <=? Byte.to_N b0) && (Byte.to_N b0 <=? 223))%N = false) as ->
    by (apply andb_false_iff; right; apply N.leb_gt; lia).
  assert (((224 <=? Byte.to_N b0) && (Byte.to_N b0 <=? 239))%N = false) as ->
    by (apply andb_false_iff; right; apply N.leb_gt; lia).
  assert (((240 <=? Byte.to_N b0) && (Byte.to_N b0 <=? 244))%N = true) as ->
    by (apply andb_true_iff; split; apply N.leb_le; lia).
  assert (Text.second_ok (Byte.to_N b0) b1 = true) as ->
    by (apply second_ok_spec; lia).
  assert (Text.is_cont b2 = true) as -> by (apply is_cont_spec; lia).
  assert (Text.is_cont b3 = true) as -> by (apply is_cont_spec; lia).
  unfold Text.cont_bits. simpl andb. cbv iota. do 2 f_equal. lia.
Qed.

Lemma encodes_length enc c : encodes enc c -> 0 < length enc.
Proof.
  intros [_ Henc]. destruct enc; [|simpl; lia]. unfold utf8 in Henc.
  simpl in Henc. by repeat destruct (_ <? _)%N.
Qed.

(** [Text.decode] with [errors="ignore"] never fails: it reads the
    characters that stand in the bytes and passes over the bytes at which
    none stands. *)
Lemma decode_ignore_skipping n bs :
  length bs <= n ->
  exists t, Text.decode Text.Ignore bs = inr t /\ decodes_skipping bs t.
Proof.
  revert bs. induction n as [|n IH]; intros bs Hlen.
  { destruct bs; [|simpl in Hlen; lia]. exists []. split; [done|constructor]. }
  rewrite decode_by_step. destruct bs as [|b0 r0].
  { exists []. split; [done|constructor]. }
  simpl in Hlen. destruct (decode_step (b0 :: r0)) as [[c rest]|] eqn:Hstep.
  - destruct (decode_step_sound _ _ _ Hstep) as (enc & Hbs & Henc).
    pose proof (encodes_length _ _ Henc) as Hne.
    destruct (IH rest) as (t & Ht & Hdec).
    { apply (f_equal length) in Hbs. rewrite length_app in Hbs. simpl in Hbs.
      lia. }
    rewrite Ht. exists (c :: t). split; [done|]. rewrite Hbs. by constructor.
  - destruct (IH r0 ltac:(lia)) as (t & Ht & Hdec).
    exists t. split; [done|]. apply decodes_skip; [|done].
    intros c enc Henc [rest Hpre].
    rewrite Hpre, (decode_step_complete enc c rest Henc) in Hstep. done.
Qed.

(** Bytes that are UTF-8 throughout are read as the strict decoder reads
    them. *)
Lemma decode_strict_skipping n bs t :
  length bs <= n ->
  Text.decode Text.Strict bs = inr t -> Text.decode Text.Ignore bs = inr t.
Proof.
  revert bs t. induction n as [|n IH]; intros bs t Hlen.
  { destruct bs; [done|simpl in Hlen; lia]. }
  rewrite !(decode_by_step _ bs). destruct bs as [|b0 r0]; [done|].
  simpl in Hlen. destruct (decode_step (b0 :: r0)) as [[c rest]|] eqn:Hstep; [|done].
  destruct (decode_step_sound _ _ _ Hstep) as (enc & Hbs & Henc).
  destruct (Text.decode Text.Strict rest) as [|t0] eqn:H0; [done|].
  intros [= <-]. rewrite (IH rest t0); [done| |done].
  pose proof (encodes_length _ _ Henc) as Hne.
  apply (f_equal length) in Hbs. rewrite length_app in Hbs. simpl in Hbs. lia.
Qed.

End Utf8.

Section Lines.

Implicit Types (t line rest : list N) (c : N) (lines : list (list N)).

Lemma is_linebreak_spec c : Text.is_linebreak c = true <-> c ∈ line_boundaries.
Proof.
  unfold Text.is_linebreak, line_boundaries.
  rewrite !orb_true_iff, !andb_true_iff, !N.leb_le, !N.eqb_eq.
  rewrite !elem_of_cons, elem_of_nil. lia.
Qed.

Lemma not_linebreak_spec c : Text.is_linebreak c = false <-> c ∉ line_boundaries.
Proof.
  rewrite <- is_linebreak_spec. by destruct (Text.is_linebreak c).
Qed.

(** A line boundary other than the carriage return of CR LF ends a line. *)
Lemma splitlines_break c t :
  Text.is_linebreak c = true -> c <> 13%N ->
  Text.splitlines (c :: t) = [] :: Text.splitlines t.
Proof.
  intros Hc Hne. simpl. rewrite Hc. destruct t as [|c' t']; [done|].
  by rewrite (proj2 (N.eqb_neq _ _) Hne).
Qed.

Lemma lines_of_cons c t lines :
  c ∉ line_boundaries -> lines_of t lines ->
  lines_of (c :: t)
    match lines with
    | [] => [[c]]
    | line :: lines' => (c :: line) :: lines'
    end.
Proof.
  intros Hc. destruct 1 as [|line Hne Hl|line sep rest lines Hl Hsep Hrest].
  - apply lines_last; [done|]. by apply Forall_singleton.
  - apply lines_last; [done|]. by apply Forall_cons.
  - rewrite app_comm_cons. apply lines_more; [|done..]. by apply Forall_cons.
Qed.

(** The lines [_text_to_pdf] gets: the text read in universal-newlines
    mode, split by [str.splitlines]. *)
Lemma splitlines_lines_of n t :
  length t <= n ->
  lines_of t (Text.splitlines (Text.translate_newlines t)).
Proof.
  revert t. induction n as [|n IH]; intros t Hlen.
  { destruct t; [constructor|simpl in Hlen; lia]. }
  destruct t as [|c r]; [constructor|]. simpl in Hlen.
  simpl Text.translate_newlines.
  destruct (N.eqb_spec c 13) as [->|Hc].
  - (* a carriage return *)
    destruct r as [|c' r'].
    + change [13%N] with ([] ++ [13%N] ++ []). simpl Text.splitlines.
      apply lines_more; [done| |constructor].
      right. exists 13%N. split_and!; [done| |by intros [_ ?]].
      apply is_linebreak_spec. done.
    + destruct (N.eqb_spec c' 10) as [->|Hc'].
      * rewrite splitlines_break by done.
        change (13%N :: 10%N :: r') with ([] ++ [13%N; 10%N] ++ r').
        apply lines_more; [done|by left|]. apply IH. simpl in Hlen. lia.
      * rewrite splitlines_break by done.
        change (13%N :: c' :: r') with ([] ++ [13%N] ++ c' :: r').
        apply lines_more; [done| |apply IH; lia].
        right. exists 13%N. split_and!; [done| |].
        -- by apply is_linebreak_spec.
        -- intros [_ [= ?]]. done.
  - destruct (Text.is_linebreak c) eqn:Hb.
    + rewrite splitlines_break by done.
      change (c :: r) with ([] ++ [c] ++ r).
      apply lines_more; [done| |apply IH; lia].
      right. exists c. split_and!; [done| |by intros [? _]].
      by apply is_linebreak_spec.
    + assert (Text.splitlines (c :: Text.translate_newlines r)
              = match Text.splitlines (Text.translate_newlines r) with
                | [] => [[c]]
                | line :: lines' => (c :: line) :: lines'
                end) as ->.
      { simpl. by rewrite Hb. }
      apply lines_of_cons; [by apply not_linebreak_spec|]. apply IH. lia.
Qed.

End Lines.

Section TextFacts.

Implicit Types (t line : list N) (bs : list byte).

(** A line is stripped to nothing when it is white space throughout. *)
Lemma rstrip_nil t : Text.rstrip t = [] <-> forallb Text.isspace t = true.
Proof.
  induction t as [|c r IH]; [done|]. simpl.
  destruct (Text.rstrip r) as [|c' r'].
  - destruct (Text.isspace c); simpl.
    + split; [intros _; by apply IH|done].
    + done.
  - split; [done|]. intros [_ H]%andb_true_iff. by apply IH in H.
Qed.

Lemma lstrip_all_space t :
  forallb Text.isspace (Text.lstrip t) = forallb Text.isspace t.
Proof.
  induction t as [|c r IH]; [done|]. simpl.
  destruct (Text.isspace c) eqn:Hc; [done|]. simpl. by rewrite Hc.
Qed.

Lemma strip_nil t : Text.strip t = [] <-> is_blank t = true.
Proof. unfold Text.strip, is_blank. by rewrite rstrip_nil, lstrip_all_space. Qed.

(** The chain of replacements, character by character. *)
Lemma replace_app old new t u :
  Text.replace old new (t ++ u) = Text.replace old new t ++ Text.replace old new u.
Proof.
  induction t as [|c r IH]; [done|]. simpl.
  destruct (c =? old)%N; rewrite IH; [by rewrite app_assoc|done].
Qed.

Lemma replace_cons old new c t :
  Text.replace old new (c :: t) = Text.replace old new [c] ++ Text.replace old new t.
Proof. apply (replace_app old new [c] t). Qed.

Lemma _escape_xml_app t u : _escape_xml (t ++ u) = _escape_xml t ++ _escape_xml u.
Proof. unfold _escape_xml. by rewrite !replace_app. Qed.

Lemma _escape_xml_char c : _escape_xml [c] = escape_char c.
Proof.
  unfold escape_char.
  destruct (N.eqb_spec c 38) as [->|H1]; [done|].
  destruct (N.eqb_spec c 60) as [->|H2]; [done|].
  destruct (N.eqb_spec c 62) as [->|H3]; [done|].
  destruct (N.eqb_spec c 34) as [->|H4]; [done|].
  destruct (N.eqb_spec c 39) as [->|H5]; [done|].
  unfold _escape_xml.
  change (N_of_ascii "&") with 38%N. change (N_of_ascii "<") with 60%N.
  change (N_of_ascii ">") with 62%N. change (N_of_ascii "034") with 34%N.
  change (N_of_ascii "'") with 39%N.
  cbn [Text.replace].
  apply N.eqb_neq in H1, H2, H3, H4, H5.
  rewrite H1. cbn [Text.replace]. rewrite H2. cbn [Text.replace].
  rewrite H3. cbn [Text.replace]. rewrite H4. cbn [Text.replace].
  by rewrite H5.
Qed.

Lemma _escape_xml_escaped t : _escape_xml t = escaped t.
Proof.
  induction t as [|c r IH]; [done|].
  change (c :: r) with ([c] ++ r).
  rewrite _escape_xml_app, _escape_xml_char, IH. done.
Qed.

Lemma story_append_block story line :
  story_append story line = story ++ [block_of_line line].
Proof.
  unfold story_append, block_of_line. rewrite _escape_xml_escaped.
  case_bool_decide as Hs; simpl.
  - apply strip_nil in Hs. by rewrite Hs.
  - destruct (is_blank line) eqn:Hb; [|done]. by apply strip_nil in Hb.
Qed.

Lemma story_of_lines lines story :
  fold_left story_append lines story = story ++ map block_of_line lines.
Proof.
  revert story. induction lines as [|l ls IH]; intros story; simpl.
  - by rewrite app_nil_r.
  - by rewrite IH, story_append_block, <- app_assoc.
Qed.

End TextFacts.

Section TextToPdf.

Variable E : Env.

(** C8.  [_text_to_pdf] on a path that leads to a file: the bytes are
    read as UTF-8 and no byte makes the reading fail.  The text read has,
    in their order, the characters that are encoded in the bytes, and a
    byte is left out only where no character is encoded at its place.  The
    text is split into its lines at the line boundaries, and the document
    is built from these lines, one block a line and in their order:
    vertical space for a line of white space only, and for any other line
    a paragraph of its characters with the five reserved ones written as
    entities. *)
Theorem text_to_pdf_story txt_path out_pdf w dt :
  stat E (fs w) txt_path = Some (File dt) ->
  exists text lines,
    decodes_skipping (file_bytes E dt) text
    /\ lines_of text lines
    /\ _text_to_pdf E txt_path out_pdf w
       = doc_build E out_pdf (Path.name txt_path) (map block_of_line lines) w.
Proof.
  intros Hfile.
  destruct (decode_ignore_skipping _ (file_bytes E dt) (le_n _))
    as (text & Hdec & Hskip).
  exists text, (Text.splitlines (Text.translate_newlines text)).
  split; [done|]. split; [exact (splitlines_lines_of _ text (le_n _))|].
  unfold stat in Hfile.
  unfold _text_to_pdf, read_text, bind at 1, bind at 1, get_fs.
  destruct (namei E (fs w) txt_path) as [|k]; [done|].
  rewrite Hfile. unfold bind at 1. rewrite Hdec. simpl.
  by rewrite story_of_lines.
Qed.

End TextToPdf.

(** A file with a byte that is no UTF-8, an empty line and a reserved
    character. *)
Lemma text_to_pdf_story_witness :
  exists text lines,
    decodes_skipping [x68; xff; x69; x0a; x0a; x3c] text
    /\ lines_of text lines
    /\ _text_to_pdf example_env "c.txt" "/tmp/tmpa/txt_c.pdf" example_world
       = doc_build example_env "/tmp/tmpa/txt_c.pdf" "c.txt"
           (map block_of_line lines) example_world.
Proof.
  apply (text_to_pdf_story example_env "c.txt" "/tmp/tmpa/txt_c.pdf" example_world
           (Raw [x68; xff; x69; x0a; x0a; x3c])).
  vm_compute. reflexivity.
Defined.

(** The story of a file with an undecodable byte, an empty line and a
    reserved character. *)
Example story_example :
  match Text.decode Text.Ignore [x68; xff; x69; x0a; x0a; x3c] with
  | inr text =>
      fold_left story_append (Text.splitlines (Text.translate_newlines text)) []
  | inl _ => []
  end
  = [Paragraph [104; 105]%N "BodyText"; Spacer 1 (0.2 * inch);
     Paragraph (Text.of_string "&lt;") "BodyText"].
Proof. reflexivity. Qed.

(** ** The names of the converted files *)

Section TempOutput.

Variable E : Env.

Implicit Types (m : fsmap) (w : world) (p : string).

Lemma bind_Ok_inv {A B} (c : M A) (k : A -> M B) w w' b :
  bind c k w = (w', Ok b) ->
  exists w1 a, c w = (w1, Ok a) /\ k a w1 = (w', Ok b).
Proof. intros [(? & _ & ?)|?]%bind_inv; done. Qed.

Lemma with_open_wb_wrote p (payload : M data) w w' :
  reads_only payload ->
  with_open_wb E p payload w = (w', Ok tt) -> wrote_last E p w'.
Proof.
  intros Hpay H.
  destruct (with_open_wb_inv E _ _ _ _ _ Hpay H)
    as [(? & ? & _)|(_ & _ & [(? & ? & _)|(dt & _ & Hfs & Hwr)])]; [done..|].
  exists dt. rewrite Hfs, Hwr, lookup_insert_eq, last_snoc. done.
Qed.

Lemma _image_to_pdf_wrote img_path out_pdf tmp_dir w w' :
  _image_to_pdf E img_path out_pdf tmp_dir w = (w', Ok tt) -> wrote_last E out_pdf w'.
Proof.
  unfold _image_to_pdf.
  intros [([] & H & _)|(w1 & e & _ & H)]%try_except_inv.
  { eapply with_open_wb_wrote, H. apply reads_only_img2pdf_call. }
  destruct (some_other_error e); [done|].
  apply try_except_inv in H as [([] & H & _)|(w2 & e2 & _ & H)].
  - unfold image_fallback in H.
    do 8 (let H' := fresh in
          apply bind_Ok_inv in H as (? & ? & _ & H'); rename H' into H).
    eapply with_open_wb_wrote, H. apply reads_only_img2pdf_call.
  - eapply with_open_wb_wrote, H. apply reads_only_img2pdf_call.
Qed.

Lemma _text_to_pdf_wrote txt_path out_pdf w w' :
  _text_to_pdf E txt_path out_pdf w = (w', Ok tt) -> wrote_last E out_pdf w'.
Proof.
  unfold _text_to_pdf. intros (w1 & content & _ & H)%bind_Ok_inv.
  unfold doc_build in H.
  do 2 (let H' := fresh in
        apply bind_Ok_inv in H as (? & ? & _ & H'); rename H' into H).
  eapply with_open_wb_wrote, H. apply reads_only_ret.
Qed.

Lemma docx2pdf_call_wrote in_path out w w' :
  docx2pdf_call E in_path out w = (w', Ok tt) -> wrote_last E out w'.
Proof.
  unfold docx2pdf_call. intros H.
  do 3 (let H' := fresh in
        apply bind_Ok_inv in H as (? & ? & _ & H'); rename H' into H).
  eapply with_open_wb_wrote, H. apply reads_only_ret.
Qed.

(** A conversion that returns: the path returned and the file there. *)
Lemma convert_to_pdf_returns input_path tmp_dir w w' p :
  convert_to_pdf E input_path tmp_dir w = (w', Ok p) ->
  exists tag,
    type_tag (Py.lower (Path.suffix (key E input_path))) = Some tag
    /\ p = temp_output (default (tempdir E) tmp_dir) tag
             (Path.stem (key E input_path))
    /\ wrote_last E p w'.
Proof.
  unfold convert_to_pdf, type_tag, temp_output.
  intros (? & m & _ & H)%bind_Ok_inv.
  destruct (negb (os_path_isfile E m (key E input_path))); [done|].
  case_bool_decide as Hext.
  { apply bind_Ok_inv in H as (w1 & [] & Hc & [= <- <-]).
    eexists. split_and!; [done..|]. by eapply _image_to_pdf_wrote. }
  case_bool_decide as Hext2.
  { apply bind_Ok_inv in H as (w1 & [] & Hc & [= <- <-]).
    eexists. split_and!; [done..|]. by eapply _text_to_pdf_wrote. }
  case_bool_decide as Hext3; [|done].
  destruct (negb (_HAS_DOCX2PDF E)); [done|].
  apply bind_Ok_inv in H as (w1 & [] & Hc & [= <- <-]).
  eexists. split_and!; [done..|]. by eapply docx2pdf_call_wrote.
Qed.

Lemma sapp_inv_head s t u : s +:+ t = s +:+ u -> t = u.
Proof.
  induction s as [|a s IH]; [done|]. rewrite !sapp_cons. intros [= H]. auto.
Qed.

Lemma type_tag_cases ext tag :
  type_tag ext = Some tag -> tag = "img_" \/ tag = "txt_" \/ tag = "docx_".
Proof.
  unfold type_tag. repeat case_bool_decide; intros [= <-]; auto.
Qed.

(** The outputs of two classes differ: their names differ from the first
    character on. *)
Lemma temp_output_tags tmp_dir ext1 ext2 tag1 tag2 stem1 stem2 :
  type_tag ext1 = Some tag1 -> type_tag ext2 = Some tag2 ->
  temp_output tmp_dir tag1 stem1 = temp_output tmp_dir tag2 stem2 ->
  tag1 = tag2.
Proof.
  intros H1%type_tag_cases H2%type_tag_cases. unfold temp_output, Path.join.
  destruct H1 as [-> | [-> | ->]], H2 as [-> | [-> | ->]]; try done;
    rewrite !sapp_cons;
    change (Py.startswith Path.sep (String ?a ?s)) with false;
    cbv beta iota;
    destruct (String.eqb tmp_dir "" || Py.endswith_char Py.slash tmp_dir);
    intros H; repeat apply sapp_inv_head in H; done.
Qed.

(** C10.  Two conversions that return, one after the other, with the
    same temporary directory.  Each returns the path made of the
    directory, the prefix of the class of the extension and the stem of
    the input.  When the class and the stem are the same, the paths are
    the same, and the file there holds what the first conversion wrote
    last after the first, and what the second wrote last after the
    second.  When the classes differ, so do the paths. *)
Theorem temp_output_collides input1 input2 tmp_dir w w1 w2 p1 p2 :
  convert_to_pdf E input1 tmp_dir w = (w1, Ok p1) ->
  convert_to_pdf E input2 tmp_dir w1 = (w2, Ok p2) ->
  exists tag1 tag2,
    type_tag (Py.lower (Path.suffix (key E input1))) = Some tag1
    /\ type_tag (Py.lower (Path.suffix (key E input2))) = Some tag2
    /\ p1 = temp_output (default (tempdir E) tmp_dir) tag1 (Path.stem (key E input1))
    /\ p2 = temp_output (default (tempdir E) tmp_dir) tag2 (Path.stem (key E input2))
    /\ (tag1 = tag2 -> Path.stem (key E input1) = Path.stem (key E input2) ->
        p2 = p1
        /\ exists d1 d2,
             fs w1 !! key E p1 = Some (File d1)
             /\ last (written w1) = Some (key E p1, d1)
             /\ fs w2 !! key E p1 = Some (File d2)
             /\ last (written w2) = Some (key E p1, d2))
    /\ (tag1 <> tag2 -> p1 <> p2).
Proof.
  intros (tag1 & Ht1 & Hp1 & d1 & Hf1 & Hl1)%convert_to_pdf_returns
         (tag2 & Ht2 & Hp2 & d2 & Hf2 & Hl2)%convert_to_pdf_returns.
  exists tag1, tag2. split_and!; try done.
  - intros Htag Hstem.
    assert (p2 = p1) as Hp by (rewrite Hp1, Hp2, Htag, Hstem; done).
    split; [done|]. exists d1, d2. rewrite Hp in Hf2, Hl2. done.
  - intros Hne Hp. apply Hne. rewrite Hp1, Hp2 in Hp.
    by eapply temp_output_tags.
Qed.

End TempOutput.

(** Two images named [p] in two directories: one output path, and the page
    of the second image where that of the first was. *)
Lemma temp_output_collides_witness :
  exists tag1 tag2,
    type_tag (Py.lower (Path.suffix (key example_env "p.png"))) = Some tag1
    /\ type_tag (Py.lower (Path.suffix (key example_env "old/p.jpg"))) = Some tag2
    /\ "/tmp/tmpa/img_p.pdf"
       = temp_output "/tmp/tmpa" tag1 (Path.stem (key example_env "p.png"))
    /\ "/tmp/tmpa/img_p.pdf"
       = temp_output "/tmp/tmpa" tag2 (Path.stem (key example_env "old/p.jpg"))
    /\ (tag1 = tag2 ->
        Path.stem (key example_env "p.png") = Path.stem (key example_env "old/p.jpg") ->
        "/tmp/tmpa/img_p.pdf" = "/tmp/tmpa/img_p.pdf"
        /\ exists d1 d2,
             fs (convert_to_pdf example_env "p.png" (Some "/tmp/tmpa") example_world).1
               !! key example_env "/tmp/tmpa/img_p.pdf" = Some (File d1)
             /\ last (written (convert_to_pdf example_env "p.png" (Some "/tmp/tmpa")
                                 example_world).1)
                = Some (key example_env "/tmp/tmpa/img_p.pdf", d1)
             /\ fs (convert_to_pdf example_env "old/p.jpg" (Some "/tmp/tmpa")
                      (convert_to_pdf example_env "p.png" (Some "/tmp/tmpa")
                         example_world).1).1
                  !! key example_env "/tmp/tmpa/img_p.pdf" = Some (File d2)
             /\ last (written (convert_to_pdf example_env "old/p.jpg" (Some "/tmp/tmpa")
                                 (convert_to_pdf example_env "p.png" (Some "/tmp/tmpa")
                                    example_world).1).1)
                = Some (key example_env "/tmp/tmpa/img_p.pdf", d2))
    /\ (tag1 <> tag2 -> "/tmp/tmpa/img_p.pdf" <> "/tmp/tmpa/img_p.pdf").
Proof.
  apply (temp_output_collides example_env "p.png" "old/p.jpg" (Some "/tmp/tmpa")
           example_world).
  - vm_compute. reflexivity.
  - vm_compute. reflexivity.
Defined.

(** Two images of one stem in a merge: both pages of the output are those
    of the second. *)
Example same_stem_example :
  let r := merge_pdfs example_env ["p.png"; "old/p.jpg"] "out.pdf" false
             example_world in
  r.2 = Ok "/w/out.pdf"
  /\ fs r.1 !! "/w/out.pdf" = Some (File (Pdf [Page 255; Page 255])).
Proof. split; vm_compute; reflexivity. Qed.

(** ** Instances *)

Lemma example_is_pdf f ps :
  Py.lower (Path.suffix f) = ".pdf" ->
  file_is_pdf (example_fs !! key example_env f) = Some ps ->
  pdf_input example_env example_fs f.
Proof. intros H1 H2. split; [exact H1|]. exists ps. exact H2. Qed.

Lemma example_pdf_inputs :
  Forall (pdf_input example_env example_fs) ["a.pdf"; "b.pdf"; "a.pdf"].
Proof.
  constructor; [|constructor; [|constructor; [|constructor]]].
  - apply (example_is_pdf "a.pdf" [Page 1; Page 2]); vm_compute; reflexivity.
  - apply (example_is_pdf "b.pdf" [Page 3; Page 4; Page 5]); vm_compute; reflexivity.
  - apply (example_is_pdf "a.pdf" [Page 1; Page 2]); vm_compute; reflexivity.
Qed.

(** Three inputs, one of them twice. *)
Lemma merge_pdfs_concatenates_witness :
  exists w' p,
    merge_pdfs example_env ["a.pdf"; "b.pdf"; "a.pdf"] "out.pdf" false example_world
    = (w', Ok p)
    /\ fs w' !! key example_env p
       = Some (File (Pdf (concat (map (pages_of example_env (fs example_world))
                                    ["a.pdf"; "b.pdf"; "a.pdf"]))))
    /\ length (concat (map (pages_of example_env (fs example_world))
                         ["a.pdf"; "b.pdf"; "a.pdf"]))
       = sum_list (map (fun f => length (pages_of example_env (fs example_world) f))
                     ["a.pdf"; "b.pdf"; "a.pdf"]).
Proof.
  refine (merge_pdfs_concatenates example_env eq_refl
            ["a.pdf"; "b.pdf"; "a.pdf"] "out.pdf" false example_world
            example_world (["a.pdf"; "b.pdf"; "a.pdf"], "/w/out.pdf")
            (World (<["/tmp/tmpb" := Dir]> example_fs) [] []) "/tmp/tmpb"
            _ _ _ _ _).
  - exact example_wf.
  - exact example_pdf_inputs.
  - vm_compute. reflexivity.
  - vm_compute. reflexivity.
  - vm_compute. reflexivity.
Defined.

(** The merged document of the example: seven pages, in the order of the
    list. *)
Example merge_pdfs_example :
  let r := merge_pdfs example_env ["a.pdf"; "b.pdf"; "a.pdf"] "out.pdf" false
             example_world in
  r.2 = Ok "/w/out.pdf"
  /\ fs r.1 !! "/w/out.pdf"
     = Some (File (Pdf [Page 1; Page 2; Page 3; Page 4; Page 5; Page 1; Page 2])).
Proof. split; vm_compute; reflexivity. Qed.

(** An output path without extension. *)
Lemma output_path_written_witness :
  let out_path := Path.abspath (cwd example_env) "out" in
  let written_path :=
    if String.eqb (Path.splitext out_path).2 "" then out_path +:+ ".pdf"
    else out_path in
  (forall p, Ok "/w/out.pdf" = Ok p ->
     p = written_path
     /\ exists pages,
          fs (World (<["/w/out.pdf" := File (Pdf [Page 1; Page 2])]> example_fs) []
                [("/w/out.pdf", Pdf [Page 1; Page 2])])
            !! p = Some (File (Pdf pages)))
  /\ (forall k dt, k <> written_path ->
        fs (World (<["/w/out.pdf" := File (Pdf [Page 1; Page 2])]> example_fs) []
              [("/w/out.pdf", Pdf [Page 1; Page 2])])
          !! k = Some (File dt) ->
        fs example_world !! k = Some (File dt)).
Proof.
  refine (output_path_written example_env eq_refl ["a.pdf"] "out" false
            example_world
            (World (<["/w/out.pdf" := File (Pdf [Page 1; Page 2])]> example_fs) []
               [("/w/out.pdf", Pdf [Page 1; Page 2])])
            (Ok "/w/out.pdf") _ _).
  - exact example_wf.
  - vm_compute. reflexivity.
Defined.

(** C2, as stated, fails: an output path with an extension that is not
    [.pdf] is written as it is. *)
Lemma other_extension_kept :
  (merge_pdfs example_env ["a.pdf"] "out.txt" false example_world).2
  = Ok "/w/out.txt"
  /\ fs (merge_pdfs example_env ["a.pdf"] "out.txt" false example_world).1
       !! "/w/out.txt" = Some (File (Pdf [Page 1; Page 2]))
  /\ fs (merge_pdfs example_env ["a.pdf"] "out.txt" false example_world).1
       !! "/w/out.txt.pdf" = None.
Proof. split; [|split]; vm_compute; reflexivity. Qed.

(** A text file converted into the temporary directory, then an input of
    no supported type: the call raises and the directory is gone. *)
Lemma temporary_directory_removed_witness :
  (forall w1 request w2 tmpdir,
     validate_request example_env ["c.txt"; "d.xyz"] "out.pdf" false example_world
     = (w1, Ok request) ->
     TemporaryDirectory example_env w1 = (w2, Ok tmpdir) ->
     fs w2 !! tmpdir = Some Dir
     /\ forall k, is_under tmpdir k = true ->
                  fs (World example_fs [DocBuild "/tmp/tmpb/txt_c.pdf"]
                        [("/tmp/tmpb/txt_c.pdf", Pdf [Page 200])]) !! k = None)
  /\ (forall k,
        fs (World example_fs [DocBuild "/tmp/tmpb/txt_c.pdf"]
              [("/tmp/tmpb/txt_c.pdf", Pdf [Page 200])]) !! k <> None ->
        fs example_world !! k = None ->
        Raise (Exn MergeError "Failed to merge PDFs: Unsupported input type: d.xyz"
                 (Some (Exn ValueError "Unsupported input type: d.xyz" None)))
        = Ok k
        \/ ((exists e,
               Raise (Exn MergeError
                        "Failed to merge PDFs: Unsupported input type: d.xyz"
                        (Some (Exn ValueError "Unsupported input type: d.xyz" None)))
               = @Raise string e)
            /\ k = final_path (Path.abspath (cwd example_env) "out.pdf")
            /\ exists partial,
                 fs (World example_fs [DocBuild "/tmp/tmpb/txt_c.pdf"]
                       [("/tmp/tmpb/txt_c.pdf", Pdf [Page 200])]) !! k
                 = Some (File (Raw partial)))
        \/ (fs (World example_fs [DocBuild "/tmp/tmpb/txt_c.pdf"]
                  [("/tmp/tmpb/txt_c.pdf", Pdf [Page 200])]) !! k = Some Dir
            /\ is_under k (Path.dirname (Path.abspath (cwd example_env) "out.pdf"))
               = true)).
Proof.
  refine (temporary_directory_removed example_env eq_refl
            ["c.txt"; "d.xyz"] "out.pdf" false example_world
            (World example_fs [DocBuild "/tmp/tmpb/txt_c.pdf"]
               [("/tmp/tmpb/txt_c.pdf", Pdf [Page 200])])
            (Raise (Exn MergeError "Failed to merge PDFs: Unsupported input type: d.xyz"
                      (Some (Exn ValueError "Unsupported input type: d.xyz" None))))
            _ _).
  - exact example_wf.
  - vm_compute. reflexivity.
Defined.

(** An input with the extension [.xyz]. *)
Lemma unsupported_input_aborts_witness :
  convert_to_pdf example_env "d.xyz" None example_world
  = (example_world,
     Raise (Exn ValueError
              ("Unsupported file type for conversion: "
               +:+ Py.lower (Path.suffix (key example_env "d.xyz"))) None))
  /\ (exists e,
        Raise (Exn MergeError "Failed to merge PDFs: Unsupported input type: d.xyz"
                 (Some (Exn ValueError "Unsupported input type: d.xyz" None)))
        = @Raise string e)
  /\ forall k dt,
       fs (World example_fs [] []) !! k = Some (File dt) ->
       fs example_world !! k = Some (File dt).
Proof.
  destruct (unsupported_input_aborts example_env eq_refl) as [Hconvert Hmerge].
  split.
  - apply Hconvert.
    + vm_compute. reflexivity.
    + apply (bool_decide_unpack _). vm_compute. exact I.
  - apply (Hmerge ["a.pdf"; "d.xyz"] "out.pdf" false "d.xyz" example_world).
    + exact example_wf.
    + apply (bool_decide_unpack _). vm_compute. exact I.
    + apply (bool_decide_unpack _). vm_compute. exact I.
    + apply (bool_decide_unpack _). vm_compute. exact I.
    + vm_compute. reflexivity.
Defined.

(** The output path [report], with [report.pdf] there before the call,
    and a text file among the inputs. *)
Lemma existing_file_at_final_path_replaced_witness :
  validate_request example_env ["a.pdf"; "c.txt"] "report" false example_world
  = (example_world,
     Ok (kept_inputs ["a.pdf"; "c.txt"], Path.abspath (cwd example_env) "report"))
  /\ exists w',
       merge_pdfs example_env ["a.pdf"; "c.txt"] "report" false example_world
       = (w', Ok (Path.abspath (cwd example_env) "report" +:+ ".pdf"))
       /\ fs w' !! (Path.abspath (cwd example_env) "report" +:+ ".pdf")
          = Some (File (Pdf [Page 1; Page 2; Page 200])).
Proof.
  refine (existing_file_at_final_path_replaced example_env eq_refl
            ["a.pdf"; "c.txt"] "report" example_world (Pdf [Page 9])
            (World (<["/tmp/tmpb" := Dir]> example_fs) [] []) "/tmp/tmpb"
            (World (<["/tmp/tmpb/txt_c.pdf" := File (Pdf [Page 200])]>
                      (<["/tmp/tmpb" := Dir]> example_fs))
               [DocBuild "/tmp/tmpb/txt_c.pdf"]
               [("/tmp/tmpb/txt_c.pdf", Pdf [Page 200])])
            ["a.pdf"; "/tmp/tmpb/txt_c.pdf"]
            {| merger_pages := [Page 1; Page 2; Page 200]; merger_defect := None |}
            _ _ _ _ _ _ _ _ _ _ _).
  - exact example_wf.
  - reflexivity.
  - discriminate.
  - constructor; [|constructor; [|constructor]].
    + vm_compute. reflexivity.
    + vm_compute. reflexivity.
  - vm_compute. reflexivity.
  - vm_compute. reflexivity.
  - vm_compute. reflexivity.
  - vm_compute. reflexivity.
  - vm_compute. reflexivity.
  - vm_compute. reflexivity.
  - reflexivity.
Defined.

(** C9, as stated, fails: with a file at the output path as it was given,
    a call with an output path without extension and [overwrite] false
    raises [FileExistsError], and the file at that path plus [.pdf] is
    kept. *)
Lemma file_at_supplied_path_refused :
  (Path.splitext (Path.abspath (cwd example_env) "report")).2 = ""
  /\ example_fs_report !! "/w/report.pdf" = Some (File (Pdf [Page 9]))
  /\ (merge_pdfs example_env ["a.pdf"] "report" false
        (World example_fs_report [] [])).2
     = Raise (Exn FileExistsError "Output file already exists: /w/report" None)
  /\ fs (merge_pdfs example_env ["a.pdf"] "report" false
           (World example_fs_report [] [])).1
       !! "/w/report.pdf" = Some (File (Pdf [Page 9])).
Proof. split; [|split; [|split]]; vm_compute; reflexivity. Qed.

(** The example of C9: the report that was there is gone. *)
Example report_replaced_example :
  example_fs !! "/w/report.pdf" = Some (File (Pdf [Page 9]))
  /\ (merge_pdfs example_env ["a.pdf"] "report" false example_world).2
     = Ok "/w/report.pdf"
  /\ fs (merge_pdfs example_env ["a.pdf"] "report" false example_world).1
       !! "/w/report.pdf" = Some (File (Pdf [Page 1; Page 2])).
Proof. split; [|split]; vm_compute; reflexivity. Qed.

(** A write that fails: the reader takes the torn file when it is
    appended and fails on it when the document is written; the call
    raises and the output file is left as far as it was written. *)
Example torn_input_example :
  (merge_pdfs example_env_lazy ["torn.pdf"] "out.pdf" false example_world).2
  = Raise (Exn MergeError "Failed to merge PDFs: Could not read object"
             (Some (Exn PdfReadError "Could not read object" None)))
  /\ fs (merge_pdfs example_env_lazy ["torn.pdf"] "out.pdf" false example_world).1
       !! "/w/out.pdf" = Some (File (Raw [x25; x50; x44; x46; x2d])).
Proof. split; vm_compute; reflexivity. Qed.

(** * Further statements *)

(** ** [merge_pdfs] *)

Section MergeMore.

Variable E : Env.
Hypothesis cwd_abs : Path.isabs (cwd E) = true.

Implicit Types (m : fsmap) (w : world) (p d : string).

(** A call of [merge_pdfs] leaves a well-formed file system. *)
Lemma merge_pdfs_wf input_files output_path overwrite w w' r :
  wf (fs w) ->
  merge_pdfs E input_files output_path overwrite w = (w', r) ->
  wf (fs w').
Proof using cwd_abs.
  intros Hwf. unfold merge_pdfs.
  intros [(e & Hval & ->)|(w1 & [files out_path] & Hval & Hrun)]%bind_inv.
  - apply validate_request_inv in Hval; [|done..]. by subst w'.
  - apply validate_request_inv in Hval
      as (_ & _ & _ & _ & -> & _ & _ & Hmade & _ & _); [|done..].
    destruct Hmade as (Hwf1 & Hdir & _ & _). simpl in Hrun.
    set (out := Path.abspath (cwd E) output_path) in *.
    assert (forall dt, fs w1 !! final_path out <> Some Dir ->
              wf (<[final_path out := File dt]> (fs w1))) as Hins.
    { intros dt Hnd.
      destruct (fs w1 !! final_path out) as [[|old]|] eqn:Hold; [done| |].
      - by eapply wf_insert_file.
      - apply wf_insert; [done..|]. by rewrite dirname_final_path. }
    apply run_merge_inv in Hrun
      as [[-> _]|(d & w2 & w3 & paths & merger & _ & _ & _ & Hnd & Hm)];
      [done| |first [done|by apply abspath_nf]..].
    destruct (merger_defect merger) as [[e partial]|].
    + destruct Hm as [_ ->]. by apply Hins.
    + destruct Hm as [_ ->]. by apply Hins.
Qed.

(** X1.  [merge_pdfs] leaves what was there, the output file apart: every
    file and directory that exists before the call, at another path than
    the one the document is written to, exists after it, a file with the
    content it had, whether the call returns or raises; and a directory
    stays at that path too. *)
Theorem merge_pdfs_keeps_existing input_files output_path overwrite w w' r k n :
  wf (fs w) ->
  merge_pdfs E input_files output_path overwrite w = (w', r) ->
  fs w !! k = Some n ->
  k <> final_path (Path.abspath (cwd E) output_path) \/ n = Dir ->
  fs w' !! k = Some n.
Proof using cwd_abs.
  intros Hwf Hrun Hk Hr.
  destruct (merge_pdfs_effect E cwd_abs _ _ _ _ _ _ Hwf Hrun) as (m1 & Hm1 & Hfs).
  assert (m1 !! k = Some n) as Hk1.
  { destruct (decide (m1 !! k = fs w !! k)) as [->|Hne]; [done|].
    destruct (Hm1 k Hne) as (? & _). congruence. }
  assert (forall dt, m1 !! final_path (Path.abspath (cwd E) output_path) <> Some Dir ->
            <[final_path (Path.abspath (cwd E) output_path) := File dt]> m1 !! k
            = Some n) as Hins.
  { intros dt Hnd. rewrite lookup_insert_ne; [done|].
    intros Heq. destruct Hr as [Hr| ->]; [done|]. rewrite Heq in Hnd. done. }
  destruct r as [p|e].
  - destruct Hfs as (-> & Hnd & pages & ->). by apply Hins.
  - destruct Hfs as [->|(Hnd & partial & ->)]; [done|]. by apply Hins.
Qed.

Lemma check_inputs_app files1 files2 w :
  Forall (fun f => os_path_isfile E (fs w) f = true) files1 ->
  check_inputs E (files1 ++ files2) w = check_inputs E files2 w.
Proof.
  induction 1 as [|f files Hf _ IH]; [done|]. simpl.
  unfold bind at 1, get_fs. by rewrite Hf.
Qed.

(** X2.  The inputs are looked at in the order of the list and before the
    output path: the first kept input that is no file is the one the
    [ValueError] names, whatever the output path and [overwrite] are, and
    nothing is changed. *)
Theorem first_missing_input_reported input_files output_path overwrite w pre f post :
  has_PdfMerger E = true ->
  kept_inputs input_files = pre ++ f :: post ->
  Forall (fun f' => os_path_isfile E (fs w) f' = true) pre ->
  os_path_isfile E (fs w) f = false ->
  merge_pdfs E input_files output_path overwrite w
  = (w, Raise (Exn ValueError ("Input file not found: " +:+ f) None)).
Proof.
  intros Hbackend Hkept Hpre Hf.
  unfold merge_pdfs, validate_request. rewrite Hbackend.
  change (negb true) with false. cbv beta iota zeta.
  fold (kept_inputs input_files). rewrite Hkept.
  rewrite bool_decide_eq_false_2 by (by destruct pre).
  cbv beta iota.
  assert (check_inputs E (pre ++ f :: post) w
          = (w, Raise (Exn ValueError ("Input file not found: " +:+ f) None)))
    as Hcheck.
  { rewrite check_inputs_app by done. simpl. unfold bind, get_fs. by rewrite Hf. }
  rewrite (bind_Raise _ _ w w _
             (bind_Raise _ _ w w _ Hcheck)).
  done.
Qed.

Lemma mkdir_exist_ok_file name w dt :
  wf (fs w) -> normalised name -> fs w !! name = Some (File dt) ->
  mkdir_exist_ok E name w = (w, Raise (EEXIST name)).
Proof using cwd_abs.
  intros Hwf Hnf Hfile. unfold mkdir_exist_ok, try_except.
  rewrite os_mkdir_eq, (key_of_nf E name Hnf), Hfile.
  change (is_OSError (EEXIST name)) with true.
  change (negb true) with false. cbv beta iota.
  unfold bind, get_fs.
  rewrite (os_path_isdir_nf E cwd_abs _ _ Hwf Hnf), Hfile. done.
Qed.

(** [os.makedirs(name, exist_ok=True)] on a file. *)
Lemma makedirs_on_file name fuel w dt :
  normalised name -> wf (fs w) -> fs w !! name = Some (File dt) ->
  os_makedirs E (S fuel) name w = (w, Raise (EEXIST name)).
Proof using cwd_abs.
  intros Hnf Hwf Hfile. pose proof Hnf as (k & cs & Hk & Hcs & ->).
  assert (k <> 0) as Hk0 by (destruct Hk; lia).
  rewrite os_makedirs_S. unfold path_split.
  destruct (decide (cs = [])) as [->|Hne].
  - pose proof (wf_lookup _ _ _ Hwf Hfile) as Hpar.
    rewrite dirname_render_nil in Hpar by done. congruence.
  - destruct (exists_last Hne) as (cs' & x & ->).
    apply Forall_app in Hcs as [Hcs' [Hx _]%Forall_cons].
    rewrite dirname_render_snoc, basename_render_snoc by done.
    assert (String.eqb x "" = false) as Hx1.
    { apply String.eqb_neq. by destruct Hx. }
    rewrite Hx1. cbv beta iota. rewrite Hx1.
    pose proof (wf_lookup _ _ _ Hwf Hfile) as Hpar.
    rewrite dirname_render_snoc in Hpar by done.
    unfold bind at 1, get_fs.
    rewrite (os_path_exists_nf E cwd_abs _ (render k cs') Hwf)
      by (by exists k, cs').
    rewrite Hpar. simpl negb. rewrite andb_false_r. cbv iota.
    unfold bind, ret. by eapply mkdir_exist_ok_file.
Qed.

(** X3.  An output path whose parent is a file: [os.makedirs] raises
    [FileExistsError] for the parent, and [merge_pdfs] raises it as it is,
    with [overwrite] or without, and nothing is changed. *)
Theorem output_below_file_raises input_files output_path overwrite w dt :
  wf (fs w) ->
  has_PdfMerger E = true ->
  kept_inputs input_files <> [] ->
  Forall (fun f => os_path_isfile E (fs w) f = true) (kept_inputs input_files) ->
  fs w !! Path.dirname (Path.abspath (cwd E) output_path) = Some (File dt) ->
  merge_pdfs E input_files output_path overwrite w
  = (w, Raise (EEXIST (Path.dirname (Path.abspath (cwd E) output_path)))).
Proof using cwd_abs.
  intros Hwf Hbackend Hne Hfiles Hpar.
  set (out := Path.abspath (cwd E) output_path) in *.
  assert (normalised out) as Hout by (by apply abspath_nf).
  destruct (nf_dirname out Hout) as [Hdir _].
  unfold merge_pdfs, validate_request. rewrite Hbackend.
  change (negb true) with false. cbv beta iota zeta.
  fold (kept_inputs input_files). fold out.
  rewrite bool_decide_eq_false_2 by done. cbv beta iota.
  assert (String.eqb (Path.dirname out) "" = false) as Hd.
  { apply String.eqb_neq. intros Heq. rewrite Heq in Hdir.
    by apply nf_isabs in Hdir. }
  rewrite Hd.
  rewrite (bind_Raise _ _ w w (EEXIST (Path.dirname out))); [done|].
  rewrite (bind_Ok _ _ w w tt) by (by apply check_inputs_ok).
  apply bind_Raise. by eapply makedirs_on_file.
Qed.

(** X4.  The path [merge_pdfs] returns is absolute and normalised, and a
    file is there: it names the document written whatever the working
    directory of its reader. *)
Theorem merge_pdfs_returns_absolute input_files output_path overwrite w w' p :
  wf (fs w) ->
  merge_pdfs E input_files output_path overwrite w = (w', Ok p) ->
  Path.isabs p = true
  /\ Path.normpath p = p
  /\ (forall cwd', Path.abspath cwd' p = p)
  /\ os_path_isfile E (fs w') p = true.
Proof using cwd_abs.
  intros Hwf Hrun.
  destruct (merge_pdfs_effect E cwd_abs _ _ _ _ _ _ Hwf Hrun)
    as (m1 & _ & -> & _ & pages & Hfs).
  assert (normalised (final_path (Path.abspath (cwd E) output_path))) as Hnf.
  { by apply nf_final_path, abspath_nf. }
  split_and!.
  - by apply nf_isabs.
  - by apply nf_normpath.
  - intros cwd'. by apply abspath_of_nf.
  - rewrite (os_path_isfile_nf E cwd_abs _ _ (merge_pdfs_wf _ _ _ _ _ _ Hwf Hrun) Hnf).
    by rewrite Hfs, lookup_insert_eq.
Qed.

End MergeMore.

(** ** The converters *)

Section ConvertMore.

Variable E : Env.
Hypothesis cwd_abs : Path.isabs (cwd E) = true.

Implicit Types (m : fsmap) (w : world) (p d f : string).

Lemma is_supported_suffix f :
  is_supported_nonpdf E f = true -> Path.suffix f <> "".
Proof.
  unfold is_supported_nonpdf. intros H Hs. rewrite Hs in H. by vm_compute in H.
Qed.

(** The suffix and the stem of a supported input are those of its
    absolute path. *)
Lemma supported_key f :
  Path.suffix f <> "" ->
  Path.suffix (key E f) = Path.suffix f /\ Path.stem (key E f) = Path.stem f.
Proof using cwd_abs.
  intros [H1 H2]%suffix_name.
  destruct (abspath_name (cwd E) f cwd_abs H1 H2) as [Hn _].
  split; [by apply suffix_of_name|by apply stem_of_name].
Qed.

(** X5.  [is_supported_nonpdf] and [convert_to_pdf] agree, though the
    first looks at the path as given and the second at its absolute form:
    an existing file that [is_supported_nonpdf] accepts is converted by the
    converter of its class, into the temporary directory under the name
    made of the class prefix and the stem of the path as given; none of
    the [ValueError]s of [convert_to_pdf] itself is raised. *)
Theorem supported_input_converted f tmp_dir w :
  is_supported_nonpdf E f = true ->
  os_path_isfile E (fs w) f = true ->
  let ext := Py.lower (Path.suffix f) in
  let tmp := default (tempdir E) tmp_dir in
  let out tag := Path.join tmp (tag +:+ Path.stem f +:+ ".pdf") in
  (ext ∈ IMAGE_EXTS
   /\ convert_to_pdf E f tmp_dir w
      = (_image_to_pdf E (key E f) (out "img_") tmp ;; ret (out "img_")) w)
  \/ (ext ∈ TEXT_EXTS
      /\ convert_to_pdf E f tmp_dir w
         = (_text_to_pdf E (key E f) (out "txt_") ;; ret (out "txt_")) w)
  \/ (ext ∈ DOCX_EXTS /\ _HAS_DOCX2PDF E = true
      /\ convert_to_pdf E f tmp_dir w
         = (docx2pdf_call E (key E f) (out "docx_") ;; ret (out "docx_")) w).
Proof using cwd_abs.
  intros Hsup Hfile ext tmp out.
  destruct (supported_key f (is_supported_suffix f Hsup)) as [Hsuf Hstem].
  assert (convert_to_pdf E f tmp_dir w
          = (if bool_decide (ext ∈ IMAGE_EXTS)
             then _image_to_pdf E (key E f) (out "img_") tmp ;; ret (out "img_")
             else if bool_decide (ext ∈ TEXT_EXTS)
             then _text_to_pdf E (key E f) (out "txt_") ;; ret (out "txt_")
             else if bool_decide (ext ∈ DOCX_EXTS)
             then if negb (_HAS_DOCX2PDF E)
                  then raise (Exn ValueError
                         ".docx support requires 'docx2pdf' and Microsoft Word on Windows."
                         None)
                  else docx2pdf_call E (key E f) (out "docx_") ;; ret (out "docx_")
             else raise (Exn ValueError
                           ("Unsupported file type for conversion: " +:+ ext) None)) w)
    as ->.
  { unfold convert_to_pdf. unfold bind at 1, get_fs.
    apply os_path_isfile_stat in Hfile as [dt Hfile].
    apply (stat_key E cwd_abs) in Hfile.
    assert (os_path_isfile E (fs w) (key E f) = true) as ->
      by (apply os_path_isfile_stat; by exists dt).
    change (negb true) with false. cbv beta iota zeta.
    rewrite Hsuf, Hstem. reflexivity. }
  unfold is_supported_nonpdf in Hsup. fold ext in Hsup.
  case_bool_decide as Hi; [by left|].
  case_bool_decide as Ht; [by right; left|].
  case_bool_decide as Hd; [|done].
  simpl in Hsup. rewrite Hsup. by right; right.
Qed.


End ConvertMore.

Section EscapeXml.

Implicit Types (t u : list N) (c : N).

Lemma escape_char_not_reserved c x :
  x ∈ escape_char c -> x <> 60%N /\ x <> 62%N /\ x <> 34%N /\ x <> 39%N.
Proof.
  unfold escape_char.
  destruct (N.eqb_spec c 38) as [->|H1].
  { simpl. rewrite !elem_of_cons, elem_of_nil. intros H.
    repeat destruct H as [->|H]; done. }
  destruct (N.eqb_spec c 60) as [->|H2].
  { simpl. rewrite !elem_of_cons, elem_of_nil. intros H.
    repeat destruct H as [->|H]; done. }
  destruct (N.eqb_spec c 62) as [->|H3].
  { simpl. rewrite !elem_of_cons, elem_of_nil. intros H.
    repeat destruct H as [->|H]; done. }
  destruct (N.eqb_spec c 34) as [->|H4].
  { simpl. rewrite !elem_of_cons, elem_of_nil. intros H.
    repeat destruct H as [->|H]; done. }
  destruct (N.eqb_spec c 39) as [->|H5].
  { simpl. rewrite !elem_of_cons, elem_of_nil. intros H.
    repeat destruct H as [->|H]; done. }
  intros ->%list_elem_of_singleton. done.
Qed.

(** X7.  What [_escape_xml] returns has none of the characters [<], [>],
    the double quote and the single quote in it. *)
Theorem _escape_xml_no_reserved text x :
  x ∈ _escape_xml text ->
  x <> 60%N /\ x <> 62%N /\ x <> 34%N /\ x <> 39%N.
Proof.
  rewrite _escape_xml_escaped. unfold escaped.
  intros Hx. apply list_elem_of_In, in_flat_map in Hx as (c & _ & Hx).
  apply list_elem_of_In in Hx. by eapply escape_char_not_reserved.
Qed.

Lemma escape_char_cases c :
  (c = 38%N /\ escape_char c = [38; 97; 109; 112; 59]%N)
  \/ (c = 60%N /\ escape_char c = [38; 108; 116; 59]%N)
  \/ (c = 62%N /\ escape_char c = [38; 103; 116; 59]%N)
  \/ (c = 34%N /\ escape_char c = [38; 113; 117; 111; 116; 59]%N)
  \/ (c = 39%N /\ escape_char c = [38; 35; 51; 57; 59]%N)
  \/ (c <> 38%N /\ escape_char c = [c]).
Proof.
  unfold escape_char.
  destruct (N.eqb_spec c 38) as [->|H1]; [by left|].
  destruct (N.eqb_spec c 60) as [->|H2]; [by right; left|].
  destruct (N.eqb_spec c 62) as [->|H3]; [by right; right; left|].
  destruct (N.eqb_spec c 34) as [->|H4]; [by right; right; right; left|].
  destruct (N.eqb_spec c 39) as [->|H5]; [by right; right; right; right; left|].
  by right; right; right; right; right.
Qed.

Lemma escape_char_prefix_free c1 c2 r1 r2 :
  escape_char c1 ++ r1 = escape_char c2 ++ r2 -> c1 = c2 /\ r1 = r2.
Proof.
  destruct (escape_char_cases c1) as [[-> ->]|[[-> ->]|[[-> ->]|[[-> ->]|[[-> ->]|[H1 ->]]]]]];
  destruct (escape_char_cases c2) as [[-> ->]|[[-> ->]|[[-> ->]|[[-> ->]|[[-> ->]|[H2 ->]]]]]];
    simpl; intros H; try (injection H as ?; subst; done);
    try (injection H; intros; subst; done).
Qed.

Lemma escaped_inj t u : escaped t = escaped u -> t = u.
Proof.
  unfold escaped. revert u. induction t as [|c t IH]; intros [|c' u]; simpl.
  - done.
  - intros H. symmetry in H. apply app_eq_nil in H as [H _].
    destruct (escape_char_cases c') as [[_ Hc]|[[_ Hc]|[[_ Hc]|[[_ Hc]|[[_ Hc]|[_ Hc]]]]]];
      rewrite Hc in H; done.
  - intros H. apply app_eq_nil in H as [H _].
    destruct (escape_char_cases c) as [[_ Hc]|[[_ Hc]|[[_ Hc]|[[_ Hc]|[[_ Hc]|[_ Hc]]]]]];
      rewrite Hc in H; done.
  - intros [-> H]%escape_char_prefix_free. f_equal. by apply IH.
Qed.

(** X8.  [_escape_xml] loses nothing: two texts with the same escaped form
    are the same text. *)
Theorem _escape_xml_injective text1 text2 :
  _escape_xml text1 = _escape_xml text2 -> text1 = text2.
Proof. rewrite !_escape_xml_escaped. apply escaped_inj. Qed.

End EscapeXml.

(** ** The callers of [merge_pdfs] *)

Section NamedOutput.

Implicit Types (s t u p x cwd dir name : string) (a c : ascii) (l cs : list string).

Lemma rsplit_dot_pdf x : Py.rsplit_dot (x +:+ ".pdf") = Some (x, ".pdf").
Proof.
  induction x as [|a x IH]; [done|]. rewrite sapp_cons. simpl. by rewrite IH.
Qed.

Lemma basename_app_pdf p : Path.basename (p +:+ ".pdf") = Path.basename p +:+ ".pdf".
Proof.
  unfold Path.basename. rewrite split_on_app_no_sep by done. by rewrite last_last.
Qed.

Lemma basename_app_sep p t :
  Path.basename (p +:+ String Py.slash t) = Path.basename t.
Proof.
  unfold Path.basename. rewrite split_on_app_sep.
  pose proof (split_on_not_nil Py.slash t) as Hne.
  destruct (exists_last Hne) as (l & x & ->).
  by rewrite app_assoc, !last_last.
Qed.

Lemma basename_join dir name :
  Path.basename (Path.join dir name) = Path.basename name.
Proof.
  unfold Path.join. destruct (Py.startswith Path.sep name); [done|].
  destruct (String.eqb_spec dir "") as [->|Hne]; [done|]. simpl.
  destruct (Py.endswith_char Py.slash dir) eqn:He.
  - destruct (endswith_char_inv _ _ He) as [d' ->].
    rewrite sapp_assoc, sapp_cons, sapp_nil_l. apply basename_app_sep.
  - unfold Path.sep. rewrite sapp_cons, sapp_nil_l. apply basename_app_sep.
Qed.

Lemma join_app_pdf dir name :
  Path.join dir (name +:+ ".pdf") = Path.join dir name +:+ ".pdf".
Proof.
  unfold Path.join, Py.startswith, Path.sep.
  assert (String.prefix "/" (name +:+ ".pdf") = String.prefix "/" name) as ->.
  { destruct name as [|a name]; [done|]. by apply prefix_slash_app. }
  destruct (String.prefix "/" name); [done|].
  destruct (_ || _); by rewrite ?sapp_assoc.
Qed.

Lemma name_of_basename p :
  Path.basename p <> "" -> Path.basename p <> "." -> Path.name p = Path.basename p.
Proof.
  unfold Path.name, Path.basename.
  pose proof (split_on_not_nil Py.slash p) as Hne.
  destruct (exists_last Hne) as (l & x & ->). rewrite last_last.
  intros H1 H2. rewrite List.filter_app. simpl.
  apply String.eqb_neq in H1, H2. rewrite H1, H2. simpl. by rewrite last_last.
Qed.

Lemma app_pdf_not_dots x :
  x +:+ ".pdf" <> "" /\ x +:+ ".pdf" <> "." /\ x +:+ ".pdf" <> "..".
Proof.
  split_and!; intros H; apply (f_equal String.length) in H;
    rewrite slength_app in H; simpl in H; lia.
Qed.

(** The extension of the absolute form of a path [name.pdf] in a
    directory: none when the last component of [name] is dots only, or
    nothing; [.pdf] otherwise. *)
Lemma splitext_join_pdf cwd dir name :
  Path.isabs cwd = true ->
  (Path.splitext (Path.abspath cwd (Path.join dir (name +:+ ".pdf")))).2
  = if Py.all_char Py.dot (Path.basename name) then "" else ".pdf".
Proof.
  intros Hc. set (x := Path.basename name +:+ ".pdf").
  assert (Path.basename (Path.join dir (name +:+ ".pdf")) = x) as Hb.
  { by rewrite join_app_pdf, basename_app_pdf, basename_join. }
  destruct (app_pdf_not_dots (Path.basename name)) as (H1 & H2 & H3). fold x in H1, H2, H3.
  assert (Path.name (Path.join dir (name +:+ ".pdf")) = x) as Hn.
  { rewrite name_of_basename; rewrite Hb; done. }
  destruct (abspath_last cwd _ x Hc Hn H1 H3) as (k & cs & Hk & Hcs & Hx & ->).
  unfold Path.splitext. rewrite basename_render_snoc by done.
  unfold x. rewrite rsplit_dot_pdf. by destruct (Py.all_char _ _).
Qed.

Lemma final_path_join_pdf cwd dir name :
  Path.isabs cwd = true ->
  final_path (Path.abspath cwd (Path.join dir (name +:+ ".pdf")))
  = if Py.all_char Py.dot (Path.basename name)
    then Path.abspath cwd (Path.join dir (name +:+ ".pdf")) +:+ ".pdf"
    else Path.abspath cwd (Path.join dir (name +:+ ".pdf")).
Proof.
  intros Hc. pose proof (splitext_join_pdf cwd dir name Hc) as Hs.
  destruct (Py.all_char Py.dot (Path.basename name)).
  - by apply final_path_noext.
  - apply final_path_ext. by rewrite Hs.
Qed.

End NamedOutput.

Section Callers.

Variable E : Env.
Hypothesis cwd_abs : Path.isabs (cwd E) = true.

Implicit Types (m : fsmap) (w : world) (p d f : string).

(** [merge_pdfs] looks at the output path through its absolute form
    only. *)
Lemma merge_pdfs_same_abspath input_files out1 out2 overwrite w :
  Path.abspath (cwd E) out1 = Path.abspath (cwd E) out2 ->
  merge_pdfs E input_files out1 overwrite w = merge_pdfs E input_files out2 overwrite w.
Proof. intros H. unfold merge_pdfs, validate_request. by rewrite H. Qed.

(** X9.  The wrapper of the legacy GUI, when it returns: the name and the
    directory are not blank, and the document is the file [name.pdf] in
    the directory -- [.pdf] is appended to the name whatever the name ends
    with, and once more by [merge_pdfs] when the last component of the
    name is nothing or dots only. *)
Theorem merge_writes_name_pdf outputFile_text outputfolder readFileList w w' :
  wf (fs w) ->
  Pdfmerge.merge E outputFile_text outputfolder readFileList w = (w', Ok tt) ->
  let name := Py.strip outputFile_text in
  let dir := Py.strip (default "" outputfolder) in
  let target := Path.abspath (cwd E) (Path.join dir (name +:+ ".pdf")) in
  name <> "" /\ dir <> ""
  /\ exists pages,
       fs w' !! (if Py.all_char Py.dot (Path.basename name)
                 then target +:+ ".pdf" else target)
       = Some (File (Pdf pages)).
Proof using cwd_abs.
  intros Hwf Hrun name dir target. unfold Pdfmerge.merge in Hrun.
  fold name dir in Hrun.
  destruct (String.eqb_spec name "") as [|Hname]; [done|].
  destruct (String.eqb_spec dir "") as [|Hdir]; [done|].
  split; [done|]. split; [done|].
  apply bind_inv in Hrun as [(? & _ & ?)|(w1 & p & Hrun & [= <-])]; [done|].
  destruct (merge_pdfs_effect E cwd_abs _ _ _ _ _ _ Hwf Hrun)
    as (m1 & _ & -> & _ & pages & Hfs).
  exists pages. rewrite Hfs. fold target.
  unfold target. rewrite <- final_path_join_pdf by done.
  apply lookup_insert_eq.
Qed.

(** X10.  [str(Path(output))] in [main] changes nothing for the merge:
    [merge_pdfs] does with it what it does with [output] itself. *)
Theorem main_path_wrapping_harmless input output force w :
  merge_pdfs E input (Pathlib.str output) force w
  = merge_pdfs E input output force w.
Proof using cwd_abs. apply merge_pdfs_same_abspath. by apply abspath_str. Qed.

(** X11.  The exit status of [main] and the files.  With status 0 one
    line is printed, with the number of inputs given and the output path
    as [Path] writes it, and the document is at the absolute output path,
    [.pdf] appended when it has no extension.  With any other status, 1 or
    2, nothing is printed but one line of error, and no file is written
    or changed, the output file apart, which a write that failed may have
    made or changed. *)
Theorem main_status_and_files input output force w w' res :
  wf (fs w) ->
  Cli.main E input output force w = (w', res) ->
  (Cli.status res = 0%Z
   /\ Cli.stdout res
      = ["Merged " +:+ pretty (length input) +:+ " files -> " +:+ Pathlib.str output]
   /\ Cli.stderr res = []
   /\ exists pages,
        fs w' !! final_path (Path.abspath (cwd E) output) = Some (File (Pdf pages)))
  \/ ((Cli.status res = 1%Z \/ Cli.status res = 2%Z)
      /\ Cli.stdout res = []
      /\ (exists msg, Cli.stderr res = ["Error: " +:+ msg])
      /\ forall k dt, k <> final_path (Path.abspath (cwd E) output) ->
           fs w' !! k = Some (File dt) -> fs w !! k = Some (File dt)).
Proof using cwd_abs.
  intros Hwf. unfold Cli.main.
  rewrite (merge_pdfs_same_abspath input (Pathlib.str output) output)
    by (by apply abspath_str).
  destruct (merge_pdfs E input output force w) as [w1 r] eqn:Hrun.
  destruct (merge_pdfs_effect E cwd_abs _ _ _ _ _ _ Hwf Hrun) as (m1 & Hm1 & Hfs).
  destruct r as [p|e].
  - intros [= <- <-]. left. simpl. split_and!; try done.
    destruct Hfs as (-> & _ & pages & ->). exists pages. apply lookup_insert_eq.
  - assert (forall k dt, k <> final_path (Path.abspath (cwd E) output) ->
              fs w1 !! k = Some (File dt) -> fs w !! k = Some (File dt))
      as Hfiles.
    { intros k dt Hfin Hk.
      assert (m1 !! k = Some (File dt)) as Hk1.
      { destruct Hfs as [<-|(_ & partial & Hfs)]; [done|].
        by rewrite Hfs, lookup_insert_ne in Hk. }
      destruct (decide (m1 !! k = fs w !! k)) as [<-|Hne]; [done|].
      destruct (Hm1 k Hne) as (_ & ? & _). congruence. }
    destruct (is_FileExistsError e); intros [= <- <-]; right; simpl;
      split_and!; eauto.
Qed.

Lemma validate_existing_output input_files output_path w dt :
  wf (fs w) ->
  has_PdfMerger E = true ->
  kept_inputs input_files <> [] ->
  Forall (fun f => os_path_isfile E (fs w) f = true) (kept_inputs input_files) ->
  fs w !! Path.abspath (cwd E) output_path = Some (File dt) ->
  validate_request E input_files output_path false w
  = (w, Raise (Exn FileExistsError
                 ("Output file already exists: " +:+ Path.abspath (cwd E) output_path)
                 None)).
Proof using cwd_abs.
  intros Hwf Hbackend Hne Hfiles Hout.
  set (out_path := Path.abspath (cwd E) output_path) in *.
  assert (normalised out_path) as Hnf by (by apply abspath_nf).
  pose proof (wf_lookup _ _ _ Hwf Hout) as Hdir.
  unfold validate_request. rewrite Hbackend.
  change (negb true) with false. cbv beta iota zeta.
  fold (kept_inputs input_files).
  rewrite bool_decide_eq_false_2 by done. cbv beta iota.
  rewrite (bind_Ok _ _ w w tt) by (by apply check_inputs_ok).
  fold out_path.
  assert (String.eqb (Path.dirname out_path) "" = false) as ->.
  { apply String.eqb_neq. intros Heq. destruct (nf_dirname _ Hnf) as [Hd _].
    rewrite Heq in Hd. by apply nf_isabs in Hd. }
  cbv beta iota. rewrite (bind_Ok _ _ w w tt).
  2:{ apply makedirs_existing; [done|by apply nf_dirname|done..]. }
  unfold bind, get_fs.
  rewrite (os_path_isdir_nf E cwd_abs _ _ Hwf Hnf),
    (os_path_exists_nf E cwd_abs _ _ Hwf Hnf), Hout. done.
Qed.

(** X12.  An output that exists as a file and no [--force], the inputs
    being there: [main] ends with status 2, prints the error with the
    absolute output path on the error stream, and changes nothing. *)
Theorem main_existing_output input output w dt :
  wf (fs w) ->
  has_PdfMerger E = true ->
  kept_inputs input <> [] ->
  Forall (fun f => os_path_isfile E (fs w) f = true) (kept_inputs input) ->
  fs w !! Path.abspath (cwd E) output = Some (File dt) ->
  Cli.main E input output false w
  = (w, {| Cli.stdout := [];
           Cli.stderr := ["Error: Output file already exists: "
                          +:+ Path.abspath (cwd E) output];
           Cli.status := 2 |}).
Proof using cwd_abs.
  intros Hwf Hbackend Hne Hfiles Hout. unfold Cli.main.
  rewrite (merge_pdfs_same_abspath input (Pathlib.str output) output)
    by (by apply abspath_str).
  rewrite (merge_pdfs_validation_raises E _ _ _ _ _ _
             (validate_existing_output _ _ _ _ Hwf Hbackend Hne Hfiles Hout)).
  done.
Qed.

End Callers.

(** ** The list of the window *)

Section ListHandlers.

Variable qt : Gui.Qt.

Implicit Types (self : Gui.UiPDFMerger) (lw : Gui.QListWidget) (l : list string)
  (n : nat) (x : string).

Lemma QListWidget_eta lw :
  lw = {| Gui.items := Gui.items lw; Gui.current := Gui.current lw |}.
Proof. by destruct lw. Qed.

Lemma takeItem_at lw n x :
  Gui.items lw !! n = Some x ->
  Gui.takeItem qt (Z.of_nat n) lw
  = (Some x,
     {| Gui.items := delete n (Gui.items lw);
        Gui.current :=
          Gui.current_after_take qt (Gui.items lw) (Gui.current lw) (Z.of_nat n) |}).
Proof.
  intros Hx. unfold Gui.takeItem.
  assert ((0 <=? Z.of_nat n)%Z = true) as -> by (apply Z.leb_le; lia).
  by rewrite Nat2Z.id, Hx.
Qed.

Lemma takeItem_none lw row :
  ~ (0 <= row < Gui.count lw)%Z -> Gui.takeItem qt row lw = (None, lw).
Proof.
  intros Hr. unfold Gui.takeItem, Gui.count in *.
  destruct (0 <=? row)%Z eqn:H0; [|done]. apply Z.leb_le in H0.
  rewrite lookup_ge_None_2; [done|]. lia.
Qed.

Lemma insertItem_at lw n x :
  n <= length (Gui.items lw) ->
  Gui.items (Gui.insertItem qt (Z.of_nat n) (Some x) lw)
  = take n (Gui.items lw) ++ x :: drop n (Gui.items lw).
Proof.
  intros Hn. unfold Gui.insertItem, Gui.count. simpl.
  replace (Z.to_nat (Z.min (Z.max (Z.of_nat n) 0) (Z.of_nat (length (Gui.items lw)))))
    with n by lia.
  done.
Qed.

Lemma insert_delete l n x :
  l !! n = Some x -> take n (delete n l) ++ x :: drop n (delete n l) = l.
Proof.
  intros Hx. pose proof (lookup_lt_Some _ _ _ Hx) as Hn.
  rewrite delete_take_drop.
  rewrite take_app_le by (rewrite length_take; lia).
  rewrite take_take, Nat.min_id.
  rewrite drop_app_ge by (rewrite length_take; lia).
  rewrite length_take, Nat.min_l, Nat.sub_diag by lia. simpl.
  by apply take_drop_middle.
Qed.

Lemma delete_insert l n x :
  n <= length l -> delete n (take n l ++ x :: drop n l) = l.
Proof.
  intros Hn.
  replace n with (length (take n l)) at 1 by (rewrite length_take; lia).
  rewrite delete_middle. apply take_drop.
Qed.

Lemma lookup_insert_at l n x :
  n <= length l -> (take n l ++ x :: drop n l) !! n = Some x.
Proof.
  intros Hn. apply list_lookup_middle. rewrite length_take. lia.
Qed.

Lemma insert_at_perm l n x : take n l ++ x :: drop n l ≡ₚ x :: l.
Proof. rewrite <- Permutation_middle. by rewrite take_drop. Qed.

Lemma setCurrentRow_insertItem lw n x :
  n <= length (Gui.items lw) ->
  Gui.setCurrentRow (Z.of_nat n) (Gui.insertItem qt (Z.of_nat n) (Some x) lw)
  = {| Gui.items := take n (Gui.items lw) ++ x :: drop n (Gui.items lw);
       Gui.current := Z.of_nat n |}.
Proof.
  intros Hn. unfold Gui.setCurrentRow, Gui.count.
  rewrite insertItem_at by done. f_equal.
  rewrite length_app, length_take. simpl. rewrite length_drop.
  assert ((0 <=? Z.of_nat n)%Z = true) as -> by (apply Z.leb_le; lia).
  assert ((Z.of_nat n
           <? Z.of_nat (n `min` length (Gui.items lw) + S (length (Gui.items lw) - n)))%Z
          = true) as -> by (apply Z.ltb_lt; lia).
  done.
Qed.

(** The list after [moveUpButtonClicked], for a current row that is
    there and is not the first. *)
Lemma moveUp_in_range self lw n x :
  Gui.listWidget self = lw ->
  Gui.current lw = Z.of_nat (S n) ->
  Gui.items lw !! S n = Some x ->
  Gui.listWidget (Gui.moveUpButtonClicked qt self)
  = {| Gui.items := take n (delete (S n) (Gui.items lw))
                    ++ x :: drop n (delete (S n) (Gui.items lw));
       Gui.current := Z.of_nat n |}.
Proof.
  intros <- Hc Hx. pose proof (lookup_lt_Some _ _ _ Hx) as Hlen.
  unfold Gui.moveUpButtonClicked. cbv zeta. simpl Gui.currentRow. rewrite Hc.
  assert ((Z.of_nat (S n) =? -1)%Z = false) as -> by (apply Z.eqb_neq; lia).
  assert ((Z.of_nat (S n) =? 0)%Z = false) as -> by (apply Z.eqb_neq; lia).
  simpl Gui.listWidget. rewrite (takeItem_at _ _ _ Hx).
  cbn [Gui.listWidget Gui.set_listWidget Gui.set_currentRow Gui.set_currentItem
       Gui.currentRow Gui.currentItem].
  replace (Z.of_nat (S n) - 1)%Z with (Z.of_nat n) by lia.
  rewrite setCurrentRow_insertItem; [done|].
  cbn [Gui.items]. rewrite length_delete by (by eexists). lia.
Qed.

(** The list after [moveDownButtonClicked], for a current row that is
    there and is not the last. *)
Lemma moveDown_in_range self lw n x :
  Gui.listWidget self = lw ->
  Gui.current lw = Z.of_nat n ->
  Gui.items lw !! n = Some x ->
  S n < length (Gui.items lw) ->
  Gui.listWidget (Gui.moveDownButtonClicked qt self)
  = {| Gui.items := take (S n) (delete n (Gui.items lw))
                    ++ x :: drop (S n) (delete n (Gui.items lw));
       Gui.current := Z.of_nat (S n) |}.
Proof.
  intros <- Hc Hx Hlen.
  unfold Gui.moveDownButtonClicked. cbv zeta. simpl Gui.currentRow. rewrite Hc.
  assert ((Z.of_nat n =? -1)%Z = false) as -> by (apply Z.eqb_neq; lia).
  simpl Gui.listWidget. unfold Gui.count at 1.
  assert ((Z.of_nat n >=? Z.of_nat (length (Gui.items (Gui.listWidget self))) - 1)%Z
          = false) as ->.
  { rewrite Z.geb_leb. apply Z.leb_gt. lia. }
  rewrite (takeItem_at _ _ _ Hx).
  cbn [Gui.listWidget Gui.set_listWidget Gui.set_currentRow Gui.set_currentItem
       Gui.currentRow Gui.currentItem].
  replace (Z.of_nat n + 1)%Z with (Z.of_nat (S n)) by lia.
  rewrite setCurrentRow_insertItem; [done|].
  cbn [Gui.items]. rewrite length_delete by (by eexists). lia.
Qed.

(** A move at the end of the list, or with no current row, leaves the
    items. *)
Lemma moveUp_first self lw :
  Gui.listWidget self = lw -> Gui.current lw = 0%Z ->
  Gui.items (Gui.listWidget (Gui.moveUpButtonClicked qt self)) = Gui.items lw.
Proof.
  intros <- Hc. unfold Gui.moveUpButtonClicked. cbv zeta. simpl Gui.currentRow.
  by rewrite Hc.
Qed.

Lemma moveDown_last self lw :
  Gui.listWidget self = lw -> (Gui.current lw >= Gui.count lw - 1)%Z ->
  Gui.items (Gui.listWidget (Gui.moveDownButtonClicked qt self)) = Gui.items lw.
Proof.
  intros <- Hc. unfold Gui.moveDownButtonClicked. cbv zeta. simpl Gui.currentRow.
  destruct (_ =? -1)%Z; [done|]. simpl Gui.listWidget.
  assert ((Gui.current (Gui.listWidget self) >=? Gui.count (Gui.listWidget self) - 1)%Z
          = true) as ->; [|done].
  rewrite Z.geb_leb. apply Z.leb_le. lia.
Qed.

Lemma move_out_of_range self lw :
  Gui.listWidget self = lw ->
  ~ (0 <= Gui.current lw < Gui.count lw)%Z ->
  Gui.items (Gui.listWidget (Gui.moveUpButtonClicked qt self)) = Gui.items lw
  /\ Gui.items (Gui.listWidget (Gui.moveDownButtonClicked qt self)) = Gui.items lw.
Proof.
  intros <- Hr. split.
  - unfold Gui.moveUpButtonClicked. cbv zeta. simpl Gui.currentRow.
    destruct (_ =? -1)%Z; [done|]. destruct (_ =? 0)%Z; [done|].
    simpl Gui.listWidget. rewrite takeItem_none by done. done.
  - unfold Gui.moveDownButtonClicked. cbv zeta. simpl Gui.currentRow.
    destruct (_ =? -1)%Z; [done|]. destruct (_ >=? _)%Z; [done|].
    simpl Gui.listWidget. rewrite takeItem_none by done. done.
Qed.

Lemma length_insert_at l n x : length (take n l ++ x :: drop n l) = S (length l).
Proof. by rewrite (Permutation_length (insert_at_perm l n x)). Qed.

(** X13.  Moving an item up and then down, or down and then up, gives the
    list back as it was, items and current row: the two buttons undo each
    other wherever both have something to do. *)
Theorem move_up_down_round_trip self :
  let lw := Gui.listWidget self in
  (0 <= Gui.current lw < Gui.count lw)%Z ->
  ((1 <= Gui.current lw)%Z ->
   Gui.listWidget (Gui.moveDownButtonClicked qt (Gui.moveUpButtonClicked qt self)) = lw)
  /\ ((Gui.current lw < Gui.count lw - 1)%Z ->
      Gui.listWidget (Gui.moveUpButtonClicked qt (Gui.moveDownButtonClicked qt self))
      = lw).
Proof.
  cbv zeta. remember (Gui.listWidget self) as lw eqn:Hlw. symmetry in Hlw.
  intros [H0 Hlt]. unfold Gui.count in *.
  destruct (Gui.items lw !! Z.to_nat (Gui.current lw)) as [x|] eqn:Hx;
    [|apply lookup_ge_None in Hx; lia].
  pose proof (lookup_lt_Some _ _ _ Hx) as Hlen.
  split.
  - intros H1. destruct (Z.to_nat (Gui.current lw)) as [|n] eqn:Hn; [lia|].
    assert (Gui.current lw = Z.of_nat (S n)) as Hc by lia.
    pose proof (moveUp_in_range self lw n x Hlw Hc Hx) as Hup.
    assert (n <= length (delete (S n) (Gui.items lw))) as Hn'
      by (rewrite length_delete by (by eexists); lia).
    rewrite (moveDown_in_range _ _ n x Hup); cbn [Gui.items Gui.current].
    + rewrite delete_insert by done. rewrite insert_delete by done.
      rewrite <- Hc. symmetry. apply QListWidget_eta.
    + done.
    + by apply lookup_insert_at.
    + rewrite length_insert_at, length_delete by (by eexists). lia.
  - intros H1. remember (Z.to_nat (Gui.current lw)) as n eqn:Hn.
    assert (Gui.current lw = Z.of_nat n) as Hc by lia.
    assert (S n < length (Gui.items lw)) as Hlen' by lia.
    pose proof (moveDown_in_range self lw n x Hlw Hc Hx Hlen') as Hdown.
    assert (S n <= length (delete n (Gui.items lw))) as Hn'
      by (rewrite length_delete by (by eexists); lia).
    rewrite (moveUp_in_range _ _ n x Hdown); cbn [Gui.items Gui.current].
    + rewrite delete_insert by done. rewrite insert_delete by done.
      rewrite <- Hc. symmetry. apply QListWidget_eta.
    + done.
    + by apply lookup_insert_at.
Qed.

(** X14.  The move buttons lose no file and add none: the items after a
    click are those before it, in another order at most, whatever the
    current row is. *)
Theorem move_keeps_items self :
  Gui.items (Gui.listWidget (Gui.moveUpButtonClicked qt self))
  ≡ₚ Gui.items (Gui.listWidget self)
  /\ Gui.items (Gui.listWidget (Gui.moveDownButtonClicked qt self))
     ≡ₚ Gui.items (Gui.listWidget self).
Proof.
  remember (Gui.listWidget self) as lw eqn:Hlw. symmetry in Hlw.
  destruct (decide (0 <= Gui.current lw < Gui.count lw)%Z) as [[H0 Hlt]|Hout].
  2:{ destruct (move_out_of_range self lw Hlw Hout) as [-> ->]. done. }
  unfold Gui.count in *.
  destruct (Gui.items lw !! Z.to_nat (Gui.current lw)) as [x|] eqn:Hx;
    [|apply lookup_ge_None in Hx; lia].
  pose proof (delete_Permutation _ _ _ Hx) as Hperm.
  split.
  - destruct (Z.to_nat (Gui.current lw)) as [|n] eqn:Hn.
    + rewrite (moveUp_first self lw Hlw); [done|lia].
    + rewrite (moveUp_in_range self lw n x Hlw) by (done || lia).
      cbn [Gui.items]. by rewrite insert_at_perm.
  - remember (Z.to_nat (Gui.current lw)) as n eqn:Hn.
    destruct (decide (S n < length (Gui.items lw))) as [Hlen|Hlast].
    + rewrite (moveDown_in_range self lw n x Hlw) by (done || lia).
      cbn [Gui.items]. by rewrite insert_at_perm.
    + rewrite (moveDown_last self lw Hlw); [done|]. unfold Gui.count. lia.
Qed.

(** X15.  The item moved stays the current one: after a move that has
    something to do, the current row is one up or one down, and the text
    there is the text that was at the current row before. *)
Theorem move_follows_item self :
  let lw := Gui.listWidget self in
  let up := Gui.listWidget (Gui.moveUpButtonClicked qt self) in
  let down := Gui.listWidget (Gui.moveDownButtonClicked qt self) in
  (0 <= Gui.current lw < Gui.count lw)%Z ->
  ((1 <= Gui.current lw)%Z ->
   Gui.current up = (Gui.current lw - 1)%Z
   /\ Gui.items up !! Z.to_nat (Gui.current up)
      = Gui.items lw !! Z.to_nat (Gui.current lw))
  /\ ((Gui.current lw < Gui.count lw - 1)%Z ->
      Gui.current down = (Gui.current lw + 1)%Z
      /\ Gui.items down !! Z.to_nat (Gui.current down)
         = Gui.items lw !! Z.to_nat (Gui.current lw)).
Proof.
  cbv zeta. remember (Gui.listWidget self) as lw eqn:Hlw. symmetry in Hlw.
  intros [H0 Hlt]. unfold Gui.count in *.
  destruct (Gui.items lw !! Z.to_nat (Gui.current lw)) as [x|] eqn:Hx;
    [|apply lookup_ge_None in Hx; lia].
  pose proof (lookup_lt_Some _ _ _ Hx) as Hlen.
  split.
  - intros H1. destruct (Z.to_nat (Gui.current lw)) as [|n] eqn:Hn; [lia|].
    assert (Gui.current lw = Z.of_nat (S n)) as Hc by lia.
    rewrite (moveUp_in_range self lw n x Hlw Hc Hx). cbn [Gui.items Gui.current].
    split; [lia|]. rewrite Nat2Z.id. apply lookup_insert_at.
    rewrite length_delete by (by eexists). lia.
  - intros H1. remember (Z.to_nat (Gui.current lw)) as n eqn:Hn.
    assert (Gui.current lw = Z.of_nat n) as Hc by lia.
    rewrite (moveDown_in_range self lw n x Hlw Hc Hx) by lia.
    cbn [Gui.items Gui.current].
    split; [lia|]. rewrite Nat2Z.id. apply lookup_insert_at.
    rewrite length_delete by (by eexists). lia.
Qed.

(** X16.  [deleteButtonClicked] takes the current item out of the list and
    no other: the items before it and after it stay, in their order; with
    no current row the list is as it was. *)
Theorem delete_removes_current self :
  let lw := Gui.listWidget self in
  let lw' := Gui.listWidget (Gui.deleteButtonClicked qt self) in
  ((0 <= Gui.current lw < Gui.count lw)%Z ->
   Gui.items lw' = delete (Z.to_nat (Gui.current lw)) (Gui.items lw)
   /\ Gui.count lw' = (Gui.count lw - 1)%Z)
  /\ (Gui.current lw = (-1)%Z -> lw' = lw).
Proof.
  cbv zeta. unfold Gui.deleteButtonClicked. cbv zeta. simpl Gui.currentRow.
  simpl Gui.listWidget.
  remember (Gui.listWidget self) as lw eqn:Hlw. split.
  - intros [H0 Hlt]. unfold Gui.count in *.
    destruct (Gui.items lw !! Z.to_nat (Gui.current lw)) as [x|] eqn:Hx;
      [|apply lookup_ge_None in Hx; lia].
    assert ((Gui.current lw =? -1)%Z = false) as -> by (apply Z.eqb_neq; lia).
    simpl negb. cbv iota. cbn [Gui.listWidget Gui.set_listWidget].
    replace (Gui.current lw) with (Z.of_nat (Z.to_nat (Gui.current lw))) at 1 3 by lia.
    rewrite (takeItem_at _ _ _ Hx). cbn [snd Gui.items].
    split; [done|]. rewrite length_delete by (by eexists).
    pose proof (lookup_lt_Some _ _ _ Hx). lia.
  - intros Hc. rewrite Hc. simpl. by subst.
Qed.

Lemma addItem_items lw x :
  Gui.items (Gui.addItem qt x lw) = Gui.items lw ++ [x].
Proof.
  unfold Gui.addItem, Gui.count. rewrite insertItem_at by done.
  by rewrite firstn_all, drop_all.
Qed.

(** X17.  [addButtonClicked] puts the files chosen at the end of the list,
    in the order the dialog gives them, the empty names left out; what
    was in the list stays where it was. *)
Theorem add_appends_in_order paths self :
  Gui.items (Gui.listWidget (Gui.addButtonClicked qt paths self))
  = Gui.items (Gui.listWidget self)
    ++ List.filter (fun p => negb (String.eqb p "")) paths.
Proof.
  unfold Gui.addButtonClicked. revert self.
  induction paths as [|p paths IH]; intros self; simpl.
  - by rewrite app_nil_r.
  - rewrite IH. destruct (negb (String.eqb p "")); [|done].
    cbn [Gui.listWidget Gui.set_listWidget]. rewrite addItem_items.
    by rewrite <- app_assoc.
Qed.

End ListHandlers.

Section WalkJoin.

Variable E : Env.
Hypothesis cwd_abs : Path.isabs (cwd E) = true.

Implicit Types (m : fsmap) (d q x dir : string) (l : list string).

Lemma walk_app m d l1 l2 :
  walk m d (l1 ++ l2)
  = match walk m d l1 with inr d' => walk m d' l2 | inl e => inl e end.
Proof.
  revert d. induction l1 as [|c l1 IH]; intros d; simpl; [done|].
  destruct (m !! d) as [[|?]|]; [apply IH|done..].
Qed.

Lemma no_slash_not_abs x :
  Py.has_char Py.slash x = false -> Py.startswith Path.sep x = false.
Proof.
  destruct x as [|a x]; [done|]. intros H. simpl in H.
  apply orb_false_iff in H as [Ha _].
  unfold Py.startswith, Path.sep. rewrite prefix_cons, prefix_nil, andb_true_r.
  by rewrite Ascii.eqb_sym.
Qed.

Lemma join_rel q x :
  q <> "" -> Py.startswith Path.sep x = false ->
  Path.join q x
  = q +:+ (if Py.endswith_char Py.slash q then x else Path.sep +:+ x).
Proof.
  intros Hq Hx. unfold Path.join. rewrite Hx.
  assert (String.eqb q "" = false) as -> by (by apply String.eqb_neq).
  simpl orb. by destruct (Py.endswith_char Py.slash q).
Qed.

Lemma join_join q dir x :
  dir <> "" -> Py.startswith Path.sep x = false ->
  Path.join q (Path.join dir x) = Path.join (Path.join q dir) x.
Proof.
  intros Hd Hx.
  assert (forall t, Path.join q (dir +:+ t) = Path.join q dir +:+ t) as Hjoin.
  { intros t. unfold Path.join, Py.startswith, Path.sep.
    rewrite prefix_slash_app by done.
    destruct (String.prefix "/" dir); [done|].
    destruct (_ || _); by rewrite ?sapp_assoc. }
  assert (Path.join q dir <> "") as Hne.
  { unfold Path.join.
    destruct (Py.startswith Path.sep dir); [done|].
    destruct (_ || _); intros H; apply sapp_eq_nil in H as [_ H];
      [done|]. by apply sapp_eq_nil in H as [_ H]. }
  assert (Py.endswith_char Py.slash (Path.join q dir)
          = Py.endswith_char Py.slash dir) as He.
  { unfold Path.join. destruct (Py.startswith Path.sep dir); [done|].
    destruct (_ || _); by rewrite ?endswith_char_app_ne. }
  by rewrite (join_rel dir x), Hjoin, (join_rel (Path.join q dir) x), He.
Qed.

Lemma split_on_join q x :
  q <> "" -> Py.has_char Py.slash x = false ->
  Py.split_on Py.slash (Path.join q x)
  = (if Py.endswith_char Py.slash q then removelast (Py.split_on Py.slash q)
     else Py.split_on Py.slash q) ++ [x].
Proof.
  intros Hq Hx. unfold Path.join. rewrite (no_slash_not_abs x Hx).
  assert (String.eqb q "" = false) as -> by (by apply String.eqb_neq).
  simpl orb. destruct (Py.endswith_char Py.slash q) eqn:He.
  - destruct (endswith_char_inv _ _ He) as [q0 ->].
    rewrite sapp_assoc, sapp_cons, sapp_nil_l, !split_on_app_sep.
    rewrite (split_on_no_sep _ x Hx). simpl Py.split_on.
    by rewrite removelast_last.
  - unfold Path.sep. rewrite sapp_cons, sapp_nil_l, split_on_app_sep.
    change "/"%char with Py.slash. by rewrite (split_on_no_sep _ x Hx).
Qed.

(** The walk into a directory and one name further. *)
Lemma namei_join m dir x kd :
  dir <> "" -> plain x ->
  namei E m dir = inr kd -> m !! kd = Some Dir ->
  namei E m (Path.join dir x) = inr (Path.join kd x).
Proof using cwd_abs.
  intros Hd (Hx1 & Hx2 & Hx3 & Hx) Hwalk Hkd. unfold namei in *.
  apply String.eqb_neq in Hd as Hd'. rewrite Hd' in Hwalk. cbv zeta in Hwalk.
  pose proof (no_slash_not_abs x Hx) as Hrel.
  assert (String.eqb (Path.join dir x) "" = false) as ->.
  { apply String.eqb_neq. unfold Path.join. rewrite Hrel.
    destruct (_ || _); intros H; apply sapp_eq_nil in H as [? _]; done. }
  cbv zeta. rewrite join_join by done.
  set (q := Path.join (cwd E) dir) in *.
  assert (Path.isabs q = true) as Hq by (by apply join_abs).
  assert (q <> "") as Hq0 by (by intros Heq; rewrite Heq in Hq).
  rewrite initial_slashes_join by done.
  rewrite split_on_join, walk_app by done.
  assert (walk m (Path.slashes (initial_slashes q))
            (if Py.endswith_char Py.slash q
             then removelast (Py.split_on Py.slash q)
             else Py.split_on Py.slash q) = inr kd) as ->.
  { destruct (Py.endswith_char Py.slash q) eqn:He; [|done].
    destruct (endswith_char_inv _ _ He) as [q0 Hq1]. rewrite Hq1 in Hwalk |- *.
    rewrite split_on_app_sep in Hwalk |- *. simpl Py.split_on in *.
    rewrite removelast_last. rewrite walk_app in Hwalk.
    destruct (walk m _ (Py.split_on Py.slash q0)) as [|d']; [done|].
    simpl in Hwalk. destruct (m !! d') as [[|?]|]; by try done. }
  simpl. rewrite Hkd.
  apply String.eqb_neq in Hx1, Hx2, Hx3. by rewrite Hx1, Hx2, Hx3.
Qed.

End WalkJoin.

Section MergeButton.

Variable E : Env.
Hypothesis cwd_abs : Path.isabs (cwd E) = true.
Variable qt : Gui.Qt.

(** X18.  Without a Yes, [mergeButtonClicked] replaces nothing.  When the
    output directory is a directory and the output name is a file name,
    with no slash in it and not of dots only, and the answer to the
    question about overwriting is not Yes, or the question is not asked:
    every file and directory that was there before the click is there
    after it, a file with the content it had. *)
Theorem merge_button_replaces_nothing_unasked self w w' self' :
  wf (fs w) ->
  os_path_isdir E (fs w) (Py.strip (Gui.lineEdit self)) = true ->
  Py.has_char Py.slash (Py.strip (Gui.outputFile self)) = false ->
  Py.all_char Py.dot (Path.basename (Py.strip (Gui.outputFile self))) = false ->
  Gui.mergeButtonClicked E qt false self w = (w', self') ->
  forall k n, fs w !! k = Some n -> fs w' !! k = Some n.
Proof using cwd_abs.
  intros Hwf Hisdir Hslash Hdots. unfold Gui.mergeButtonClicked.
  destruct (String.eqb_spec (Py.strip (Gui.lineEdit self)) "") as [|Hd];
    [by intros [= <- _]|].
  destruct (String.eqb _ ""); [by intros [= <- _]|].
  destruct (_ =? 0)%Z; [by intros [= <- _]|].
  cbv zeta.
  set (out_path := Path.join (Py.strip (Gui.lineEdit self))
                     (Py.strip (Gui.outputFile self) +:+ ".pdf")).
  assert (stat E (fs w) out_path = fs w !! key E out_path) as Hstat.
  { unfold os_path_isdir in Hisdir.
    destruct (stat E (fs w) (Py.strip (Gui.lineEdit self))) as [[|?]|] eqn:Hs;
      try done.
    apply (stat_Some E cwd_abs) in Hs as [Hwalk Hkd].
    assert (plain (Py.strip (Gui.outputFile self) +:+ ".pdf")) as Hplain.
    { destruct (app_pdf_not_dots (Py.strip (Gui.outputFile self))) as (? & ? & ?).
      split_and!; try done. by rewrite has_char_app, Hslash. }
    pose proof (namei_join E cwd_abs _ _ _ _ Hd Hplain Hwalk Hkd) as Hout.
    fold out_path in Hout. unfold stat. rewrite Hout.
    by rewrite (namei_key E cwd_abs _ _ _ Hout). }
  unfold os_path_exists. rewrite Hstat.
  destruct (fs w !! key E out_path) as [n0|] eqn:Hout; [by intros [= <- _]|].
  simpl andb. cbv iota.
  destruct (merge_pdfs E _ out_path true w) as [w1 r] eqn:Hrun.
  destruct (merge_pdfs_effect E cwd_abs _ _ _ _ _ _ Hwf Hrun) as (m1 & Hm1 & Hfs).
  assert (forall k n, fs w !! k = Some n -> m1 !! k = Some n) as Hkeep.
  { intros k n Hk. destruct (decide (m1 !! k = fs w !! k)) as [->|Hne]; [done|].
    destruct (Hm1 k Hne) as (? & _). congruence. }
  assert (final_path (Path.abspath (cwd E) out_path) = key E out_path) as Hfin.
  { unfold out_path. by rewrite final_path_join_pdf, Hdots. }
  rewrite Hfin in Hfs.
  destruct r as [p|e]; intros [= <- _] k n Hk.
  - destruct Hfs as (-> & _ & pages & ->).
    rewrite lookup_insert_ne by congruence. by apply Hkeep.
  - destruct Hfs as [->|(_ & partial & ->)]; [by apply Hkeep|].
    rewrite lookup_insert_ne by congruence. by apply Hkeep.
Qed.

End MergeButton.

(** ** Overwriting, and what the converters leave *)

Section Overwrite.

Variable E : Env.
Hypothesis cwd_abs : Path.isabs (cwd E) = true.

Implicit Types (m : fsmap) (w : world) (p d : string).

(** X19.  With [overwrite] true and inputs that are PDF files the kernel
    finds, a file that exists at an output path with an extension is
    replaced: the call returns that path and the file holds the pages of
    the inputs, in order, whatever it held before. *)
Theorem overwrite_replaces_existing input_files output_path w old w2 tmpdir :
  wf (fs w) ->
  has_PdfMerger E = true ->
  input_files <> [] ->
  Forall (fun f => os_path_isfile E (fs w) f = true) input_files ->
  Forall (pdf_input E (fs w)) input_files ->
  (Path.splitext (Path.abspath (cwd E) output_path)).2 <> "" ->
  fs w !! Path.abspath (cwd E) output_path = Some (File old) ->
  TemporaryDirectory E w = (w2, Ok tmpdir) ->
  exists w',
    merge_pdfs E input_files output_path true w
    = (w', Ok (Path.abspath (cwd E) output_path))
    /\ fs w' !! Path.abspath (cwd E) output_path
       = Some (File (Pdf (concat (map (pages_of E (fs w)) input_files)))).
Proof using cwd_abs.
  intros Hwf Hbackend Hne Hfiles Hin Hext Hout Htmp.
  set (out_path := Path.abspath (cwd E) output_path) in *.
  pose proof (final_path_ext _ Hext) as Hfin.
  assert (kept_inputs input_files = input_files) as Hkept.
  { apply kept_inputs_pdfs. eapply Forall_impl; [exact Hin|by intros f []]. }
  assert (validate_request E input_files output_path true w
          = (w, Ok (input_files, out_path))) as Hval.
  { rewrite <- Hkept at 2. apply validate_request_passes; rewrite ?Hkept; auto.
    - by eapply wf_lookup.
    - fold out_path. congruence. }
  destruct (merge_pdfs_of_pdfs E cwd_abs _ _ _ _ _ _ _ _ _ Hwf Hin Hval Htmp)
    as (w' & Hrun & Hfs).
  { apply mkdtemp_inv in Htmp as (_ & Hfresh & _ & ->); [|done]. simpl.
    rewrite Hfin. rewrite lookup_insert_ne by congruence. congruence. }
  exists w'. rewrite Hfin in Hrun, Hfs. split; [done|].
  rewrite Hfs. apply lookup_insert_eq.
Qed.

End Overwrite.

Section ConverterFailures.

Variable E : Env.

Implicit Types (m : fsmap) (w : world) (p d : string).

Lemma with_open_wb_ret_raises p dt w w' e :
  with_open_wb E p (ret dt) w = (w', Raise e) -> w' = w.
Proof.
  rewrite with_open_wb_ret.
  destruct (fs w !! key E p) as [[|?]|];
    [by intros [= <-]| |];
    destruct (fs w !! Path.dirname (key E p)) as [[|?]|];
    try done; by intros [= <-].
Qed.

(** X20.  The text converter writes its output last: when it raises -- the
    input cannot be read, the layout fails, the output cannot be opened --
    no file has been made or changed, the output included. *)
Theorem failed_text_conversion_writes_nothing txt_path out_pdf w w' e :
  _text_to_pdf E txt_path out_pdf w = (w', Raise e) ->
  fs w' = fs w /\ written w' = written w.
Proof.
  unfold _text_to_pdf.
  intros [(e1 & H & _)|(w1 & content & H & H2)]%bind_inv.
  - unfold read_text, bind, get_fs in H.
    destruct (namei E (fs w) txt_path) as [|k]; [by injection H as <-|].
    destruct (fs w !! k) as [[|dt]|]; try by injection H as <-.
    unfold lift in H. destruct (Text.decode _ _); by injection H as <-.
  - assert (w1 = w) as ->.
    { unfold read_text, bind, get_fs in H.
      destruct (namei E (fs w) txt_path) as [|k]; [done|].
      destruct (fs w !! k) as [[|dt]|]; try done.
      unfold lift in H. destruct (Text.decode _ _); [done|].
      unfold ret in H. by injection H as <-. }
    unfold doc_build in H2.
    apply bind_inv in H2 as [(? & [=] & _)|(? & [] & [= <-] & H2)].
    apply bind_inv in H2 as [(e2 & H2 & _)|(w2 & pages & H2 & H3)].
    + unfold lift in H2. destruct (platypus_build E _ _); [|done].
      by injection H2 as <-.
    + unfold lift in H2. destruct (platypus_build E _ _); [done|].
      injection H2 as <- _. by apply with_open_wb_ret_raises in H3 as ->.
Qed.

Lemma img2pdf_call_calls src o w w' r :
  img2pdf_call E src o w = (w', r) ->
  fs w' = fs w /\ calls w' = calls w ++ [Img2pdfConvert src o].
Proof.
  unfold img2pdf_call, bind, log, get_fs. simpl.
  destruct (img2pdf_convert E _ _ _); simpl; by intros [= <- _].
Qed.

(** One attempt to encode [src] into [out] touches [out] only. *)
Lemma encode_attempt_frame out src o w w' r k :
  with_open_wb E out (img2pdf_call E src o) w = (w', r) ->
  k <> key E out -> fs w' !! k = fs w !! k.
Proof.
  intros H Hk.
  apply with_open_wb_inv in H as
    [(e & _ & -> & _)|(_ & _ & [(e & _ & -> & _)|(dt & _ & -> & _)])];
    [done| | |apply reads_only_img2pdf_call];
    by rewrite lookup_insert_ne.
Qed.

(** The fallback, whatever comes of it: either the fixed PNG has not been
    encoded, or it is there. *)
Lemma image_fallback_png img_path out_pdf tmp_dir w w' r :
  let fixed := Path.join tmp_dir ("fixed_" +:+ Path.stem img_path +:+ ".png") in
  key E fixed <> key E out_pdf ->
  image_fallback E img_path out_pdf tmp_dir w = (w', r) ->
  (exists l, calls w' = calls w ++ l
             /\ l ⊆ [ImageOpen img_path; ExifTranspose; ImageSave fixed])
  \/ exists png, fs w' !! key E fixed = Some (File (Raw png)).
Proof.
  intros fixed Hne. unfold image_fallback. fold fixed.
  intros [(? & [=] & _)|(? & [] & [= <-] & Ha)]%bind_inv.
  apply bind_inv in Ha as [(? & [=] & _)|(? & m & [= <-] & Hb)].
  apply bind_inv in Hb as [(e & H1 & _)|(w1 & im & H1 & Hc)].
  { left. exists [ImageOpen img_path]. unfold lift in H1.
    destruct (Image_open E _ _); [|done]. injection H1 as <- _. simpl.
    split; [done|]. intros c Hc; repeat (apply elem_of_cons in Hc as [->|Hc]; [repeat constructor|]); by apply elem_of_nil in Hc. }
  assert (w1 = World (fs w) (calls w ++ [ImageOpen img_path]) (written w)) as ->.
  { unfold lift in H1. destruct (Image_open E _ _); [done|]. by injection H1 as <-. }
  apply bind_inv in Hc as [(? & [=] & _)|(? & [] & [= <-] & Hd)].
  apply bind_inv in Hd as [(e & H2 & _)|(w2 & im2 & H2 & He)].
  { left. exists [ImageOpen img_path; ExifTranspose]. unfold lift in H2.
    destruct (exif_transpose E _); [|done]. injection H2 as <- _. simpl.
    split; [by rewrite <- app_assoc|]. intros c Hc; repeat (apply elem_of_cons in Hc as [->|Hc]; [repeat constructor|]); by apply elem_of_nil in Hc. }
  assert (w2 = World (fs w) ((calls w ++ [ImageOpen img_path]) ++ [ExifTranspose])
                 (written w)) as ->.
  { unfold lift in H2. destruct (exif_transpose E _); [done|]. by injection H2 as <-. }
  apply bind_inv in He as [(? & [=] & _)|(? & [] & [= <-] & Hf)].
  apply bind_inv in Hf as [(e & H3 & _)|(w3 & png & H3 & Hg)].
  { left. exists [ImageOpen img_path; ExifTranspose; ImageSave fixed].
    unfold lift in H3. destruct (png_encode E _); [|done]. injection H3 as <- _. simpl.
    split; [by rewrite <- !app_assoc|done]. }
  assert (w3 = World (fs w)
                 (((calls w ++ [ImageOpen img_path]) ++ [ExifTranspose])
                  ++ [ImageSave fixed]) (written w)) as ->.
  { unfold lift in H3. destruct (png_encode E _); [done|]. by injection H3 as <-. }
  apply bind_inv in Hg as [(e & H4 & _)|(w4 & [] & H4 & Hh)].
  { left. exists [ImageOpen img_path; ExifTranspose; ImageSave fixed].
    apply with_open_wb_ret_raises in H4 as ->. simpl.
    split; [by rewrite <- !app_assoc|done]. }
  right. exists png.
  rewrite (encode_attempt_frame _ _ _ _ _ _ _ Hh Hne).
  rewrite with_open_wb_ret in H4. simpl in H4.
  destruct (fs w !! key E fixed) as [[|?]|];
    [done| |];
    destruct (fs w !! Path.dirname (key E fixed)) as [[|?]|];
    try done; injection H4 as <-; apply lookup_insert_eq.
Qed.

(** X21.  The PNG the fallback saves stays where it was saved: when a call
    of [_image_to_pdf] has encoded the fixed PNG, that file is still in
    [tmp_dir] when the call returns or raises. *)
Theorem fallback_png_left_behind img_path out_pdf tmp_dir w w' r :
  let fixed := Path.join tmp_dir ("fixed_" +:+ Path.stem img_path +:+ ".png") in
  key E fixed <> key E out_pdf ->
  _image_to_pdf E img_path out_pdf tmp_dir w = (w', r) ->
  Img2pdfConvert fixed fixed_opts ∉ calls w ->
  Img2pdfConvert fixed fixed_opts ∈ calls w' ->
  exists png, fs w' !! key E fixed = Some (File (Raw png)).
Proof.
  intros fixed Hne Hrun Hbefore Hafter. unfold _image_to_pdf in Hrun.
  assert (forall w0 w1 r1 o,
            with_open_wb E out_pdf (img2pdf_call E img_path o) w0 = (w1, r1) ->
            auto_orient o <> Some false ->
            Img2pdfConvert fixed fixed_opts ∈ calls w1 ->
            Img2pdfConvert fixed fixed_opts ∈ calls w0) as Hother.
  { intros w0 w1 r1 o H Ho Hin.
    apply encode_attempt_calls in H as [[Hc _]|Hc]; rewrite Hc in Hin; [done|].
    apply elem_of_app in Hin as [?|Hin]; [done|].
    apply list_elem_of_singleton in Hin. injection Hin as _ <-. done. }
  apply try_except_inv in Hrun as [([] & H & _)|(w1 & e & H & Hrun)].
  { destruct Hbefore. eapply Hother; [exact H| |exact Hafter].
    unfold primary_opts. simpl. discriminate. }
  assert (Img2pdfConvert fixed fixed_opts ∉ calls w1) as Hbefore1.
  { intros Hin. destruct Hbefore. eapply Hother; [exact H| |exact Hin].
    unfold primary_opts. simpl. discriminate. }
  destruct (some_other_error e).
  { injection Hrun as <- _. done. }
  apply try_except_inv in Hrun as [([] & H2 & _)|(w2 & e2 & H2 & Hrun)].
  - apply image_fallback_png in H2 as [(l & Hl & Hsub)|?]; [|done..].
    rewrite Hl in Hafter. apply elem_of_app in Hafter as [?|Hin]; [done|].
    apply Hsub in Hin.
    repeat (apply elem_of_cons in Hin as [Hin|Hin]; [done|]).
    by apply elem_of_nil in Hin.
  - assert (Img2pdfConvert fixed fixed_opts ∈ calls w2) as Hin2.
    { eapply Hother; [exact Hrun| |exact Hafter]. simpl. discriminate. }
    rewrite (encode_attempt_frame _ _ _ _ _ _ _ Hrun Hne).
    apply image_fallback_png in H2 as [(l & Hl & Hsub)|?]; [|done..].
    rewrite Hl in Hin2. apply elem_of_app in Hin2 as [?|Hin]; [done|].
    apply Hsub in Hin.
    repeat (apply elem_of_cons in Hin as [Hin|Hin]; [done|]).
    by apply elem_of_nil in Hin.
Qed.

End ConverterFailures.

(** ** Instances of the further statements *)

(** A merge into [out.pdf]: [b.pdf], which is not an input, is as it
    was. *)
Lemma merge_pdfs_keeps_existing_witness :
  fs (merge_pdfs example_env ["a.pdf"] "out.pdf" false example_world).1 !! "/w/b.pdf"
  = Some (File (Pdf [Page 3; Page 4; Page 5])).
Proof.
  refine (merge_pdfs_keeps_existing example_env eq_refl ["a.pdf"] "out.pdf" false
            example_world _ (Ok "/w/out.pdf") "/w/b.pdf" _ _ _ _ _).
  - exact example_wf.
  - vm_compute. reflexivity.
  - vm_compute. reflexivity.
  - left. vm_compute. discriminate.
Defined.

(** A blank entry, then a file that is there, then two that are not. *)
Lemma first_missing_input_reported_witness :
  merge_pdfs example_env ["  "; "a.pdf"; "nope.pdf"; "zz.pdf"] "a.pdf/out.pdf" true
    example_world
  = (example_world, Raise (Exn ValueError ("Input file not found: " +:+ "nope.pdf") None)).
Proof.
  refine (first_missing_input_reported example_env
            ["  "; "a.pdf"; "nope.pdf"; "zz.pdf"] "a.pdf/out.pdf" true example_world
            ["a.pdf"] "nope.pdf" ["zz.pdf"] _ _ _ _).
  - reflexivity.
  - vm_compute. reflexivity.
  - constructor; [|constructor]. vm_compute. reflexivity.
  - vm_compute. reflexivity.
Defined.

(** An output below [a.pdf], which is a file. *)
Lemma output_below_file_raises_witness :
  merge_pdfs example_env ["b.pdf"] "a.pdf/out.pdf" true example_world
  = (example_world,
     Raise (EEXIST (Path.dirname (Path.abspath (cwd example_env) "a.pdf/out.pdf")))).
Proof.
  refine (output_below_file_raises example_env eq_refl ["b.pdf"] "a.pdf/out.pdf" true
            example_world (Pdf [Page 1; Page 2]) _ _ _ _ _).
  - exact example_wf.
  - reflexivity.
  - vm_compute. discriminate.
  - constructor; [|constructor]. vm_compute. reflexivity.
  - vm_compute. reflexivity.
Defined.

(** A relative output path with [..] in it. *)
Lemma merge_pdfs_returns_absolute_witness :
  Path.isabs "/w/out.pdf" = true
  /\ Path.normpath "/w/out.pdf" = "/w/out.pdf"
  /\ (forall cwd', Path.abspath cwd' "/w/out.pdf" = "/w/out.pdf")
  /\ os_path_isfile example_env
       (fs (merge_pdfs example_env ["a.pdf"] "old/../out.pdf" false example_world).1)
       "/w/out.pdf" = true.
Proof.
  refine (merge_pdfs_returns_absolute example_env eq_refl ["a.pdf"] "old/../out.pdf"
            false example_world _ "/w/out.pdf" _ _).
  - exact example_wf.
  - vm_compute. reflexivity.
Defined.

(** A text file, given by a relative path. *)
Lemma supported_input_converted_witness :
  let f := "c.txt" in
  let ext := Py.lower (Path.suffix f) in
  let tmp := default (tempdir example_env) (Some "/tmp/tmpa") in
  let out tag := Path.join tmp (tag +:+ Path.stem f +:+ ".pdf") in
  (ext ∈ IMAGE_EXTS
   /\ convert_to_pdf example_env f (Some "/tmp/tmpa") example_world
      = (_image_to_pdf example_env (key example_env f) (out "img_") tmp ;;
         ret (out "img_")) example_world)
  \/ (ext ∈ TEXT_EXTS
      /\ convert_to_pdf example_env f (Some "/tmp/tmpa") example_world
         = (_text_to_pdf example_env (key example_env f) (out "txt_") ;;
            ret (out "txt_")) example_world)
  \/ (ext ∈ DOCX_EXTS /\ _HAS_DOCX2PDF example_env = true
      /\ convert_to_pdf example_env f (Some "/tmp/tmpa") example_world
         = (docx2pdf_call example_env (key example_env f) (out "docx_") ;;
            ret (out "docx_")) example_world).
Proof.
  refine (supported_input_converted example_env eq_refl "c.txt" (Some "/tmp/tmpa")
            example_world _ _).
  - vm_compute. reflexivity.
  - vm_compute. reflexivity.
Defined.


(** The ampersand of the entity written for [<]. *)
Lemma _escape_xml_no_reserved_witness :
  38%N <> 60%N /\ 38%N <> 62%N /\ 38%N <> 34%N /\ 38%N <> 39%N.
Proof.
  refine (_escape_xml_no_reserved (Text.of_string "a<b") 38%N _).
  apply (bool_decide_unpack _). vm_compute. exact I.
Defined.

Lemma _escape_xml_injective_witness :
  Text.of_string "a<b" = [97%N; 60%N; 98%N].
Proof.
  refine (_escape_xml_injective (Text.of_string "a<b") [97%N; 60%N; 98%N] _).
  vm_compute. reflexivity.
Defined.

(** The legacy wrapper with the name [merged] and the directory
    [/w/old]. *)
Lemma merge_writes_name_pdf_witness :
  let w' := (Pdfmerge.merge example_env " merged " (Some "/w/old") ["a.pdf"; "b.pdf"]
               example_world).1 in
  let name := Py.strip " merged " in
  let dir := Py.strip (default "" (Some "/w/old")) in
  let target := Path.abspath (cwd example_env) (Path.join dir (name +:+ ".pdf")) in
  name <> "" /\ dir <> ""
  /\ exists pages,
       fs w' !! (if Py.all_char Py.dot (Path.basename name)
                 then target +:+ ".pdf" else target)
       = Some (File (Pdf pages)).
Proof.
  refine (merge_writes_name_pdf example_env eq_refl " merged " (Some "/w/old")
            ["a.pdf"; "b.pdf"] example_world _ _ _).
  - exact example_wf.
  - vm_compute. reflexivity.
Defined.

(** An output path that [Path] writes in another way. *)
Lemma main_path_wrapping_harmless_witness :
  merge_pdfs example_env ["a.pdf"] (Pathlib.str "./old//out.pdf") false example_world
  = merge_pdfs example_env ["a.pdf"] "./old//out.pdf" false example_world.
Proof.
  exact (main_path_wrapping_harmless example_env eq_refl ["a.pdf"] "./old//out.pdf"
           false example_world).
Defined.

(** Two inputs merged into [out]. *)
Lemma main_status_and_files_witness :
  let run := Cli.main example_env ["a.pdf"; "b.pdf"] "out" false example_world in
  (Cli.status run.2 = 0%Z
   /\ Cli.stdout run.2
      = ["Merged " +:+ pretty (length ["a.pdf"; "b.pdf"]) +:+ " files -> "
         +:+ Pathlib.str "out"]
   /\ Cli.stderr run.2 = []
   /\ exists pages,
        fs run.1 !! final_path (Path.abspath (cwd example_env) "out")
        = Some (File (Pdf pages)))
  \/ ((Cli.status run.2 = 1%Z \/ Cli.status run.2 = 2%Z)
      /\ Cli.stdout run.2 = []
      /\ (exists msg, Cli.stderr run.2 = ["Error: " +:+ msg])
      /\ forall k dt, k <> final_path (Path.abspath (cwd example_env) "out") ->
           fs run.1 !! k = Some (File dt) ->
           fs example_world !! k = Some (File dt)).
Proof.
  refine (main_status_and_files example_env eq_refl ["a.pdf"; "b.pdf"] "out" false
            example_world _ _ _ _).
  - exact example_wf.
  - vm_compute. reflexivity.
Defined.

(** The output [b.pdf], which is there. *)
Lemma main_existing_output_witness :
  Cli.main example_env ["a.pdf"] "b.pdf" false example_world
  = (example_world,
     {| Cli.stdout := [];
        Cli.stderr := ["Error: Output file already exists: "
                       +:+ Path.abspath (cwd example_env) "b.pdf"];
        Cli.status := 2 |}).
Proof.
  refine (main_existing_output example_env eq_refl ["a.pdf"] "b.pdf" example_world
            (Pdf [Page 3; Page 4; Page 5]) _ _ _ _ _).
  - exact example_wf.
  - reflexivity.
  - vm_compute. discriminate.
  - constructor; [|constructor]. vm_compute. reflexivity.
  - vm_compute. reflexivity.
Defined.

(** The second of three items. *)
Lemma move_up_down_round_trip_witness :
  let lw := Gui.listWidget example_ui in
  ((1 <= Gui.current lw)%Z ->
   Gui.listWidget
     (Gui.moveDownButtonClicked example_qt (Gui.moveUpButtonClicked example_qt example_ui))
   = lw)
  /\ ((Gui.current lw < Gui.count lw - 1)%Z ->
      Gui.listWidget
        (Gui.moveUpButtonClicked example_qt
           (Gui.moveDownButtonClicked example_qt example_ui))
      = lw).
Proof.
  refine (move_up_down_round_trip example_qt example_ui _).
  vm_compute. split; [discriminate|reflexivity].
Defined.

Lemma move_follows_item_witness :
  let lw := Gui.listWidget example_ui in
  let up := Gui.listWidget (Gui.moveUpButtonClicked example_qt example_ui) in
  let down := Gui.listWidget (Gui.moveDownButtonClicked example_qt example_ui) in
  ((1 <= Gui.current lw)%Z ->
   Gui.current up = (Gui.current lw - 1)%Z
   /\ Gui.items up !! Z.to_nat (Gui.current up)
      = Gui.items lw !! Z.to_nat (Gui.current lw))
  /\ ((Gui.current lw < Gui.count lw - 1)%Z ->
      Gui.current down = (Gui.current lw + 1)%Z
      /\ Gui.items down !! Z.to_nat (Gui.current down)
         = Gui.items lw !! Z.to_nat (Gui.current lw)).
Proof.
  refine (move_follows_item example_qt example_ui _).
  vm_compute. split; [discriminate|reflexivity].
Defined.

(** A merge into [new.pdf], with [report.pdf] beside it. *)
Lemma merge_button_replaces_nothing_unasked_witness :
  fs (Gui.mergeButtonClicked example_env example_qt false example_ui example_world).1
    !! "/w/report.pdf"
  = Some (File (Pdf [Page 9])).
Proof.
  refine (merge_button_replaces_nothing_unasked example_env eq_refl example_qt
            example_ui example_world _
            (Gui.mergeButtonClicked example_env example_qt false example_ui
               example_world).2
            _ _ _ _ _ "/w/report.pdf" (File (Pdf [Page 9])) _).
  - exact example_wf.
  - vm_compute. reflexivity.
  - vm_compute. reflexivity.
  - vm_compute. reflexivity.
  - vm_compute. reflexivity.
  - vm_compute. reflexivity.
Defined.

(** The output [report.pdf], which is there, with [overwrite]. *)
Lemma overwrite_replaces_existing_witness :
  exists w',
    merge_pdfs example_env ["a.pdf"; "b.pdf"; "a.pdf"] "report.pdf" true example_world
    = (w', Ok (Path.abspath (cwd example_env) "report.pdf"))
    /\ fs w' !! Path.abspath (cwd example_env) "report.pdf"
       = Some (File (Pdf (concat (map (pages_of example_env (fs example_world))
                                    ["a.pdf"; "b.pdf"; "a.pdf"])))).
Proof.
  refine (overwrite_replaces_existing example_env eq_refl
            ["a.pdf"; "b.pdf"; "a.pdf"] "report.pdf" example_world (Pdf [Page 9])
            (World (<["/tmp/tmpb" := Dir]> example_fs) [] []) "/tmp/tmpb"
            _ _ _ _ _ _ _ _).
  - exact example_wf.
  - reflexivity.
  - discriminate.
  - constructor; [|constructor; [|constructor; [|constructor]]].
    + vm_compute. reflexivity.
    + vm_compute. reflexivity.
    + vm_compute. reflexivity.
  - exact example_pdf_inputs.
  - vm_compute. discriminate.
  - vm_compute. reflexivity.
  - vm_compute. reflexivity.
Defined.

(** A text file converted into a directory that is not there. *)
Lemma failed_text_conversion_writes_nothing_witness :
  fs (_text_to_pdf example_env "/w/c.txt" "/nodir/x.pdf" example_world).1
  = fs example_world
  /\ written (_text_to_pdf example_env "/w/c.txt" "/nodir/x.pdf" example_world).1
     = written example_world.
Proof.
  refine (failed_text_conversion_writes_nothing example_env "/w/c.txt" "/nodir/x.pdf"
            example_world _ (ENOENT "/nodir/x.pdf") _).
  vm_compute. reflexivity.
Defined.

(** The image of [bad_orientation_example]. *)
Lemma fallback_png_left_behind_witness :
  exists png,
    fs (_image_to_pdf example_env "/w/p.png" "/tmp/tmpa/img_p.pdf" "/tmp/tmpa"
          example_world).1
      !! key example_env
           (Path.join "/tmp/tmpa" ("fixed_" +:+ Path.stem "/w/p.png" +:+ ".png"))
    = Some (File (Raw png)).
Proof.
  refine (fallback_png_left_behind example_env "/w/p.png" "/tmp/tmpa/img_p.pdf"
            "/tmp/tmpa" example_world _ (Ok tt) _ _ _ _).
  - vm_compute. discriminate.
  - vm_compute. reflexivity.
  - simpl. apply not_elem_of_nil.
  - vm_compute. repeat constructor.
Defined.
